(** * playtag SVF parser: a shallow embedding of [playtag/svf/parser.py]

    The development follows the source file top-down: the Python string
    primitives the parser relies on, the command assembler [getcmds], the
    sticky state of a [ParseSVF] instance, the command interpreters
    ([cmd_enddrir], [cmd_frequency], [cmd_reg], [cmd_runtest], [cmd_shift],
    [cmd_state], [cmd_trst]), the dispatch table and the [parse] loop.

    Python 2 [str] values are modelled by [string]; a [dict] by a [gmap];
    exceptions by an explicit result type threaded through a state monad in
    which the instance state survives a raised exception, as it does in
    Python. *)

From Stdlib Require Import ZArith NArith Ascii String List Lia.
From stdpp Require Import base option list gmap strings.

Local Open Scope string_scope.
Local Open Scope Z_scope.

(** ** Python values the parser manipulates *)

Module Py.

(** Exceptions that can leave the interpreters.  [SvfError] is the class
    declared by the module; the others are Python built-ins.  The
    argument of an [SvfError] is kept unformatted: [Fmt fmt args] is
    [SvfError(fmt % args)], where [ARepr s] stands for [repr(s)];
    [Args args] is [SvfError(a, b, ...)] with several positional arguments,
    whose [message] is empty; [Located linenum fname cmd m] is the text
    [parse] builds from its format
    ["Error in line %s of file %s:\n   Command %s: %s"] and the
    [message] of the error [m] it caught (empty when [m] is [Args]). *)
Inductive fmtarg :=
| AStr (s : string)
| ARepr (s : string)
| AInt (n : Z).

Inductive message :=
| Fmt (fmt : string) (args : list fmtarg)
| Args (args : list fmtarg)
| Located (linenum : Z) (fname cmd : string) (inner : message).

Inductive exn :=
| SvfError (m : message)
| KeyError (key : string)
| NameError (name : string)
| UnboundLocalError (name : string)
| AttributeError (name : string)
| IndexError
| AssertionError
| TypeError (msg : string).

Inductive result (A : Type) :=
| Ok (a : A)
| Raise (e : exn).
Arguments Ok {A} a.
Arguments Raise {A} e.

Definition is_SvfError (e : exn) : bool :=
  match e with SvfError _ => true | _ => false end.

Definition svf_error (fmt : string) (args : list fmtarg) : exn :=
  SvfError (Fmt fmt args).

Definition is_Ok {A} (r : result A) : bool :=
  match r with Ok _ => true | Raise _ => false end.

(** The double quote character, for messages that contain one. *)
Definition dq : string := String (ascii_of_nat 34) EmptyString.

(** [str.upper()] in the C locale: only [a]..[z] change. *)
Definition upper_ascii (c : ascii) : ascii :=
  let n := N_of_ascii c in
  if ((97 <=? n) && (n <=? 122))%N then ascii_of_N (n - 32) else c.

Fixpoint upper (s : string) : string :=
  match s with
  | EmptyString => EmptyString
  | String c r => String (upper_ascii c) (upper r)
  end.

(** [s.split(sep)] for a one-character separator: every occurrence
    splits, empty pieces are kept, the result is never empty. *)
Fixpoint split (sep : ascii) (s : string) : list string :=
  match s with
  | EmptyString => [EmptyString]
  | String c r =>
      if Ascii.eqb c sep then EmptyString :: split sep r
      else match split sep r with
           | p :: ps => String c p :: ps
           | [] => [String c EmptyString]
           end
  end.

(** [''.join(l)] *)
Definition join (l : list string) : string := String.concat "" l.

(** [t in s] for strings is the substring test. *)
Fixpoint is_substring (t s : string) : bool :=
  String.prefix t s ||
  match s with
  | EmptyString => false
  | String _ r => is_substring t r
  end.

(** [int(s)] on a token: an optional sign and one or more decimal
    digits.  ([int] also strips surrounding white space, which a token
    never contains.) *)
Definition digit (c : ascii) : option Z :=
  let n := N_of_ascii c in
  if ((48 <=? n) && (n <=? 57))%N then Some (Z.of_N (n - 48)) else None.

Fixpoint digits (acc : Z) (s : string) : option Z :=
  match s with
  | EmptyString => Some acc
  | String c r =>
      match digit c with
      | Some d => digits (10 * acc + d) r
      | None => None
      end
  end.

Definition unsigned (s : string) : option Z :=
  match s with
  | EmptyString => None
  | _ => digits 0 s
  end.

Definition int (s : string) : option Z :=
  match s with
  | String "+" r => unsigned r
  | String "-" r => Z.opp <$> unsigned r
  | _ => unsigned s
  end.

(** [binascii.unhexlify]: [TypeError] on an odd length, then on the
    first character that is not a hexadecimal digit. *)
Definition hexval (c : ascii) : option N :=
  let n := N_of_ascii c in
  if ((48 <=? n) && (n <=? 57))%N then Some (n - 48)%N
  else if ((97 <=? n) && (n <=? 102))%N then Some (n - 87)%N
  else if ((65 <=? n) && (n <=? 70))%N then Some (n - 55)%N
  else None.

Definition is_hex (c : ascii) : bool :=
  match hexval c with Some _ => true | None => false end.

Definition mkbyte (hi lo : N) : Init.Byte.byte := byte_of_ascii (ascii_of_N (16 * hi + lo)).

Fixpoint hexpairs (s : string) : option (list Init.Byte.byte) :=
  match s with
  | EmptyString => Some []
  | String _ EmptyString => None
  | String a (String b r) =>
      match hexval a, hexval b with
      | Some hi, Some lo => cons (mkbyte hi lo) <$> hexpairs r
      | _, _ => None
      end
  end.

Definition unhexlify (s : string) : result (list Init.Byte.byte) :=
  if Nat.odd (String.length s) then Raise (TypeError "Odd-length string")
  else match hexpairs s with
       | Some bs => Ok bs
       | None => Raise (TypeError "Non-hexadecimal digit found")
       end.

End Py.
Import Py.

(** ** [gettokens]

    The tokenizer applies [re.split] with the pattern
    [(//.*|\!.*|[a-zA-Z0-9.+-]+|\S)] to every line.  The pattern has one
    group, so the result alternates the text between matches (even
    positions) with the matched tokens (odd positions).  A match starts at
    the first character that is not white space; the alternatives are
    tried in order; [.] stops at a newline. *)

(** White space, for [\S] in a byte pattern and for [str.split()] and
    [str.strip()]: the characters 9 to 13 and the space. *)
Definition is_space (c : ascii) : bool :=
  let n := N_of_ascii c in
  ((9 <=? n) && (n <=? 13) || (n =? 32))%N.

(** The class [[a-zA-Z0-9.+-]]. *)
Definition is_wordchar (c : ascii) : bool :=
  let n := N_of_ascii c in
  ((97 <=? n) && (n <=? 122) || (65 <=? n) && (n <=? 90)
   || (48 <=? n) && (n <=? 57) || (n =? 46) || (n =? 43) || (n =? 45))%N.

Definition newline : ascii := ascii_of_nat 10.

Definition add_char (s : string) (c : ascii) : string := s ++ String c EmptyString.

(** A match that is still growing: a comment ([//.*] or [\!.*]) or a run
    of word characters. *)
Inductive growing :=
| Comment (text : string)
| WordRun (text : string).

(** [re.split(line)].  [gap] is the unmatched text read since the last
    match, [cur] the match being extended, if any. *)
Fixpoint re_split (gap : string) (cur : option growing) (s : string) : list string :=
  match s with
  | EmptyString =>
      match cur with
      | None => [gap]
      | Some (Comment t) | Some (WordRun t) => [gap; t; ""]
      end
  | String ch r =>
      match cur with
      | Some (Comment t) =>
          if negb (Ascii.eqb ch newline) then re_split gap (Some (Comment (add_char t ch))) r
          else gap :: t :: re_split (String ch "") None r
      | Some (WordRun t) =>
          if is_wordchar ch then re_split gap (Some (WordRun (add_char t ch))) r
          else
            gap :: t ::
            (if is_space ch then re_split (String ch "") None r
             else if Ascii.eqb ch "/" then
               match r with
               | String "/" r' => re_split "" (Some (Comment "//")) r'
               | _ => "" :: "/" :: re_split "" None r
               end
             else if Ascii.eqb ch "!" then re_split "" (Some (Comment "!")) r
             else "" :: String ch "" :: re_split "" None r)
      | None =>
          if is_space ch then re_split (add_char gap ch) None r
          else if Ascii.eqb ch "/" then
            match r with
            | String "/" r' => re_split gap (Some (Comment "//")) r'
            | _ => gap :: "/" :: re_split "" None r
            end
          else if Ascii.eqb ch "!" then re_split gap (Some (Comment "!")) r
          else if is_wordchar ch then re_split gap (Some (WordRun (String ch ""))) r
          else gap :: String ch "" :: re_split "" None r
      end
  end.

(** [l[::2]] and [l[1::2]] *)
Fixpoint evens {A} (l : list A) : list A :=
  match l with
  | [] => []
  | x :: r => x :: match r with [] => [] | _ :: r' => evens r' end
  end.

Definition odds {A} (l : list A) : list A :=
  match l with
  | [] => []
  | _ :: r => evens r
  end.

(** [s.strip()] *)
Fixpoint lstrip (s : string) : string :=
  match s with
  | EmptyString => EmptyString
  | String c r => if is_space c then lstrip r else s
  end.

Fixpoint rstrip (s : string) : string :=
  match s with
  | EmptyString => EmptyString
  | String c r =>
      match rstrip r with
      | EmptyString => if is_space c then EmptyString else String c EmptyString
      | r' => String c r'
      end
  end.

Definition strip (s : string) : string := rstrip (lstrip s).

(** [s.split()] is not empty: some character of [s] is not white space. *)
Fixpoint has_word (s : string) : bool :=
  match s with
  | EmptyString => false
  | String c r => negb (is_space c) || has_word r
  end.

(** [token.startswith(('//', '!'))] *)
Definition is_comment (tok : string) : bool :=
  String.prefix "//" tok || String.prefix "!" tok.

Definition is_empty (s : string) : bool :=
  match s with EmptyString => true | _ => false end.

(** The tokens one line contributes: the matches that are not comments. *)
Definition line_tokens (line : string) : list string :=
  List.filter (fun tok => negb (is_comment tok)) (odds (re_split "" None line)).

(** The generator: the tokens yielded, in order, and the exception that
    ends it, if any. *)
Fixpoint gettokens_from (linenum : Z) (lines : list string)
    : list (string * Z) * option exn :=
  match lines with
  | [] => ([], None)
  | line :: rest =>
      let linenum := linenum + 1 in
      let toss := evens (re_split "" None line) in
      if has_word (join toss) then
        ([], Some match List.filter (fun x => negb (is_empty x)) (map strip toss) with
                  | x :: _ =>
                      svf_error "Unexpected token %s on line %s" [ARepr x; AInt linenum]
                  | [] => IndexError
                  end)
      else
        let (ys, e) := gettokens_from linenum rest in
        ((map (fun tok => (tok, linenum)) (line_tokens line) ++ ys)%list, e)
  end.

Definition gettokens (lines : list string) : list (string * Z) * option exn :=
  gettokens_from 0 lines.

(** Shapes of the pieces of a split line, for statements about the
    tokenizer: text without any visible character, a run of word
    characters, a single character that is neither white space nor a word
    character. *)
Definition blank (s : string) : Prop := has_word s = false.

Definition word_run (t : string) : Prop :=
  t <> "" /\ Forall (fun c => is_wordchar c = true) (list_ascii_of_string t).

Definition single (t : string) : Prop :=
  exists c, t = String c "" /\ is_space c = false /\ is_wordchar c = false.

Definition growing_ok (cur : option growing) : Prop :=
  match cur with
  | None => True
  | Some (Comment t) => is_comment t = true
  | Some (WordRun t) => word_run t
  end.

(** ** Tokens and commands

    [gettokens] yields [(token, linenum)] pairs of plain strings.  A command
    is a list of upper-cased words in which every parenthesised run has
    been replaced by one [AnnotatedString] equal to [hexdata_text] whose
    [values] attribute holds the collected sub-tokens. *)

Inductive token :=
| Word (s : string)
| HexData (values : list string).

Definition hexdata_text : string := "(<hexdata>)".

(** The [str] value of a token, which is what [==], [in] and dictionary
    lookups see. *)
Definition token_str (t : token) : string :=
  match t with
  | Word s => s
  | HexData _ => hexdata_text
  end.

Definition command : Type := list token * Z.

(** A token with the sub-tokens of its hex block in upper case, for
    statements about letter case. *)
Definition upper_token (t : token) : token :=
  match t with
  | Word w => Word w
  | HexData values => HexData (map upper values)
  end.

(** ** [getcmds]

    The generator runs two nested [for] loops over one shared token
    iterator.  [sub] is [Some subcmd] while the inner loop (between
    parentheses) is the one pulling tokens, [None] while the outer one is.
    The result is the list of commands yielded, in order, and the exception
    that ended the generator, if any. *)
Fixpoint getcmds_from (sub : option (list string)) (cmd : list token)
    (cmdlinenum : Z) (tokens : list (string * Z)) : list command * option exn :=
  match tokens with
  | [] =>
      (match cmd with [] => [] | _ => [(cmd, cmdlinenum)] end, None)
  | (tok, linenum) :: rest =>
      match sub with
      | None =>
          if negb (is_substring tok ";(") then
            getcmds_from None (cmd ++ [Word (upper tok)])
              (if cmdlinenum =? 0 then linenum else cmdlinenum) rest
          else if String.eqb tok ";" then
            match cmd with
            | [] => getcmds_from None cmd cmdlinenum rest
            | _ =>
                let (ys, e) := getcmds_from None [] 0 rest in
                ((cmd, cmdlinenum) :: ys, e)
            end
          else getcmds_from (Some []) cmd cmdlinenum rest
      | Some subcmd =>
          if is_substring tok ");" then
            if String.eqb tok ";" then
              ([], Some match cmd with
                        | [] => IndexError
                        | c :: _ =>
                            SvfError (Args
                              [AStr ("Missing " ++ dq ++ ")" ++ dq ++ " in command %s on line %s");
                               ARepr (token_str c); AInt cmdlinenum])
                        end)
            else getcmds_from None (cmd ++ [HexData subcmd]) cmdlinenum rest
          else getcmds_from (Some (subcmd ++ [tok])%list) cmd cmdlinenum rest
      end
  end.

Definition getcmds (tokens : list (string * Z)) : list command * option exn :=
  getcmds_from None [] 0 tokens.

(** The tokens a command is written as: its words, every hex block between
    parentheses, and the closing semicolon, all on the line of the
    command.  Used to state what [getcmds] recovers. *)
Definition render_token (l : Z) (t : token) : list (string * Z) :=
  match t with
  | Word w => [(w, l)]
  | HexData values => (("(", l) :: map (fun v => (v, l)) values ++ [(")", l)])%list
  end.

Definition render (c : command) : list (string * Z) :=
  (concat (map (render_token c.2) c.1) ++ [(";", c.2)])%list.

(** A command as [getcmds] yields them from tokenizer output: it starts
    with a word, its words are in upper case and are no delimiters, and no
    sub-token of a hex block closes the block. *)
Definition plain_word (w : string) : Prop :=
  upper w = w /\ is_substring w ";(" = false.

Definition plain_token (t : token) : Prop :=
  match t with
  | Word w => plain_word w
  | HexData values => Forall (fun v => is_substring v ");" = false) values
  end.

Definition plain_command (c : command) : Prop :=
  (exists w rest, c.1 = Word w :: rest) /\ Forall plain_token c.1.

(** ** Class attributes of [ParseSVF] that do not depend on [jtagstates] *)

Definition timing : gmap string Z :=
  list_to_map [("TCK", 0); ("SCK", 1); ("SEC", 2)].

Definition paramtypes : list string := ["MASK"; "SMASK"; "TDI"; "TDO"].

Definition stable : gset string :=
  list_to_set ["IRPAUSE"; "DRPAUSE"; "RESET"; "IDLE"].

Definition valid_trst : gmap string Z :=
  list_to_map [("ON", 1); ("OFF", 0); ("Z", 2); ("ABSENT", 3)].

(** The key under which an attribute [x] of [jtagstates] enters the state
    table: [''.join(reversed(x.split('_'))).upper()]. *)
Definition svf_name (x : string) : string :=
  upper (join (rev (split "_" x))).

(** One entry of a register dictionary: the [length] attribute holds an
    integer, a parameter holds a [(length, data)] tuple. *)
Inductive field :=
| FInt (n : Z)
| FPair (plen : Z) (data : list Init.Byte.byte).

Definition nodata : field := FPair 0 [].

(** ** The state monad of a parser instance *)

Definition M (S A : Type) : Type := S -> S * result A.

Definition ret {S A} (a : A) : M S A := fun s => (s, Ok a).

Definition raise {S A} (e : exn) : M S A := fun s => (s, Raise e).

Definition bind {S A B} (m : M S A) (k : A -> M S B) : M S B :=
  fun s =>
    match m s with
    | (s', Ok a) => k a s'
    | (s', Raise e) => (s', Raise e)
    end.

Definition get {S} : M S S := fun s => (s, Ok s).

Definition modify {S} (f : S -> S) : M S unit := fun s => (f s, Ok tt).

Definition lift {S A} (r : result A) : M S A := fun s => (s, r).

Declare Scope py_scope.
Delimit Scope py_scope with py.
Notation "x <- c ;; k" := (bind c (fun x => k))
  (at level 100, c at next level, right associativity) : py_scope.
Notation "c ;; k" := (bind c (fun _ => k))
  (at level 100, right associativity) : py_scope.
Local Open Scope py_scope.

(** [d[k]] *)
Definition getitem {V} (d : gmap string V) (k : string) : result V :=
  match d !! k with
  | Some v => Ok v
  | None => Raise (KeyError k)
  end.

(** ** A sample instance of the parser's parameters

    [playtag.jtag.states] and Python's [float] are not part of the parser;
    the development below is parametric in them.  This instance, the
    sixteen TAP controller states under the attribute names the state table
    is built from and plain decimal literals as seconds, is used to run the
    interpreters on concrete commands. *)
Module Sample.

Definition jtagstates : list (string * nat) :=
  [("reset", 0); ("idle", 1);
   ("select_dr", 2); ("capture_dr", 3); ("shift_dr", 4); ("exit1_dr", 5);
   ("pause_dr", 6); ("exit2_dr", 7); ("update_dr", 8);
   ("select_ir", 9); ("capture_ir", 10); ("shift_ir", 11); ("exit1_ir", 12);
   ("pause_ir", 13); ("exit2_ir", 14); ("update_ir", 15)]%nat.

(** A decimal literal [m / 10^k], kept exact. *)
Definition decimal : Type := Z * nat.

Fixpoint decimal_digits (m : Z) (k : option nat) (seen : bool) (s : string)
    : option decimal :=
  match s with
  | EmptyString => if seen then Some (m, default 0%nat k) else None
  | String c r =>
      match digit c, k with
      | Some d, _ => decimal_digits (10 * m + d) (S <$> k) true r
      | None, None =>
          if Ascii.eqb c "." then decimal_digits m (Some 0%nat) seen r else None
      | None, Some _ => None
      end
  end.

Definition float (s : string) : option decimal :=
  match s with
  | String "-" r => (fun '(m, k) => (- m, k)) <$> decimal_digits 0 None false r
  | String "+" r => decimal_digits 0 None false r
  | _ => decimal_digits 0 None false s
  end.

Definition float_eq_int (f : decimal) (n : Z) : bool :=
  fst f =? n * 10 ^ Z.of_nat (snd f).

End Sample.

(** ** The parser instance *)

Section ParseSVF.

(** The values bound to the attributes of [jtagstates]. *)
Context {StateId : Type}.
(** [vars(jtagstates).iteritems()], in iteration order. *)
Variable jtagstates : list (string * StateId).
(** Python floats: the [float] constructor on a string and the
    comparison [f == n] of a float with an integer. *)
Context {pyfloat : Type}.
Variable float : string -> option pyfloat.
Variable float_eq_int : pyfloat -> Z -> bool.

(** The class attribute [states], filled by the loop in the class body.
    [StateId] stands for the values that are not [None]: for [.get] an
    attribute bound to [None] is the same as a missing one. *)
Definition states : gmap string StateId :=
  foldl (fun d xy => <[svf_name xy.1 := xy.2]> d) ∅ jtagstates.

(** Instance attributes set by [__init__].  [sticky] maps each of the six
    register commands to its own dictionary; the dictionaries are created
    once and only ever mutated in place, so a command name identifies the
    dictionary object. *)
Record Session := mkSession {
  sticky : gmap string (gmap string field);
  FREQUENCY : option pyfloat;
  ENDDR : StateId;
  ENDIR : StateId;
  RUNSTATE : StateId;
  ENDSTATE : StateId
}.

(** The records yielded by [parse].  The three register components of a
    [Shift] are the dictionary objects themselves, not copies: they are
    represented by the name of the register in [sticky]. *)
Inductive action :=
| Frequency (freq : option pyfloat) (linenum : Z)
| Shift (cmd : string) (header data trailer : string) (endstate : StateId) (linenum : Z)
| RunTest (numclocks : option Z) (use_sck : bool)
    (secs : option pyfloat * option pyfloat)
    (runstate endstate : StateId) (linenum : Z)
| State (statelist : list StateId) (linenum : Z)
| Trst (value : Z) (linenum : Z).

Abbreviation P := (M Session).

Definition new_register : gmap string field :=
  foldl (fun d param => <[param := nodata]> d) {["length" := FInt 0]} paramtypes.

(** [__init__], once [self.states.IDLE] has been read. *)
Definition new_session (idle : StateId) : Session :=
  let sticky :=
    foldl (fun d cmd => <[cmd := new_register]> d) ∅
      ["SIR"; "SDR"; "HIR"; "HDR"; "TIR"; "TDR"] in
  mkSession sticky None idle idle idle idle.

Definition init : result Session :=
  match states !! "IDLE" with
  | Some idle => Ok (new_session idle)
  | None => Raise (AttributeError "IDLE")
  end.

(** [self.sticky[reg][key]], for statements about the stored values. *)
Definition stored (s : Session) (reg key : string) : option field :=
  sticky s !! reg ≫= fun d => d !! key.

(** What [__init__] establishes and every interpreter keeps: the six
    register dictionaries exist and each holds a pair under every
    parameter name. *)
Definition registers : list string := ["SIR"; "SDR"; "HIR"; "HDR"; "TIR"; "TDR"].

Definition wf_register (s : Session) (reg : string) : Prop :=
  is_Some (sticky s !! reg) /\
  forall p, p ∈ paramtypes -> exists plen data, stored s reg p = Some (FPair plen data).

Definition wf (s : Session) : Prop :=
  forall reg, reg ∈ registers -> wf_register s reg.

(** [s'] differs from [s] at most in the register dictionary [reg]. *)
Definition only_register_changed (reg : string) (s s' : Session) : Prop :=
  (forall reg', reg' <> reg -> sticky s' !! reg' = sticky s !! reg')
  /\ (is_Some (sticky s !! reg) -> is_Some (sticky s' !! reg))
  /\ FREQUENCY s' = FREQUENCY s /\ ENDDR s' = ENDDR s /\ ENDIR s' = ENDIR s
  /\ RUNSTATE s' = RUNSTATE s /\ ENDSTATE s' = ENDSTATE s.

(** The effect of the invalidation loop of [cmd_reg] on one stored
    value, for statements about it. *)
Definition after_length (length : Z) (v : field) : field :=
  match v with
  | FPair plen _ => if negb (plen =? 0) && negb (plen =? length) then nodata else v
  | FInt _ => v
  end.

(** *** Attribute and dictionary access on the instance *)

Definition setattr (name : string) (v : StateId) : P unit :=
  modify (fun s =>
    if String.eqb name "ENDDR"
    then mkSession (sticky s) (FREQUENCY s) v (ENDIR s) (RUNSTATE s) (ENDSTATE s)
    else if String.eqb name "ENDIR"
    then mkSession (sticky s) (FREQUENCY s) (ENDDR s) v (RUNSTATE s) (ENDSTATE s)
    else if String.eqb name "RUNSTATE"
    then mkSession (sticky s) (FREQUENCY s) (ENDDR s) (ENDIR s) v (ENDSTATE s)
    else if String.eqb name "ENDSTATE"
    then mkSession (sticky s) (FREQUENCY s) (ENDDR s) (ENDIR s) (RUNSTATE s) v
    else s).

Definition getattr (name : string) : P StateId :=
  fun s =>
    if String.eqb name "ENDDR" then (s, Ok (ENDDR s))
    else if String.eqb name "ENDIR" then (s, Ok (ENDIR s))
    else if String.eqb name "RUNSTATE" then (s, Ok (RUNSTATE s))
    else if String.eqb name "ENDSTATE" then (s, Ok (ENDSTATE s))
    else (s, Raise (AttributeError name)).

Definition set_FREQUENCY (f : option pyfloat) : P unit :=
  modify (fun s =>
    mkSession (sticky s) f (ENDDR s) (ENDIR s) (RUNSTATE s) (ENDSTATE s)).

(** [self.sticky[cmd]]: the register dictionary named [cmd]. *)
Definition sticky_getitem (cmd : string) : P string :=
  fun s =>
    match sticky s !! cmd with
    | Some _ => (s, Ok cmd)
    | None => (s, Raise (KeyError cmd))
    end.

(** [mydict[key]], [key in mydict] and [mydict[key] = v] on the register
    dictionary [reg]. *)
Definition reg_getitem (reg key : string) : P field :=
  fun s => (s, getitem (default ∅ (sticky s !! reg)) key).

Definition reg_contains (reg key : string) : P bool :=
  fun s => (s, Ok (bool_decide (is_Some (default ∅ (sticky s !! reg) !! key)))).

Definition reg_setitem (reg key : string) (v : field) : P unit :=
  modify (fun s =>
    mkSession (<[reg := <[key := v]> (default ∅ (sticky s !! reg))]> (sticky s))
      (FREQUENCY s) (ENDDR s) (ENDIR s) (RUNSTATE s) (ENDSTATE s)).

(** *** [cmd_enddrir] *)

Definition cmd_enddrir (cmd : string) (iterparams : list token) (linenum : Z)
    : P (option action) :=
  match iterparams with
  | [] =>
      (* the loop body never ran: [state] is unbound at [self.states[state]] *)
      raise (UnboundLocalError "state")
  | state :: rest =>
      if negb (bool_decide (token_str state ∈ stable)) then
        raise (svf_error "%s is not a valid SVF stable state" [AStr (token_str state)])
      else
        match rest with
        | _ :: _ => raise (svf_error "Expected single state parameter" [])
        | [] =>
            v <- lift (getitem states (token_str state)) ;;
            setattr cmd v ;;
            ret None
        end
  end.

(** *** [cmd_frequency] *)

Definition cmd_frequency (cmd : string) (iterparams : list token) (linenum : Z)
    : P (option action) :=
  match iterparams with
  | [] =>
      set_FREQUENCY None ;;
      ret (Some (Frequency None linenum))
  | freq :: rest =>
      match float (token_str freq) with
      | None =>
          raise (svf_error "%s is not a valid floating point number"
                   [AStr (token_str freq)])
      | Some f =>
          (* the inner loop drains the iterator; [hz] is its last item *)
          match rest with
          | [hz] =>
              if negb (String.eqb (token_str hz) "HZ") then
                raise (svf_error "Unexpected text after frequency" [])
              else
                set_FREQUENCY (Some f) ;;
                ret (Some (Frequency (Some f) linenum))
          | _ => raise (svf_error "Unexpected text after frequency" [])
          end
      end
  end.

(** *** [cmd_reg] *)

(** [for p in self.paramtypes: ...]: drop every stored value whose length
    is set and is not the new one. *)
Fixpoint invalidate (mydict : string) (length : Z) (ps : list string) : P unit :=
  match ps with
  | [] => ret tt
  | p :: ps' =>
      v <- reg_getitem mydict p ;;
      match v with
      | FInt _ => raise (TypeError "'int' object has no attribute '__getitem__'")
      | FPair plen _ =>
          (if negb (plen =? 0) && negb (plen =? length)
           then reg_setitem mydict p nodata
           else ret tt) ;;
          invalidate mydict length ps'
      end
  end.

(** The hex block of one parameter: pad to an even number of digits,
    then decode. *)
Definition total_len (values : list string) : nat :=
  foldr (fun x n => (String.length x + n)%nat) 0%nat values.

Definition pad_values (values : list string) : list string :=
  if Nat.odd (total_len values) then "0" :: values else values.

Definition decode_hexdata (param : string) (values : list string)
    : result (list Init.Byte.byte) :=
  match unhexlify (join (pad_values values)) with
  | Ok data => Ok data
  | Raise (TypeError _) =>
      Raise (svf_error "Invalid (<hex data>) for parameter %s" [AStr param])
  | Raise e => Raise e
  end.

(** [for param in iterparams: ...], which pulls the value that follows
    each parameter name from the same iterator. *)
Fixpoint reg_params (mydict : string) (length : Z) (iterparams : list token)
    : P unit :=
  match iterparams with
  | [] => ret tt
  | param :: rest =>
      known <- reg_contains mydict (token_str param) ;;
      if negb known then
        raise (svf_error "Unknown parameter name %s" [ARepr (token_str param)])
      else
        match rest with
        | [] =>
            (* [StopIteration]: [data = ''] *)
            raise (svf_error "Expected (<hex data>) after parameter %s"
                     [AStr (token_str param)])
        | Word w :: _ =>
            if negb (String.eqb w hexdata_text) then
              raise (svf_error "Expected (<hex data>) after parameter %s"
                       [AStr (token_str param)])
            else raise (AttributeError "values")
        | HexData values :: rest' =>
            data <- lift (decode_hexdata (token_str param) values) ;;
            reg_setitem mydict (token_str param) (FPair length data) ;;
            reg_params mydict length rest'
        end
  end.

(** The data the parameter loop stores last under [key], when the
    parameters are well-formed pairs of a name and a hex block; for
    statements about [cmd_reg]. *)
Fixpoint assigned (iterparams : list token) (key : string)
    : option (list Init.Byte.byte) :=
  match iterparams with
  | param :: HexData values :: rest =>
      match assigned rest key with
      | Some data => Some data
      | None =>
          if String.eqb (token_str param) key then
            match decode_hexdata (token_str param) values with
            | Ok data => Some data
            | Raise _ => None
            end
          else None
      end
  | _ => None
  end.

Definition cmd_reg (cmd : string) (iterparams : list token) (linenum : Z)
    : P (option action) :=
  mydict <- sticky_getitem cmd ;;
  match iterparams with
  | [] => raise (svf_error "Missing or invalid bit count" [])
  | n :: rest =>
      match int (token_str n) with
      | None => raise (svf_error "Missing or invalid bit count" [])
      | Some length =>
          reg_setitem mydict "length" (FInt length) ;;
          invalidate mydict length paramtypes ;;
          reg_params mydict length rest ;;
          ret None
      end
  end.

(** *** [cmd_runtest] *)

(** The local variables of the loop; [secs] is the two-slot list. *)
Record runtest_locals := mkLocals {
  use_sck : bool;
  secs : option pyfloat * option pyfloat;
  numclocks : option Z;
  do_max : bool;
  do_end : bool;
  did_end : bool;
  prev_num : option token
}.

(** The locals with the pending token, if any, taken through
    [upper_token]. *)
Definition upper_locals (l : runtest_locals) : runtest_locals :=
  mkLocals (use_sck l) (secs l) (numclocks l) (do_max l) (do_end l) (did_end l)
    (upper_token <$> prev_num l).

Definition runtest_start : runtest_locals :=
  mkLocals false (None, None) None false false false None.

(** [numclocks != secs[0]] *)
Definition differs (numclocks : option Z) (sec : option pyfloat) : bool :=
  match numclocks, sec with
  | None, None => false
  | Some n, Some f => negb (float_eq_int f n)
  | _, _ => true
  end.

(** [secs[do_max]] and [secs[do_max] = f]: the boolean indexes the list. *)
Definition secs_get (l : runtest_locals) : option pyfloat :=
  if do_max l then snd (secs l) else fst (secs l).

Definition secs_set (f : pyfloat) (l : runtest_locals) : runtest_locals :=
  mkLocals (use_sck l)
    (if do_max l then (fst (secs l), Some f) else (Some f, snd (secs l)))
    (numclocks l) (do_max l) (do_end l) (did_end l) (prev_num l).

(** The bare name [states] inside a method.  The state table is the class
    attribute [ParseSVF.states]; the module's only binding of the table
    is [jtagstates], and a method body does not see class attributes as
    variables.  The name is therefore looked up among the globals and the
    built-ins, and not found. *)
Definition global_states : P (gmap string StateId) :=
  raise (NameError "states").

(** One iteration of [for param in iterparams]. *)
Definition runtest_step (param : token) (l0 : runtest_locals) : P runtest_locals :=
  let num := prev_num l0 in
  let l := mkLocals (use_sck l0) (secs l0) (numclocks l0)
             (do_max l0) (do_end l0) (did_end l0) None in
  let clock_specified := differs (numclocks l) (fst (secs l)) in
  match num with
  | Some num =>
      match timing !! token_str param with
      | None =>
          raise (svf_error ("Unexpected clause " ++ dq ++ "%s %s" ++ dq)
                   [AStr (token_str num); AStr (token_str param)])
      | Some clocktype =>
          if clocktype =? 2 then
            match secs_get l with
            | Some _ =>
                raise (svf_error "%sSeconds specified twice"
                         [AStr (if do_max l then "Maximum " else "")])
            | None =>
                match float (token_str num) with
                | Some f => ret (secs_set f l)
                | None =>
                    raise (svf_error "%s is not a valid floating point number"
                             [AStr (token_str num)])
                end
            end
          else
            let l := mkLocals (clocktype =? 1) (secs l) (numclocks l)
                       (do_max l) (do_end l) (did_end l) (prev_num l) in
            if do_max l || clock_specified then
              raise (svf_error "Invalid %s specification" [AStr (token_str param)])
            else
              match int (token_str num) with
              | Some n =>
                  ret (mkLocals (use_sck l) (secs l) (Some n)
                         (do_max l) (do_end l) (did_end l) (prev_num l))
              | None =>
                  raise (svf_error "%s is not a valid integer number"
                           [AStr (token_str num)])
              end
      end
  | None =>
      if bool_decide (token_str param ∈ stable) then
        if do_end l && negb (did_end l) && clock_specified then
          (* self.ENDSTATE = states[param] *)
          table <- global_states ;;
          v <- lift (getitem table (token_str param)) ;;
          setattr "ENDSTATE" v ;;
          ret (mkLocals (use_sck l) (secs l) (numclocks l)
                 (do_max l) (do_end l) true (prev_num l))
        else if negb (do_end l) && negb clock_specified then
          (* self.RUNSTATE = self.ENDSTATE = states[param] *)
          table <- global_states ;;
          v <- lift (getitem table (token_str param)) ;;
          setattr "RUNSTATE" v ;;
          setattr "ENDSTATE" v ;;
          ret l
        else raise (svf_error "Unexpected state %s" [AStr (token_str param)])
      else if do_end l then
        raise (svf_error "Invalid endstate %s" [AStr (token_str param)])
      else if String.eqb (token_str param) "MAXIMUM" then
        match secs l with
        | (Some _, None) =>
            ret (mkLocals (use_sck l) (secs l) (numclocks l)
                   true (do_end l) (did_end l) (prev_num l))
        | _ => raise (svf_error "Cannot do MAXIMUM SEC without SEC" [])
        end
      else if String.eqb (token_str param) "ENDSTATE" then
        if negb clock_specified then raise (svf_error "Unexpected ENDSTATE" [])
        else
          ret (mkLocals (use_sck l) (secs l) (numclocks l)
                 (do_max l) true (did_end l) (prev_num l))
      else
        ret (mkLocals (use_sck l) (secs l) (numclocks l)
               (do_max l) (do_end l) (did_end l) (Some param))
  end.

Fixpoint runtest_loop (iterparams : list token) (l : runtest_locals)
    : P runtest_locals :=
  match iterparams with
  | [] => ret l
  | param :: rest =>
      l' <- runtest_step param l ;;
      runtest_loop rest l'
  end.

Definition cmd_runtest (cmd : string) (iterparams : list token) (linenum : Z)
    : P (option action) :=
  l <- runtest_loop iterparams runtest_start ;;
  runstate <- getattr "RUNSTATE" ;;
  endstate <- getattr "ENDSTATE" ;;
  ret (Some (RunTest (numclocks l) (use_sck l) (secs l) runstate endstate linenum)).

(** *** [cmd_shift] *)

(** [s[1:]] and [s[1]] *)
Definition tail (s : string) : string :=
  match s with
  | EmptyString => EmptyString
  | String _ r => r
  end.

Definition second (s : string) : result string :=
  match String.get 1 s with
  | Some c => Ok (String c EmptyString)
  | None => Raise IndexError
  end.

Definition cmd_shift (cmd : string) (iterparams : list token) (linenum : Z)
    : P (option action) :=
  cmd_reg cmd iterparams linenum ;;
  if negb (String.eqb cmd "SIR" || String.eqb cmd "SDR") then raise AssertionError
  else
    let header := "H" ++ tail cmd in
    let trailer := "T" ++ tail cmd in
    c <- lift (second cmd) ;;
    endstate <- getattr ("END" ++ c ++ "R") ;;
    h <- sticky_getitem header ;;
    d <- sticky_getitem cmd ;;
    t <- sticky_getitem trailer ;;
    ret (Some (Shift cmd h d t endstate linenum)).

(** *** [cmd_state] *)

Fixpoint state_loop (iterparams : list token) (statelist : list StateId)
    : result (list StateId) :=
  match iterparams with
  | [] => Ok statelist
  | state :: rest =>
      match states !! token_str state with
      | None => Raise (svf_error "Invalid state %s" [AStr (token_str state)])
      | Some s => state_loop rest (statelist ++ [s])
      end
  end.

(** A parameter the state table resolves to [v], and one it does not
    know, for statements about [cmd_state]. *)
Definition resolves (t : token) (v : StateId) : Prop :=
  states !! token_str t = Some v.

Definition unknown (t : token) : Prop :=
  states !! token_str t = None.

Definition cmd_state (cmd : string) (iterparams : list token) (linenum : Z)
    : P (option action) :=
  statelist <- lift (state_loop iterparams []) ;;
  match last iterparams with
  | None =>
      (* no iteration ran: [state] is unbound *)
      raise (UnboundLocalError "state")
  | Some state =>
      if negb (bool_decide (token_str state ∈ stable)) then
        raise (svf_error "%s is not a stable state" [AStr (token_str state)])
      else ret (Some (State statelist linenum))
  end.

(** *** [cmd_trst] *)

Definition cmd_trst (cmd : string) (iterparams : list token) (linenum : Z)
    : P (option action) :=
  match iterparams with
  | [param] =>
      value <- lift (getitem valid_trst (token_str param)) ;;
      (* [if value is None] never holds: every value of the table is a number *)
      ret (Some (Trst value linenum))
  | _ => raise (svf_error "Expected a single parameter" [])
  end.

(** *** The dispatch table and [parse] *)

Definition cmdproc : Type := string -> list token -> Z -> P (option action).

Definition cmds : gmap string cmdproc :=
  list_to_map
    [("ENDIR", cmd_enddrir); ("ENDDR", cmd_enddrir); ("FREQUENCY", cmd_frequency);
     ("HDR", cmd_reg); ("HIR", cmd_reg); ("TDR", cmd_reg); ("TIR", cmd_reg);
     ("SIR", cmd_shift); ("SDR", cmd_shift); ("RUNTEST", cmd_runtest);
     ("STATE", cmd_state); ("TRST", cmd_trst)].

(** One pass of the loop body of [parse], before the [except] clause. *)
Definition run_command (params : list token) (linenum : Z) : P (option action) :=
  match params with
  | [] => ret None
  | c :: iterparams =>
      match cmds !! token_str c with
      | None => raise (svf_error "Unknown command" [])
      | Some proc => proc (token_str c) iterparams linenum
      end
  end.

(** [except SvfError, m: raise SvfError(... % (linenum, fname, cmd, m.message))];
    [at] is the command the loop last bound [linenum] and [cmd] to. *)
Definition reraise (fname : string) (at_cmd : option (Z * string)) (e : exn) : exn :=
  match e with
  | SvfError m =>
      match at_cmd with
      | Some (linenum, cmd) => SvfError (Located linenum fname cmd m)
      | None => UnboundLocalError "linenum"
      end
  | _ => e
  end.

(** The records [parse] yields from a list of assembled commands, the
    exception that ends it (if any), and the instance state it leaves.
    [pending] is the exception the command generator raises once the
    commands are used up. *)
Fixpoint parse_loop (fname : string) (at_cmd : option (Z * string))
    (commands : list command) (pending : option exn) (s : Session)
    : Session * (list action * option exn) :=
  match commands with
  | [] => (s, ([], reraise fname at_cmd <$> pending))
  | ([], _) :: _ =>
      (* [iterparams.next()] raises [StopIteration], which ends the generator *)
      (s, ([], None))
  | (c :: iterparams, linenum) :: rest =>
      let here := Some (linenum, token_str c) in
      match run_command (c :: iterparams) linenum s with
      | (s', Raise e) => (s', ([], Some (reraise fname here e)))
      | (s', Ok value) =>
          let '(s'', (ys, e)) := parse_loop fname here rest pending s' in
          (s'', (match value with Some v => v :: ys | None => ys end, e))
      end
  end.

(** [parse] on the token stream of the file [fname]. *)
Definition parse (fname : string) (tokens : list (string * Z)) (s : Session)
    : Session * (list action * option exn) :=
  let (commands, pending) := getcmds tokens in
  parse_loop fname None commands pending s.

(** * Properties *)

Local Set Default Proof Using "Type".

(** Propositional steps must not pick up the parameters of the section
    as if they were hypotheses. *)
Ltac hide_parameters :=
  repeat match goal with
         | f : string -> option _ |- _ => clear f
         | f : _ -> Z -> bool |- _ => clear f
         | l : list (string * _) |- _ => clear l
         end.
Ltac prop := hide_parameters; tauto.

(** ** The monad *)

Lemma bind_Ok {A B} (m : P A) (k : A -> P B) s s' a :
  m s = (s', Ok a) -> bind m k s = k a s'.
Proof. intros H. unfold bind. now rewrite H. Qed.

Lemma bind_Raise {A B} (m : P A) (k : A -> P B) s s' e :
  m s = (s', Raise e) -> bind m k s = (s', Raise e).
Proof. intros H. unfold bind. now rewrite H. Qed.

Lemma bind_inv_Ok {A B} (m : P A) (k : A -> P B) s s'' b :
  bind m k s = (s'', Ok b) ->
  exists s' a, m s = (s', Ok a) /\ k a s' = (s'', Ok b).
Proof.
  unfold bind. destruct (m s) as [s' [a|e]]; intros H.
  - now exists s', a.
  - discriminate.
Qed.

(** ** The stable-state set *)

Lemma stable_spec (x : string) :
  x ∈ stable <-> x = "IRPAUSE" \/ x = "DRPAUSE" \/ x = "RESET" \/ x = "IDLE".
Proof.
  unfold stable. simpl.
  rewrite !elem_of_union, !elem_of_singleton, elem_of_empty. prop.
Qed.

(** ** [cmd_trst] *)

Lemma cmd_trst_valid cmd param value linenum (s : Session) :
  valid_trst !! token_str param = Some value ->
  cmd_trst cmd [param] linenum s = (s, Ok (Some (Trst value linenum))).
Proof. intros H. unfold cmd_trst, bind, lift, getitem, ret. now rewrite H. Qed.

Lemma cmd_trst_unknown cmd param linenum (s : Session) :
  valid_trst !! token_str param = None ->
  cmd_trst cmd [param] linenum s = (s, Raise (KeyError (token_str param))).
Proof. intros H. unfold cmd_trst, bind, lift, getitem. now rewrite H. Qed.

Lemma cmd_trst_count cmd iterparams linenum (s : Session) :
  length iterparams <> 1%nat ->
  cmd_trst cmd iterparams linenum s =
    (s, Raise (svf_error "Expected a single parameter" [])).
Proof. destruct iterparams as [|a [|b r]]; simpl; intros H; try reflexivity. lia. Qed.

Lemma cmd_trst_table :
  map (fun k => valid_trst !! k) ["ON"; "OFF"; "Z"; "ABSENT"]
  = [Some 1; Some 0; Some 2; Some 3].
Proof. reflexivity. Qed.

(** C3: [TRST BOGUS;] does not end in the parser's own [SvfError]: the
    lookup [self.valid_trst[param]] raises [KeyError] before the test
    that would report an invalid TRST value is reached. *)
Theorem trst_bogus_raises_KeyError (linenum : Z) (s : Session) :
  cmd_trst "TRST" [Word "BOGUS"] linenum s = (s, Raise (KeyError "BOGUS"))
  /\ is_SvfError (KeyError "BOGUS") = false.
Proof. split; reflexivity. Qed.

(** The [KeyError] leaves [parse] as it is: the [except] clause only
    rewrites [SvfError]. *)
Lemma parse_trst_bogus fname (s : Session) :
  parse fname [("TRST", 1); ("BOGUS", 1); (";", 1)] s
  = (s, ([], Some (KeyError "BOGUS"))).
Proof. reflexivity. Qed.

(** ** [cmd_enddrir] *)

Lemma enddrir_single cmd state v linenum (s : Session) :
  token_str state ∈ stable ->
  states !! token_str state = Some v ->
  cmd_enddrir cmd [state] linenum s = ((setattr cmd v s).1, Ok None).
Proof.
  intros Hs Hv. unfold cmd_enddrir.
  rewrite bool_decide_eq_true_2 by assumption. simpl.
  unfold bind, lift, getitem. now rewrite Hv.
Qed.

Lemma enddrir_sets_ENDIR state v linenum (s : Session) :
  token_str state ∈ stable ->
  states !! token_str state = Some v ->
  exists s', cmd_enddrir "ENDIR" [state] linenum s = (s', Ok None)
    /\ ENDIR s' = v /\ ENDDR s' = ENDDR s /\ sticky s' = sticky s
    /\ RUNSTATE s' = RUNSTATE s /\ ENDSTATE s' = ENDSTATE s.
Proof.
  intros Hs Hv. eexists. rewrite (enddrir_single _ _ v) by assumption.
  repeat split.
Qed.

Lemma enddrir_sets_ENDDR state v linenum (s : Session) :
  token_str state ∈ stable ->
  states !! token_str state = Some v ->
  exists s', cmd_enddrir "ENDDR" [state] linenum s = (s', Ok None)
    /\ ENDDR s' = v /\ ENDIR s' = ENDIR s /\ sticky s' = sticky s
    /\ RUNSTATE s' = RUNSTATE s /\ ENDSTATE s' = ENDSTATE s.
Proof.
  intros Hs Hv. eexists. rewrite (enddrir_single _ _ v) by assumption.
  repeat split.
Qed.

Lemma enddrir_not_stable cmd state rest linenum (s : Session) :
  token_str state ∉ stable ->
  cmd_enddrir cmd (state :: rest) linenum s
  = (s, Raise (svf_error "%s is not a valid SVF stable state" [AStr (token_str state)])).
Proof.
  intros Hs. unfold cmd_enddrir.
  now rewrite bool_decide_eq_false_2 by assumption.
Qed.

Lemma enddrir_several cmd a b rest linenum (s : Session) :
  exists e, cmd_enddrir cmd (a :: b :: rest) linenum s = (s, Raise e)
    /\ is_SvfError e = true.
Proof.
  unfold cmd_enddrir. case_bool_decide; simpl; eexists; split; reflexivity.
Qed.

(** C6: with no parameter at all, [ENDIR;] and [ENDDR;] do fail, but not
    with an [SvfError]: the loop body never binds [state], and reading it
    afterwards raises [UnboundLocalError]. *)
Theorem enddrir_no_parameter_UnboundLocalError (cmd : string) (linenum : Z) (s : Session) :
  cmd_enddrir cmd [] linenum s = (s, Raise (UnboundLocalError "state"))
  /\ is_SvfError (UnboundLocalError "state") = false.
Proof. split; reflexivity. Qed.

Lemma parse_endir_alone fname (s : Session) :
  parse fname [("ENDIR", 1); (";", 1)] s
  = (s, ([], Some (UnboundLocalError "state"))).
Proof. reflexivity. Qed.


(** ** [cmd_runtest] *)

(** A state name never gets through an iteration: where the grammar
    accepts it, the table is read through the unbound name [states]. *)
Lemma runtest_step_stable param l (s : Session) :
  prev_num l = None ->
  token_str param ∈ stable ->
  exists e, runtest_step param l s = (s, Raise e)
    /\ (e = NameError "states" \/ is_SvfError e = true).
Proof.
  intros Hn Hs. unfold runtest_step. rewrite Hn.
  rewrite bool_decide_eq_true_2 by assumption. cbn [do_end did_end numclocks secs].
  destruct (do_end l && negb (did_end l) && _); [eexists; split; [reflexivity|now left]|].
  destruct (negb (do_end l) && _); eexists; (split; [reflexivity|]);
    [now left|now right].
Qed.

(** A pending number followed by anything but a unit keyword fails. *)
Lemma runtest_step_number_needs_unit param num l (s : Session) :
  prev_num l = Some num ->
  timing !! token_str param = None ->
  exists e, runtest_step param l s = (s, Raise e) /\ is_SvfError e = true.
Proof.
  intros Hn Ht. unfold runtest_step. rewrite Hn, Ht.
  eexists; split; reflexivity.
Qed.

Lemma timing_spec k :
  is_Some (timing !! k) <-> k = "TCK" \/ k = "SCK" \/ k = "SEC".
Proof.
  unfold timing. simpl.
  rewrite !lookup_insert_is_Some, lookup_empty, <- not_eq_None_Some.
  hide_parameters. intuition congruence.
Qed.

Lemma runtest_loop_Raise iterparams param l (s s' : Session) e :
  runtest_step param l s = (s', Raise e) ->
  runtest_loop (param :: iterparams) l s = (s', Raise e).
Proof. intros H. simpl. now apply bind_Raise. Qed.


(** C1: on [RUNTEST 100 TCK ENDSTATE IDLE;] no [RunTest] record comes
    out.  The clock clause and the [ENDSTATE] keyword are accepted, and
    the assignment [self.ENDSTATE = states[param]] then raises
    [NameError], leaving the instance as it was. *)
Theorem runtest_endstate_clause_NameError (linenum : Z) (s : Session) :
  cmd_runtest "RUNTEST" [Word "100"; Word "TCK"; Word "ENDSTATE"; Word "IDLE"] linenum s
  = (s, Raise (NameError "states")).
Proof. reflexivity. Qed.

Lemma parse_runtest_endstate fname (s : Session) :
  parse fname
    [("RUNTEST", 1); ("100", 1); ("TCK", 1); ("ENDSTATE", 1); ("IDLE", 1); (";", 1)] s
  = (s, ([], Some (NameError "states"))).
Proof. reflexivity. Qed.

(** Without the state name the same clauses are accepted. *)
Lemma runtest_100_TCK linenum (s : Session) :
  cmd_runtest "RUNTEST" [Word "100"; Word "TCK"] linenum s
  = (s, Ok (Some (RunTest (Some 100) false (None, None)
                    (RUNSTATE s) (ENDSTATE s) linenum))).
Proof. reflexivity. Qed.

(** C5: a number that ends the command is not rejected.  [RUNTEST 100;]
    buffers [100] in [prev_num], the loop ends, and a record without any
    clock or time is returned. *)
Theorem runtest_trailing_number_accepted (linenum : Z) (s : Session) :
  cmd_runtest "RUNTEST" [Word "100"] linenum s
  = (s, Ok (Some (RunTest None false (None, None)
                    (RUNSTATE s) (ENDSTATE s) linenum))).
Proof. reflexivity. Qed.

Lemma runtest_trailing_number_after_clause linenum (s : Session) :
  cmd_runtest "RUNTEST" [Word "100"; Word "TCK"; Word "5"] linenum s
  = (s, Ok (Some (RunTest (Some 100) false (None, None)
                    (RUNSTATE s) (ENDSTATE s) linenum))).
Proof. reflexivity. Qed.


Lemma runtest_step_MAXIMUM l l' (s s' : Session) :
  runtest_step (Word "MAXIMUM") l s = (s', Ok l') ->
  is_Some (fst (secs l)) /\ snd (secs l) = None
  /\ do_max l' = true /\ secs l' = secs l /\ s' = s.
Proof.
  destruct l as [u [m0 m1] n dm de dd [num|]]; intros H.
  - discriminate H.
  - destruct de; [discriminate H|].
    destruct m0 as [f0|]; [|discriminate H].
    destruct m1 as [f1|]; [discriminate H|].
    vm_compute in H. injection H as <- <-. simpl. eauto.
Qed.

Lemma runtest_step_SEC_maximum num f l (s : Session) :
  prev_num l = Some num ->
  do_max l = true ->
  snd (secs l) = None ->
  float (token_str num) = Some f ->
  exists l', runtest_step (Word "SEC") l s = (s, Ok l')
    /\ secs l' = (fst (secs l), Some f).
Proof.
  destruct l as [u [m0 m1] n dm de dd pn]; simpl.
  intros -> -> -> Hf. unfold runtest_step. simpl.
  change (timing !! "SEC") with (Some 2). simpl.
  unfold secs_get. simpl. rewrite Hf. eexists; split; reflexivity.
Qed.

(** C7: [MAXIMUM <num> SEC] fills the second seconds slot, and the
    keyword is accepted only with the first slot filled and the second
    still empty.  [RUNTEST 1.5 SEC MAXIMUM 2.0 SEC;] yields both values,
    [RUNTEST MAXIMUM 2.0 SEC;] is an [SvfError]. *)
Theorem runtest_maximum_seconds (a b : pyfloat) (linenum : Z) (s : Session) :
  float "1.5" = Some a ->
  float "2.0" = Some b ->
  cmd_runtest "RUNTEST"
    [Word "1.5"; Word "SEC"; Word "MAXIMUM"; Word "2.0"; Word "SEC"] linenum s
    = (s, Ok (Some (RunTest None false (Some a, Some b)
                      (RUNSTATE s) (ENDSTATE s) linenum)))
  /\ cmd_runtest "RUNTEST" [Word "MAXIMUM"; Word "2.0"; Word "SEC"] linenum s
    = (s, Raise (svf_error "Cannot do MAXIMUM SEC without SEC" []))
  /\ (forall l l' (s1 s2 : Session),
        runtest_step (Word "MAXIMUM") l s1 = (s2, Ok l') ->
        is_Some (fst (secs l)) /\ snd (secs l) = None /\ do_max l' = true)
  /\ (forall num f l (s1 : Session),
        prev_num l = Some num -> do_max l = true -> snd (secs l) = None ->
        float (token_str num) = Some f ->
        exists l', runtest_step (Word "SEC") l s1 = (s1, Ok l')
          /\ secs l' = (fst (secs l), Some f)).
Proof.
  intros Ha Hb. split; [|split; [reflexivity|split]].
  - vm_compute. rewrite Ha. vm_compute. rewrite Hb. reflexivity.
  - intros l l' s1 s2 H. apply runtest_step_MAXIMUM in H. prop.
  - intros num f l s1 H1 H2 H3 H4. now apply runtest_step_SEC_maximum with (num := num).
Qed.


(** ** The state table *)

Abbreviation chars := list_ascii_of_string.

Lemma chars_append a b : chars (a ++ b) = (chars a ++ chars b)%list.
Proof. induction a as [|c a IH]; simpl; [reflexivity|now rewrite IH]. Qed.

Lemma split_pieces sep s p :
  In p (split sep s) -> ~ In sep (chars p).
Proof.
  revert p. induction s as [|c r IH]; simpl; intros p Hp.
  - destruct Hp as [<-|[]]. simpl. prop.
  - destruct (Ascii.eqb_spec c sep) as [->|Hne].
    + destruct Hp as [<-|Hp]; [simpl; prop|now apply IH].
    + destruct (split sep r) as [|q qs] eqn:Hq.
      * destruct Hp as [<-|[]]. simpl. intros [?|[]]. congruence.
      * destruct Hp as [<-|Hp].
        -- simpl. intros [?|Hin]; [congruence|].
           apply (IH q); [now left|assumption].
        -- apply IH. now right.
Qed.

Lemma join_pieces c l :
  (forall p, In p l -> ~ In c (chars p)) -> ~ In c (chars (join l)).
Proof.
  unfold join. induction l as [|p l IH]; intros H; [simpl; prop|].
  destruct l as [|q l].
  - simpl. apply H. now left.
  - change (String.concat "" (p :: q :: l))
      with (p ++ "" ++ String.concat "" (q :: l)).
    rewrite chars_append. simpl. rewrite in_app_iff. intros [Hin|Hin].
    + apply (H p); [now left|assumption].
    + apply IH; [|assumption]. intros p' Hp'. apply H. now right.
Qed.

Lemma upper_ascii_underscore c : upper_ascii c = "_"%char -> c = "_"%char.
Proof.
  destruct c as [[] [] [] [] [] [] [] []]; vm_compute; congruence.
Qed.

Lemma upper_underscore s : In "_"%char (chars (upper s)) -> In "_"%char (chars s).
Proof.
  induction s as [|c r IH]; simpl; [prop|].
  intros [H|H]; [left; now apply upper_ascii_underscore|right; now apply IH].
Qed.

(** No key of the state table contains an underscore: [split] removes
    them all and [upper] does not create any. *)
Lemma svf_name_no_underscore x : ~ In "_"%char (chars (svf_name x)).
Proof.
  unfold svf_name. intros H. apply upper_underscore in H. revert H.
  apply join_pieces. intros p Hp. apply in_rev in Hp.
  now apply split_pieces in Hp.
Qed.

Lemma states_lookup_inv k v :
  states !! k = Some v -> exists x, In (x, v) jtagstates /\ k = svf_name x.
Proof.
  unfold states.
  assert (G : forall l (d : gmap string StateId),
    foldl (fun d xy => <[svf_name xy.1 := xy.2]> d) d l !! k = Some v ->
    d !! k = Some v \/ exists x, In (x, v) l /\ k = svf_name x).
  { induction l as [|[x y] l IH]; simpl; intros d H; [now left|].
    apply IH in H as [H|(x' & Hin & ->)].
    - destruct (decide (svf_name x = k)) as [<-|Hne].
      + rewrite lookup_insert_eq in H. injection H as ->. right. eauto.
      + rewrite lookup_insert_ne in H by assumption. now left.
    - right. eauto. }
  intros H. apply G in H as [H|H]; [|assumption].
  now rewrite lookup_empty in H.
Qed.

Lemma states_no_underscore k :
  In "_"%char (chars k) -> states !! k = None.
Proof.
  intros Hin. destruct (states !! k) as [v|] eqn:H; [|reflexivity].
  apply states_lookup_inv in H as (x & _ & ->).
  now apply svf_name_no_underscore in Hin.
Qed.

(** ** [cmd_state] *)

Lemma state_loop_resolved iterparams vs acc :
  Forall2 resolves iterparams vs ->
  state_loop iterparams acc = Ok (acc ++ vs)%list.
Proof.
  intros H. revert acc. induction H as [|t v ts vs Ht _ IH]; intros acc; simpl.
  - now rewrite app_nil_r.
  - unfold resolves in Ht. rewrite Ht, IH. now rewrite <- app_assoc.
Qed.

Lemma state_loop_unknown iterparams acc :
  Exists unknown iterparams ->
  exists e, state_loop iterparams acc = Raise e /\ is_SvfError e = true.
Proof.
  intros H. revert acc. induction H as [t ts Ht|t ts _ IH]; intros acc; simpl.
  - unfold unknown in Ht. rewrite Ht. eexists; split; reflexivity.
  - destruct (states !! token_str t); [apply IH|eexists; split; reflexivity].
Qed.


Lemma cmd_state_unknown cmd iterparams linenum (s : Session) :
  Exists unknown iterparams ->
  exists e, cmd_state cmd iterparams linenum s = (s, Raise e)
    /\ is_SvfError e = true.
Proof.
  intros H. destruct (state_loop_unknown _ [] H) as (e & He & Hsvf).
  exists e. split; [|assumption].
  unfold cmd_state, bind, lift. now rewrite He.
Qed.

Lemma cmd_state_resolved cmd front final vs linenum (s : Session) :
  Forall2 resolves (front ++ [final]) vs ->
  cmd_state cmd (front ++ [final]) linenum s
  = (s, if bool_decide (token_str final ∈ stable)
        then Ok (Some (State vs linenum))
        else Raise (svf_error "%s is not a stable state" [AStr (token_str final)])).
Proof.
  intros H. unfold cmd_state, bind, lift.
  rewrite (state_loop_resolved _ vs) by assumption. simpl.
  rewrite last_snoc. now case_bool_decide.
Qed.

(** C8: [STATE] resolves every name against the state table and fails on
    the first one the table does not know; of the resolved states only
    the last is tested against the stable set, whatever the earlier ones
    are.  [STATE RESET IDLE;] is accepted, [STATE IDLE RESET_FOO;] is an
    [SvfError], as a single word or as the three tokens [RESET], [_],
    [FOO] the tokenizer makes of it. *)
Theorem cmd_state_checks_last_only
    (front : list token) (final : token) (r i : StateId) (linenum : Z) (s : Session) :
  states !! "RESET" = Some r ->
  states !! "IDLE" = Some i ->
  (Exists unknown (front ++ [final]) ->
     exists e, cmd_state "STATE" (front ++ [final]) linenum s = (s, Raise e)
       /\ is_SvfError e = true)
  /\ (forall vs, Forall2 resolves (front ++ [final]) vs ->
        token_str final ∈ stable ->
        cmd_state "STATE" (front ++ [final]) linenum s
        = (s, Ok (Some (State vs linenum))))
  /\ (forall vs, Forall2 resolves (front ++ [final]) vs ->
        token_str final ∉ stable ->
        exists e, cmd_state "STATE" (front ++ [final]) linenum s = (s, Raise e)
          /\ is_SvfError e = true)
  /\ cmd_state "STATE" [Word "RESET"; Word "IDLE"] linenum s
     = (s, Ok (Some (State [r; i] linenum)))
  /\ (exists e, cmd_state "STATE" [Word "IDLE"; Word "RESET_FOO"] linenum s
                = (s, Raise e) /\ is_SvfError e = true)
  /\ (exists e, cmd_state "STATE" [Word "IDLE"; Word "RESET"; Word "_"; Word "FOO"]
                  linenum s = (s, Raise e) /\ is_SvfError e = true).
Proof.
  intros Hr Hi. repeat split.
  - apply cmd_state_unknown.
  - intros vs Hvs Hst. rewrite (cmd_state_resolved _ _ _ vs) by assumption.
    now rewrite bool_decide_eq_true_2.
  - intros vs Hvs Hst. rewrite (cmd_state_resolved _ _ _ vs) by assumption.
    rewrite bool_decide_eq_false_2 by assumption. eexists; split; reflexivity.
  - rewrite (cmd_state_resolved _ [Word "RESET"] (Word "IDLE") [r; i]).
    + reflexivity.
    + repeat constructor; assumption.
  - apply cmd_state_unknown. apply Exists_cons_tl, Exists_cons_hd.
    apply states_no_underscore. vm_compute. prop.
  - apply cmd_state_unknown. do 2 apply Exists_cons_tl. apply Exists_cons_hd.
    apply states_no_underscore. vm_compute. prop.
Qed.


(** ** [getcmds] *)

(** Inside parentheses, a stream that ends before any closing token ends
    both loops; only the pending command is left to yield. *)
Lemma getcmds_inner_runs_out sub acc cmd line :
  Forall (fun t : string * Z => is_substring t.1 ");" = false) sub ->
  getcmds_from (Some acc) cmd line sub
  = (match cmd with [] => [] | _ => [(cmd, line)] end, None).
Proof.
  intros H. revert acc. induction H as [|[tok l] sub Ht _ IH]; intros acc.
  - reflexivity.
  - simpl in *. rewrite Ht. apply IH.
Qed.

Lemma getcmds_words words cmd line rest :
  Forall (fun t : string * Z => is_substring t.1 ";(" = false) words ->
  getcmds_from None cmd line (words ++ rest)
  = getcmds_from None (cmd ++ map (fun t => Word (upper t.1)) words)
      (foldl (fun c t => if c =? 0 then t.2 else c) line words) rest.
Proof.
  intros H. revert cmd line. induction H as [|[tok l] words Ht _ IH]; intros cmd line.
  - simpl. now rewrite app_nil_r.
  - simpl in *. rewrite Ht. simpl. rewrite IH. now rewrite <- app_assoc.
Qed.

Lemma getcmds_unclosed_nothing_pending sub l line :
  Forall (fun t : string * Z => is_substring t.1 ");" = false) sub ->
  getcmds_from None [] line (("(", l) :: sub) = ([], None).
Proof. intros H. simpl. now rewrite getcmds_inner_runs_out. Qed.

(** C10: when the token stream ends inside a parenthesised block, the
    generator raises nothing; the sub-tokens collected so far are lost
    and the command that was being assembled is yielded without a
    hex-data token for the open block. *)
Theorem getcmds_unclosed_paren
    (cmd : list token) (line l : Z) (sub : list (string * Z)) :
  cmd <> [] ->
  Forall (fun t : string * Z => is_substring t.1 ");" = false) sub ->
  getcmds_from None cmd line (("(", l) :: sub) = ([(cmd, line)], None)
  /\ (forall words,
        Forall (fun t : string * Z => is_substring t.1 ";(" = false) words ->
        map (fun t => Word (upper t.1)) words = cmd ->
        exists line', getcmds (words ++ ("(", l) :: sub) = ([(cmd, line')], None)).
Proof.
  intros Hne Hsub. split.
  - simpl. rewrite getcmds_inner_runs_out by assumption.
    destruct cmd; [contradiction|reflexivity].
  - intros words Hw Hcmd. unfold getcmds. rewrite getcmds_words by assumption.
    simpl. rewrite Hcmd. rewrite getcmds_inner_runs_out by assumption.
    destruct cmd; [contradiction|]. eexists. reflexivity.
Qed.

Example getcmds_unclosed_SIR :
  getcmds [("sir", 1); ("8", 1); ("tdi", 1); ("(", 1); ("ff", 1); ("00", 2)]
  = ([([Word "SIR"; Word "8"; Word "TDI"], 1)], None).
Proof. reflexivity. Qed.

Example getcmds_closed_SIR :
  getcmds [("SIR", 1); ("8", 1); ("TDI", 1); ("(", 1); ("FF", 1); (")", 1); (";", 1)]
  = ([([Word "SIR"; Word "8"; Word "TDI"; HexData ["FF"]], 1)], None).
Proof. reflexivity. Qed.

Example getcmds_semicolon_in_block :
  getcmds [("SIR", 1); ("8", 1); ("TDI", 1); ("(", 1); ("FF", 1); (";", 2)]
  = ([], Some (SvfError (Args
       [AStr ("Missing " ++ dq ++ ")" ++ dq ++ " in command %s on line %s");
        ARepr "SIR"; AInt 1]))).
Proof. reflexivity. Qed.


(** ** The sticky store *)

Lemma stored_setitem reg key v (s : Session) reg' key' :
  stored (reg_setitem reg key v s).1 reg' key'
  = if bool_decide (reg = reg' /\ key = key') then Some v else stored s reg' key'.
Proof.
  unfold stored, reg_setitem, modify. simpl.
  destruct (decide (reg = reg')) as [<-|Hr].
  - rewrite lookup_insert_eq. simpl.
    destruct (decide (key = key')) as [<-|Hk].
    + rewrite lookup_insert_eq. now rewrite bool_decide_eq_true_2.
    + rewrite lookup_insert_ne by assumption.
      rewrite bool_decide_eq_false_2 by prop.
      now destruct (sticky s !! reg).
  - rewrite lookup_insert_ne by assumption.
    now rewrite bool_decide_eq_false_2 by prop.
Qed.

Lemma reg_setitem_Ok reg key v (s : Session) :
  reg_setitem reg key v s = ((reg_setitem reg key v s).1, Ok tt).
Proof. reflexivity. Qed.

Lemma reg_setitem_frame reg key v (s : Session) :
  only_register_changed reg s (reg_setitem reg key v s).1.
Proof.
  unfold only_register_changed, reg_setitem, modify. simpl.
  repeat split; try reflexivity.
  - intros reg' Hne. now rewrite lookup_insert_ne.
  - intros _. rewrite lookup_insert_eq. eauto.
Qed.

Lemma only_register_changed_refl reg (s : Session) : only_register_changed reg s s.
Proof. unfold only_register_changed. prop. Qed.

Lemma only_register_changed_trans reg (s1 s2 s3 : Session) :
  only_register_changed reg s1 s2 -> only_register_changed reg s2 s3 ->
  only_register_changed reg s1 s3.
Proof.
  unfold only_register_changed.
  intros (A1 & B1 & C1 & D1 & E1 & F1 & G1) (A2 & B2 & C2 & D2 & E2 & F2 & G2).
  repeat split; try congruence; [|prop].
  intros reg' Hne. rewrite A2, A1; auto.
Qed.

Lemma only_register_changed_stored reg (s s' : Session) reg' key :
  only_register_changed reg s s' -> reg' <> reg ->
  stored s' reg' key = stored s reg' key.
Proof. intros (A & _) Hne. unfold stored. now rewrite A. Qed.

Lemma reg_getitem_stored reg key (s : Session) :
  reg_getitem reg key s
  = (s, match stored s reg key with Some v => Ok v | None => Raise (KeyError key) end).
Proof.
  unfold reg_getitem, stored, getitem.
  destruct (sticky s !! reg); simpl; [reflexivity|now rewrite lookup_empty].
Qed.

Lemma reg_contains_stored reg key (s : Session) :
  reg_contains reg key s = (s, Ok (bool_decide (is_Some (stored s reg key)))).
Proof.
  unfold reg_contains, stored.
  destruct (sticky s !! reg); simpl; [reflexivity|now rewrite lookup_empty].
Qed.

Lemma after_length_idem n v : after_length n (after_length n v) = after_length n v.
Proof.
  destruct v as [m|plen data]; simpl; [reflexivity|].
  destruct (negb (plen =? 0) && negb (plen =? n)) eqn:E; simpl; [reflexivity|].
  now rewrite E.
Qed.

Lemma after_length_pair n plen data :
  exists plen' data', after_length n (FPair plen data) = FPair plen' data'
    /\ (plen' = 0 \/ plen' = n).
Proof.
  simpl. destruct (Z.eqb_spec plen 0) as [->|H0]; simpl; [eauto|].
  destruct (Z.eqb_spec plen n) as [->|Hn]; simpl; [eauto|].
  unfold nodata. eauto.
Qed.

(** The invalidation loop: every name it visits ends up holding
    [after_length] of what it held, nothing else changes. *)
Lemma invalidate_spec reg n ps (s : Session) :
  (forall p, p ∈ ps -> exists plen data, stored s reg p = Some (FPair plen data)) ->
  exists s', invalidate reg n ps s = (s', Ok tt)
    /\ only_register_changed reg s s'
    /\ forall key, stored s' reg key
         = if bool_decide (key ∈ ps) then after_length n <$> stored s reg key
           else stored s reg key.
Proof.
  revert s. induction ps as [|p ps IH]; intros s Hwf.
  - exists s. split; [reflexivity|]. split; [apply only_register_changed_refl|].
    intros key. rewrite bool_decide_eq_false_2; [reflexivity|apply not_elem_of_nil].
  - destruct (Hwf p) as (plen & data & Hp); [now left|].
    set (s1 := if negb (plen =? 0) && negb (plen =? n)
               then (reg_setitem reg p nodata s).1 else s).
    assert (H1 : forall key, stored s1 reg key
              = if bool_decide (key = p) then after_length n <$> stored s reg key
                else stored s reg key).
    { intros key. subst s1. case_bool_decide as Hk.
      - subst key. rewrite Hp.
        destruct (negb (plen =? 0) && negb (plen =? n)) eqn:E.
        + rewrite stored_setitem, bool_decide_eq_true_2 by prop.
          simpl. now rewrite E.
        + rewrite Hp. simpl. now rewrite E.
      - destruct (negb (plen =? 0) && negb (plen =? n)); [|reflexivity].
        rewrite stored_setitem. rewrite bool_decide_eq_false_2; [reflexivity|].
        intros [_ ->]. now apply Hk. }
    assert (F1 : only_register_changed reg s s1).
    { subst s1. destruct (negb (plen =? 0) && negb (plen =? n));
        [apply reg_setitem_frame|apply only_register_changed_refl]. }
    destruct (IH s1) as (s' & Hrun & Hframe & Hst).
    { intros q Hq. rewrite H1. destruct (Hwf q) as (ql & qd & Hq'); [now right|].
      rewrite Hq'. case_bool_decide; [|eauto].
      change (after_length n <$> Some (FPair ql qd))
        with (Some (after_length n (FPair ql qd))).
      destruct (after_length_pair n ql qd) as (a & b & -> & _). eauto. }
    exists s'. split; [|split].
    + simpl. unfold bind at 1. rewrite reg_getitem_stored, Hp.
      unfold bind at 1. subst s1.
      destruct (negb (plen =? 0) && negb (plen =? n)); exact Hrun.
    + eapply only_register_changed_trans; eassumption.
    + intros key. rewrite Hst, H1.
      destruct (decide (key = p)) as [->|Hk].
      * rewrite (bool_decide_eq_true_2 (p = p)) by reflexivity.
        rewrite (bool_decide_eq_true_2 (p ∈ p :: ps)) by now left.
        case_bool_decide; [|reflexivity].
        destruct (stored s reg p); simpl; [|reflexivity].
        now rewrite after_length_idem.
      * rewrite (bool_decide_eq_false_2 (key = p)) by assumption.
        destruct (decide (key ∈ ps)) as [Hin|Hin].
        -- rewrite !bool_decide_eq_true_2; [reflexivity|now right|assumption].
        -- rewrite !bool_decide_eq_false_2; [reflexivity| |assumption].
           rewrite elem_of_cons. prop.
Qed.


(** The parameter loop touches only the names it reads, and what it
    stores carries the new length.  This holds whether or not the loop
    ends in an exception. *)
Lemma reg_params_effect reg n params (s s' : Session) r :
  reg_params reg n params s = (s', r) ->
  only_register_changed reg s s'
  /\ forall key,
       (key ∉ map token_str params -> stored s' reg key = stored s reg key)
       /\ (stored s' reg key = stored s reg key
           \/ exists data, stored s' reg key = Some (FPair n data)).
Proof.
  remember (length params) as m eqn:Hm.
  assert (Hle : (length params <= m)%nat) by lia. clear Hm.
  revert params s s' r Hle.
  induction m as [|m IH]; intros params s s' r Hle H.
  - destruct params; [|simpl in Hle; lia].
    injection H as <- <-. split; [apply only_register_changed_refl|].
    intros; split; auto.
  - destruct params as [|param rest].
    { injection H as <- <-. split; [apply only_register_changed_refl|].
      intros; split; auto. }
    simpl in H. unfold bind at 1 in H. rewrite reg_contains_stored in H.
    destruct (bool_decide (is_Some (stored s reg (token_str param)))); simpl in H.
    2:{ injection H as <- <-. split; [apply only_register_changed_refl|].
        intros; split; auto. }
    destruct rest as [|[w|values] rest'].
    { injection H as <- <-. split; [apply only_register_changed_refl|].
      intros; split; auto. }
    { destruct (negb (w =? hexdata_text)%string); injection H as <- <-;
        (split; [apply only_register_changed_refl|]; intros; split; auto). }
    unfold bind at 1, lift in H.
    destruct (decode_hexdata (token_str param) values) as [data|e].
    2:{ injection H as <- <-. split; [apply only_register_changed_refl|].
        intros; split; auto. }
    unfold bind at 1 in H. rewrite reg_setitem_Ok in H.
    apply IH in H as (Hframe & Hkeys); [|simpl in Hle; lia].
    split.
    + eapply only_register_changed_trans; [apply reg_setitem_frame|exact Hframe].
    + intros key. destruct (Hkeys key) as (Hk1 & Hk2).
      pose proof (stored_setitem reg (token_str param) (FPair n data) s reg key) as Hset.
      split.
      * intros Hnot. simpl in Hnot. rewrite !not_elem_of_cons in Hnot.
        destruct Hnot as (Hne & _ & Hrest).
        rewrite Hk1 by assumption. rewrite Hset.
        rewrite bool_decide_eq_false_2; [reflexivity|]. intros [_ ?]. congruence.
      * destruct Hk2 as [Hk2|Hk2]; [|now right].
        rewrite Hk2, Hset. case_bool_decide; [right; eauto|now left].
Qed.

Lemma paramtypes_not_length p : p ∈ paramtypes -> p <> "length".
Proof.
  unfold paramtypes. rewrite !elem_of_cons, elem_of_nil.
  intros [->|[->|[->|[->|[]]]]]; discriminate.
Qed.

(** [cmd_reg] up to the parameter loop: once the bit count is read, the
    length is stored and the invalidation loop has run. *)
Lemma cmd_reg_run cmd t n rest linenum (s : Session) :
  wf_register s cmd ->
  int (token_str t) = Some n ->
  exists s1,
    only_register_changed cmd s s1
    /\ (forall p, p ∈ paramtypes -> stored s1 cmd p = after_length n <$> stored s cmd p)
    /\ cmd_reg cmd (t :: rest) linenum s
       = (let (s', r) := reg_params cmd n rest s1 in
          (s', match r with Ok _ => Ok None | Raise e => Raise e end)).
Proof.
  intros [[d Hd] Hwf] Hint.
  set (s0 := (reg_setitem cmd "length" (FInt n) s).1).
  assert (H0 : forall p, p ∈ paramtypes -> stored s0 cmd p = stored s cmd p).
  { intros p Hp. subst s0. rewrite stored_setitem.
    rewrite bool_decide_eq_false_2; [reflexivity|].
    intros [_ E]. apply paramtypes_not_length in Hp. congruence. }
  destruct (invalidate_spec cmd n paramtypes s0) as (s1 & Hrun & Hframe & Hst).
  { intros p Hp. rewrite H0 by assumption. now apply Hwf. }
  exists s1. split; [|split].
  - eapply only_register_changed_trans; [apply reg_setitem_frame|exact Hframe].
  - intros p Hp. rewrite Hst, bool_decide_eq_true_2 by assumption.
    now rewrite H0.
  - unfold cmd_reg. unfold bind at 1, sticky_getitem. rewrite Hd, Hint.
    unfold bind at 1. rewrite reg_setitem_Ok. fold s0.
    unfold bind at 1. rewrite Hrun.
    unfold bind, ret. destruct (reg_params cmd n rest s1) as [s' [[]|e]]; reflexivity.
Qed.

Lemma cmd_reg_needs_count cmd t rest linenum (s s' : Session) r :
  cmd_reg cmd (t :: rest) linenum s = (s', Ok r) ->
  exists n, int (token_str t) = Some n.
Proof.
  unfold cmd_reg, bind, sticky_getitem. destruct (sticky s !! cmd); [|discriminate].
  destruct (int (token_str t)) as [n|]; [eauto|discriminate].
Qed.

(** The state a register command leaves, whether it ends normally or in
    an exception raised after the bit count was read. *)
Lemma cmd_reg_effect cmd t n rest linenum (s s' : Session) r :
  wf_register s cmd ->
  int (token_str t) = Some n ->
  cmd_reg cmd (t :: rest) linenum s = (s', r) ->
  only_register_changed cmd s s'
  /\ (forall p, p ∈ paramtypes -> p ∉ map token_str rest ->
        stored s' cmd p = after_length n <$> stored s cmd p)
  /\ (forall p, p ∈ paramtypes ->
        exists plen data, stored s' cmd p = Some (FPair plen data)
          /\ (plen = 0 \/ plen = n)).
Proof.
  intros Hwf Hint H.
  destruct (cmd_reg_run cmd t n rest linenum s Hwf Hint) as (s1 & Hframe & Hst & Hrun).
  rewrite Hrun in H. clear Hrun.
  destruct (reg_params cmd n rest s1) as [s2 r2] eqn:Hp.
  apply reg_params_effect in Hp as (Hframe2 & Hkeys).
  injection H as <- _. split; [|split].
  - eapply only_register_changed_trans; eassumption.
  - intros p Hp Hnot. destruct (Hkeys p) as [-> _]; auto.
  - intros p Hp. destruct (Hkeys p) as [_ [->|(data & ->)]]; [|eauto].
    rewrite Hst by assumption.
    destruct Hwf as [_ Hwf]. destruct (Hwf p Hp) as (plen & data & ->).
    change (after_length n <$> Some (FPair plen data))
      with (Some (after_length n (FPair plen data))).
    destruct (after_length_pair n plen data) as (a & b & -> & Hab). eauto.
Qed.


(** A register command never leaves the store ill-formed. *)
Lemma wf_new_session idle : wf (new_session idle).
Proof.
  intros reg Hreg. unfold registers in Hreg.
  rewrite !elem_of_cons, elem_of_nil in Hreg.
  assert (Hp : forall p, p ∈ paramtypes ->
            p = "MASK" \/ p = "SMASK" \/ p = "TDI" \/ p = "TDO").
  { intros p. unfold paramtypes. rewrite !elem_of_cons, elem_of_nil. prop. }
  assert (Hs : sticky (new_session idle) !! reg = Some new_register).
  { unfold new_session. cbn [sticky foldl].
    destruct Hreg as [->|[->|[->|[->|[->|[->|[]]]]]]];
      repeat (rewrite lookup_insert_ne by discriminate); apply lookup_insert_eq. }
  split; [now rewrite Hs|].
  intros p Hin. exists 0, []. unfold stored. rewrite Hs. cbn [mbind option_bind].
  unfold new_register, paramtypes. cbn [foldl].
  destruct (Hp p Hin) as [->|[->|[->| ->]]];
    repeat (rewrite lookup_insert_ne by discriminate); apply lookup_insert_eq.
Qed.

Lemma wf_init (s : Session) : init = Ok s -> wf s.
Proof.
  unfold init. destruct (states !! "IDLE"); [|discriminate].
  intros [= <-]. apply wf_new_session.
Qed.

Lemma wf_only_register_changed reg (s s' : Session) :
  only_register_changed reg s s' ->
  (wf_register s reg -> wf_register s' reg) ->
  wf s -> wf s'.
Proof.
  intros Hframe Hreg Hwf reg' Hin.
  destruct (decide (reg' = reg)) as [->|Hne]; [auto|].
  destruct (Hwf reg' Hin) as [Hs Hp]. split.
  - destruct Hframe as [A _]. now rewrite A.
  - intros p Hpin. rewrite (only_register_changed_stored reg s s') by assumption. auto.
Qed.

Lemma cmd_reg_wf cmd iterparams linenum (s s' : Session) r :
  wf_register s cmd ->
  cmd_reg cmd iterparams linenum s = (s', r) ->
  only_register_changed cmd s s' /\ wf_register s' cmd.
Proof.
  intros Hwf H.
  assert (Hsame : s' = s -> only_register_changed cmd s s' /\ wf_register s' cmd).
  { intros ->. split; [apply only_register_changed_refl|assumption]. }
  destruct Hwf as [[d Hd] Hp].
  destruct iterparams as [|t rest].
  { apply Hsame. unfold cmd_reg, bind, sticky_getitem in H. rewrite Hd in H.
    now injection H. }
  destruct (int (token_str t)) as [n|] eqn:Hint.
  2:{ apply Hsame. unfold cmd_reg, bind, sticky_getitem in H. rewrite Hd, Hint in H.
      now injection H. }
  apply (cmd_reg_effect cmd t n) in H as (Hframe & _ & Hpairs);
    [|split; eauto|assumption].
  split; [assumption|]. split.
  - destruct Hframe as (_ & B & _). apply B. eauto.
  - intros p Hin. destruct (Hpairs p Hin) as (plen & data & Hs & _). eauto.
Qed.


(** ** [cmd_shift] *)

Lemma sticky_getitem_Some reg (s : Session) :
  is_Some (sticky s !! reg) -> sticky_getitem reg s = (s, Ok reg).
Proof. intros [d Hd]. unfold sticky_getitem. now rewrite Hd. Qed.

Lemma cmd_shift_Raise cmd iterparams linenum (s s' : Session) e :
  cmd_reg cmd iterparams linenum s = (s', Raise e) ->
  cmd_shift cmd iterparams linenum s = (s', Raise e).
Proof. intros H. unfold cmd_shift. now apply bind_Raise. Qed.

Lemma cmd_shift_state cmd iterparams linenum (s : Session) :
  (cmd_shift cmd iterparams linenum s).1 = (cmd_reg cmd iterparams linenum s).1.
Proof.
  unfold cmd_shift, bind at 1.
  destruct (cmd_reg cmd iterparams linenum s) as [s' [r|e]]; [|reflexivity].
  simpl. destruct (negb _); [reflexivity|].
  unfold bind, lift, getattr, sticky_getitem.
  destruct (second cmd); [|reflexivity]. simpl.
  repeat match goal with
         | |- context [if ?b then _ else _] => destruct b; simpl
         | |- context [match sticky s' !! ?k with _ => _ end] =>
             destruct (sticky s' !! k); simpl
         end; reflexivity.
Qed.

(** C4: a [SIR] (resp. [SDR]) command whose register phase succeeds
    yields exactly one [Shift] record.  It refers to the register
    dictionaries [HIR], [SIR], [TIR] (resp. [HDR], [SDR], [TDR]) of the
    store the command leaves, of which the header and the trailer are
    those the command found and the data register is the one it has just
    updated, and it carries the [ENDIR] (resp. [ENDDR]) state, which the
    command does not change. *)
Theorem shift_emits_sticky_snapshot
    (cmd : string) (iterparams : list token) (linenum : Z) (s s' : Session)
    (r : option action) :
  wf s ->
  cmd = "SIR" \/ cmd = "SDR" ->
  cmd_reg cmd iterparams linenum s = (s', Ok r) ->
  let header := "H" ++ tail cmd in
  let trailer := "T" ++ tail cmd in
  cmd_shift cmd iterparams linenum s
    = (s', Ok (Some (Shift cmd header cmd trailer
                       (if String.eqb cmd "SIR" then ENDIR s' else ENDDR s') linenum)))
  /\ (is_Some (sticky s' !! header) /\ sticky s' !! header = sticky s !! header)
  /\ (is_Some (sticky s' !! trailer) /\ sticky s' !! trailer = sticky s !! trailer)
  /\ wf_register s' cmd
  /\ ENDIR s' = ENDIR s /\ ENDDR s' = ENDDR s.
Proof.
  intros Hwf Hcmd H header trailer.
  assert (Hin : cmd ∈ registers /\ header ∈ registers /\ trailer ∈ registers
                /\ header <> cmd /\ trailer <> cmd).
  { subst header trailer. unfold registers.
    destruct Hcmd as [-> | ->]; simpl; rewrite !elem_of_cons;
      repeat split; auto 10; discriminate. }
  destruct Hin as (Hc & Hh & Ht & Hhc & Htc).
  destruct (cmd_reg_wf _ _ _ _ _ _ (Hwf cmd Hc) H) as (Hframe & Hreg).
  pose proof Hframe as (Hother & _ & _ & Hdr & Hir & _).
  assert (Hh' : is_Some (sticky s' !! header)).
  { rewrite Hother by assumption. apply (Hwf header Hh). }
  assert (Ht' : is_Some (sticky s' !! trailer)).
  { rewrite Hother by assumption. apply (Hwf trailer Ht). }
  split; [|repeat split; solve [auto | apply Hreg | now rewrite Hother]].
  unfold cmd_shift. rewrite (bind_Ok _ _ _ _ _ H).
  destruct Hreg as [Hcs _].
  destruct Hcmd as [-> | ->]; simpl; unfold bind, lift; simpl;
    subst header trailer; simpl in Hh', Ht';
    rewrite (sticky_getitem_Some _ _ Hh'), (sticky_getitem_Some _ _ Hcs),
      (sticky_getitem_Some _ _ Ht'); reflexivity.
Qed.


(** ** [cmd_reg]: the invalidation rule *)

(** C2, as the code has it: when a register command reads the bit count
    [n], a parameter the command does not name is reset to [(0, '')] if
    its stored length is neither zero nor [n], and is left as it is if
    its stored length is [n] or zero; afterwards every stored length of
    the register is [0] or [n].  A command that consists of the bit count
    alone always succeeds, and [SIR]/[SDR] leave the store as the
    register phase leaves it. *)
Theorem register_length_invalidation
    (cmd : string) (t : token) (n : Z) (rest : list token) (linenum : Z)
    (s s' : Session) (r : result (option action)) :
  wf_register s cmd ->
  int (token_str t) = Some n ->
  cmd_reg cmd (t :: rest) linenum s = (s', r) ->
  (forall p plen data,
      p ∈ paramtypes -> p ∉ map token_str rest ->
      stored s cmd p = Some (FPair plen data) ->
      stored s' cmd p
      = Some (if bool_decide (plen <> 0 /\ plen <> n) then nodata else FPair plen data))
  /\ (forall p, p ∈ paramtypes ->
        exists plen data, stored s' cmd p = Some (FPair plen data)
          /\ (plen = 0 \/ plen = n))
  /\ (rest = [] -> r = Ok None)
  /\ (cmd_shift cmd (t :: rest) linenum s).1 = s'.
Proof.
  intros Hwf Hint H.
  destruct (cmd_reg_effect _ _ _ _ _ _ _ _ Hwf Hint H) as (_ & Hkeep & Hlen).
  split; [|split; [exact Hlen|split]].
  - intros p plen data Hp Hnot Hs. rewrite Hkeep, Hs by assumption. simpl.
    f_equal. destruct (Z.eqb_spec plen 0), (Z.eqb_spec plen n); simpl;
      case_bool_decide; try reflexivity; prop.
  - intros ->.
    destruct (cmd_reg_run cmd t n [] linenum s Hwf Hint) as (s1 & _ & _ & Hrun).
    rewrite Hrun in H. simpl in H. congruence.
  - rewrite cmd_shift_state, H. reflexivity.
Qed.

(** ** [cmd_reg]: hex data *)

Lemma append_empty_r x : x ++ "" = x.
Proof.
  induction x as [|c x IH]; [reflexivity|].
  change (String c (x ++ "") = String c x). now rewrite IH.
Qed.

Lemma join_cons x l : join (x :: l) = x ++ join l.
Proof.
  unfold join. destruct l; [|reflexivity].
  simpl. now rewrite append_empty_r.
Qed.

Lemma length_append a b : String.length (a ++ b) = (String.length a + String.length b)%nat.
Proof. induction a as [|c a IH]; simpl; [reflexivity|now rewrite IH]. Qed.

Lemma total_len_join values : total_len values = String.length (join values).
Proof.
  induction values as [|x l IH]; [reflexivity|].
  rewrite join_cons, length_append. simpl. now rewrite IH.
Qed.

Lemma pad_values_join values :
  join (pad_values values)
  = if Nat.odd (String.length (join values)) then "0" ++ join values else join values.
Proof.
  unfold pad_values. rewrite total_len_join.
  destruct (Nat.odd _); [apply join_cons|reflexivity].
Qed.

Lemma hexpairs_bad c s :
  In c (chars s) -> is_hex c = false -> hexpairs s = None.
Proof.
  intros Hin Hc.
  assert (Hv : hexval c = None).
  { unfold is_hex in Hc. destruct (hexval c); [discriminate|reflexivity]. }
  assert (G : forall s, (In c (chars s) -> hexpairs s = None)
              /\ (forall a, In c (chars (String a s)) -> hexpairs (String a s) = None)).
  { clear s Hin. induction s as [|b s [IH1 IH2]].
    - split; [intros []|reflexivity].
    - split; [apply IH2|].
      intros a Ha. simpl in Ha. simpl.
      destruct Ha as [->|[->|Ha]].
      + now rewrite Hv.
      + rewrite Hv. now destruct (hexval a).
      + rewrite (IH1 Ha). destruct (hexval a), (hexval b); reflexivity. }
  now apply G.
Qed.

Lemma decode_hexdata_bad param values c :
  In c (chars (join values)) -> is_hex c = false ->
  decode_hexdata param values
  = Raise (svf_error "Invalid (<hex data>) for parameter %s" [AStr param]).
Proof.
  intros Hin Hc. unfold decode_hexdata, unhexlify.
  destruct (Nat.odd (String.length (join (pad_values values)))); [reflexivity|].
  rewrite (hexpairs_bad c); [reflexivity| |assumption].
  rewrite pad_values_join. destruct (Nat.odd _); [|assumption].
  rewrite chars_append, in_app_iff. now right.
Qed.

Lemma decode_hexdata_F param values :
  join values = "F" -> decode_hexdata param values = Ok [Init.Byte.x0f].
Proof.
  intros H. unfold decode_hexdata. rewrite pad_values_join, H. reflexivity.
Qed.


Lemma reg_params_hexdata reg n p values rest (s : Session) :
  is_Some (stored s reg p) ->
  reg_params reg n (Word p :: HexData values :: rest) s
  = match decode_hexdata p values with
    | Ok data => reg_params reg n rest (reg_setitem reg p (FPair n data) s).1
    | Raise e => (s, Raise e)
    end.
Proof.
  intros Hp. simpl. unfold bind at 1. rewrite reg_contains_stored.
  rewrite bool_decide_eq_true_2 by assumption. simpl.
  unfold bind at 1, lift. destruct (decode_hexdata p values); reflexivity.
Qed.

Lemma hexpairs_good s :
  Nat.odd (String.length s) = false ->
  Forall (fun c => is_hex c = true) (chars s) ->
  exists data, hexpairs s = Some data.
Proof.
  assert (G : forall m s, (String.length s <= m)%nat ->
            Nat.odd (String.length s) = false ->
            Forall (fun c => is_hex c = true) (chars s) ->
            exists data, hexpairs s = Some data).
  { clear s. induction m as [|m IH]; intros s Hle Hodd Hall.
    { destruct s; [exists []; reflexivity|simpl in Hle; lia]. }
    destruct s as [|a [|b r]]; [exists []; reflexivity|discriminate Hodd|].
    simpl in Hall. inversion Hall as [|? ? Ha Hall']; subst.
    inversion Hall' as [|? ? Hb Hr]; subst.
    destruct (IH r) as [data Hdata]; [simpl in Hle; lia|exact Hodd|exact Hr|].
    unfold is_hex in Ha, Hb. cbn [hexpairs].
    destruct (hexval a) as [hi|]; [|discriminate Ha].
    destruct (hexval b) as [lo|]; [|discriminate Hb].
    rewrite Hdata. eexists. reflexivity. }
  now apply (G (String.length s)).
Qed.

Lemma decode_hexdata_good param values :
  Forall (fun c => is_hex c = true) (chars (join values)) ->
  exists data,
    hexpairs (if Nat.odd (String.length (join values)) then "0" ++ join values
              else join values) = Some data
    /\ decode_hexdata param values = Ok data.
Proof.
  intros Hall. unfold decode_hexdata, unhexlify. rewrite pad_values_join.
  set (padded := if Nat.odd (String.length (join values)) then "0" ++ join values
                 else join values).
  assert (Heven : Nat.odd (String.length padded) = false).
  { unfold padded. destruct (Nat.odd (String.length (join values))) eqn:Hodd;
      [|exact Hodd].
    change ("0" ++ join values) with (String "0" (join values)).
    cbn [String.length]. rewrite Nat.odd_succ, <- Nat.negb_odd, Hodd. reflexivity. }
  assert (Hhex : Forall (fun c => is_hex c = true) (chars padded)).
  { unfold padded. destruct (Nat.odd (String.length (join values))); [|exact Hall].
    change ("0" ++ join values) with (String "0" (join values)).
    constructor; [reflexivity|exact Hall]. }
  destruct (hexpairs_good padded Heven Hhex) as [data Hdata].
  exists data. rewrite Heven, Hdata. split; reflexivity.
Qed.

(** C9: the sub-tokens of a hex block are concatenated and, when the
    number of digits is odd, one ["0"] is put in front before decoding:
    whenever all characters are hexadecimal digits the command succeeds
    and stores the bytes of the digit string, padded in this way.  Digits
    that concatenate to ["F"] are stored as the single byte [0x0F]; a
    character that is not a hexadecimal digit makes the command fail with
    an [SvfError]. *)
Theorem hexdata_padding_and_errors
    (cmd : string) (t : token) (n : Z) (p : string) (values : list string)
    (rest : list token) (linenum : Z) (s : Session) :
  wf_register s cmd ->
  int (token_str t) = Some n ->
  p ∈ paramtypes ->
  join (pad_values values)
    = (if Nat.odd (String.length (join values)) then "0" ++ join values
       else join values)
  /\ (Forall (fun c => is_hex c = true) (chars (join values)) ->
        exists data s',
          hexpairs (if Nat.odd (String.length (join values)) then "0" ++ join values
                    else join values) = Some data
          /\ decode_hexdata p values = Ok data
          /\ cmd_reg cmd [t; Word p; HexData values] linenum s = (s', Ok None)
          /\ stored s' cmd p = Some (FPair n data))
  /\ (forall data, decode_hexdata p values = Ok data ->
        exists s', cmd_reg cmd [t; Word p; HexData values] linenum s = (s', Ok None)
          /\ stored s' cmd p = Some (FPair n data))
  /\ (join values = "F" ->
        decode_hexdata p values = Ok [Init.Byte.x0f]
        /\ exists s', cmd_reg cmd [t; Word p; HexData values] linenum s = (s', Ok None)
             /\ stored s' cmd p = Some (FPair n [Init.Byte.x0f]))
  /\ (forall c, In c (chars (join values)) -> is_hex c = false ->
        exists s', cmd_reg cmd (t :: Word p :: HexData values :: rest) linenum s
          = (s', Raise (svf_error "Invalid (<hex data>) for parameter %s" [AStr p]))).
Proof.
  intros Hwf Hint Hp.
  split; [apply pad_values_join|].
  assert (Hrun : forall rest', exists s1,
    is_Some (stored s1 cmd p)
    /\ cmd_reg cmd (t :: rest') linenum s
       = (let (s', r) := reg_params cmd n rest' s1 in
          (s', match r with Ok _ => Ok None | Raise e => Raise e end))).
  { intros rest'.
    destruct (cmd_reg_run cmd t n rest' linenum s Hwf Hint) as (s1 & _ & Hst & Hrun).
    exists s1. split; [|exact Hrun].
    rewrite Hst by assumption. destruct Hwf as [_ Hwf].
    destruct (Hwf p Hp) as (plen & data & ->). simpl. eauto. }
  assert (Hstore : forall data, decode_hexdata p values = Ok data ->
    exists s', cmd_reg cmd [t; Word p; HexData values] linenum s = (s', Ok None)
      /\ stored s' cmd p = Some (FPair n data)).
  { intros data Hdec. destruct (Hrun [Word p; HexData values]) as (s1 & Hs1 & ->).
    rewrite reg_params_hexdata, Hdec by assumption.
    change (reg_params cmd n [] (reg_setitem cmd p (FPair n data) s1).1)
      with ((reg_setitem cmd p (FPair n data) s1).1, @Ok unit tt).
    eexists. split; [reflexivity|].
    rewrite stored_setitem. now rewrite bool_decide_eq_true_2. }
  split; [|split; [|split]].
  - intros Hall. destruct (decode_hexdata_good p values Hall) as (data & Hpairs & Hdec).
    destruct (Hstore data Hdec) as (s' & Hcmd & Hst).
    exists data, s'. repeat split; assumption.
  - exact Hstore.
  - intros HF. split; [now apply decode_hexdata_F|].
    apply Hstore. now apply decode_hexdata_F.
  - intros c Hin Hc. destruct (Hrun (Word p :: HexData values :: rest)) as (s1 & Hs1 & ->).
    rewrite reg_params_hexdata by assumption.
    rewrite (decode_hexdata_bad p values c) by assumption. eauto.
Qed.

Example unhexlify_0F : unhexlify "0F" = Ok [Init.Byte.x0f].
Proof. reflexivity. Qed.

Example decode_split_digits : decode_hexdata "TDI" ["A"; "BC"] = Ok [Init.Byte.x0a; Init.Byte.xbc].
Proof. reflexivity. Qed.

Example decode_not_hex :
  decode_hexdata "TDI" ["FG"]
  = Raise (svf_error "Invalid (<hex data>) for parameter %s" [AStr "TDI"]).
Proof. reflexivity. Qed.


(** ** The store invariant along a parse *)

Lemma wf_same_sticky (s s' : Session) : sticky s' = sticky s -> wf s -> wf s'.
Proof.
  intros E Hwf reg Hin. destruct (Hwf reg Hin) as [A B].
  unfold wf_register, stored in *. rewrite E. auto.
Qed.

Lemma setattr_sticky name v (s : Session) : sticky (setattr name v s).1 = sticky s.
Proof.
  unfold setattr, modify. simpl.
  repeat match goal with |- context [if ?b then _ else _] => destruct b end;
    reflexivity.
Qed.

(** [cmd_runtest] never changes the instance: the only assignments to
    [RUNSTATE] and [ENDSTATE] sit behind the unbound name. *)
Lemma runtest_step_state param l (s : Session) : (runtest_step param l s).1 = s.
Proof.
  unfold runtest_step, bind, global_states, raise, ret.
  repeat match goal with
         | |- context [match ?x with _ => _ end] => destruct x; simpl
         end; reflexivity.
Qed.

Lemma runtest_loop_state iterparams l (s : Session) :
  (runtest_loop iterparams l s).1 = s.
Proof.
  revert l. induction iterparams as [|param rest IH]; intros l; [reflexivity|].
  simpl. unfold bind. pose proof (runtest_step_state param l s) as H.
  destruct (runtest_step param l s) as [s1 [l1|e]]; simpl in H; subst s1;
    [apply IH|reflexivity].
Qed.

Lemma cmd_runtest_state cmd iterparams linenum (s : Session) :
  (cmd_runtest cmd iterparams linenum s).1 = s.
Proof.
  unfold cmd_runtest, bind. pose proof (runtest_loop_state iterparams runtest_start s) as H.
  destruct (runtest_loop iterparams runtest_start s) as [s1 [l1|e]]; simpl in H; subst s1;
    reflexivity.
Qed.

Lemma cmd_enddrir_sticky cmd iterparams linenum (s : Session) :
  sticky (cmd_enddrir cmd iterparams linenum s).1 = sticky s.
Proof.
  unfold cmd_enddrir. destruct iterparams as [|state [|b rest]]; [reflexivity| |].
  - destruct (negb _); [reflexivity|]. unfold bind, lift.
    destruct (getitem states (token_str state)); [|reflexivity].
    apply setattr_sticky.
  - destruct (negb _); reflexivity.
Qed.

Lemma cmd_frequency_sticky cmd iterparams linenum (s : Session) :
  sticky (cmd_frequency cmd iterparams linenum s).1 = sticky s.
Proof.
  unfold cmd_frequency. destruct iterparams as [|freq rest]; [reflexivity|].
  destruct (float (token_str freq)); [|reflexivity].
  destruct rest as [|hz [|x rest]]; [reflexivity| |reflexivity].
  destruct (negb _); reflexivity.
Qed.

Lemma cmd_state_state cmd iterparams linenum (s : Session) :
  (cmd_state cmd iterparams linenum s).1 = s.
Proof.
  unfold cmd_state, bind, lift. destruct (state_loop iterparams []); [|reflexivity].
  destruct (last iterparams); [|reflexivity]. destruct (negb _); reflexivity.
Qed.

Lemma cmd_trst_state cmd iterparams linenum (s : Session) :
  (cmd_trst cmd iterparams linenum s).1 = s.
Proof.
  unfold cmd_trst. destruct iterparams as [|param [|x rest]]; try reflexivity.
  unfold bind, lift. destruct (getitem valid_trst (token_str param)); reflexivity.
Qed.

Lemma cmd_reg_keeps_wf cmd iterparams linenum (s : Session) :
  cmd ∈ registers -> wf s -> wf (cmd_reg cmd iterparams linenum s).1.
Proof.
  intros Hin Hwf.
  destruct (cmd_reg cmd iterparams linenum s) as [s' r] eqn:H.
  apply (cmd_reg_wf _ _ _ _ _ _ (Hwf cmd Hin)) in H as [Hframe Hreg].
  eapply wf_only_register_changed; eauto.
Qed.

Lemma run_command_keeps_wf params linenum (s : Session) :
  wf s -> wf (run_command params linenum s).1.
Proof.
  intros Hwf. unfold run_command. destruct params as [|c iterparams]; [assumption|].
  destruct (cmds !! token_str c) as [proc|] eqn:Hproc; [|assumption].
  unfold cmds in Hproc. simpl in Hproc.
  repeat (apply lookup_insert_Some in Hproc as [[<- <-]|[_ Hproc]];
          [|]); try (rewrite lookup_empty in Hproc; discriminate).
  all: try (rewrite cmd_shift_state; apply cmd_reg_keeps_wf; [|assumption];
            unfold registers; rewrite !elem_of_cons; prop).
  all: try (apply cmd_reg_keeps_wf; [|assumption];
            unfold registers; rewrite !elem_of_cons; prop).
  all: try (eapply wf_same_sticky; [|eassumption];
            first [apply cmd_enddrir_sticky | apply cmd_frequency_sticky]).
  all: first [now rewrite cmd_runtest_state | now rewrite cmd_state_state
             | now rewrite cmd_trst_state].
Qed.

(** Every state [parse] leaves, starting from a freshly initialised
    instance, satisfies the store invariant. *)
Lemma parse_loop_keeps_wf fname at_cmd commands pending (s : Session) :
  wf s -> wf (parse_loop fname at_cmd commands pending s).1.
Proof.
  revert at_cmd s. induction commands as [|[params linenum] rest IH];
    intros at_cmd s Hwf; [assumption|].
  destruct params as [|c iterparams]; [assumption|].
  cbn [parse_loop].
  pose proof (run_command_keeps_wf (c :: iterparams) linenum s Hwf) as H.
  destruct (run_command (c :: iterparams) linenum s) as [s' [value|e]];
    [|assumption].
  simpl in H.
  specialize (IH (Some (linenum, token_str c)) s' H).
  destruct (parse_loop fname (Some (linenum, token_str c)) rest pending s')
    as [s'' [ys e]]. assumption.
Qed.

Lemma parse_keeps_wf fname tokens (s : Session) :
  wf s -> wf (parse fname tokens s).1.
Proof.
  intros Hwf. unfold parse. destruct (getcmds tokens) as [commands pending].
  now apply parse_loop_keeps_wf.
Qed.

(** * Further properties of the interpreters *)

(** ** [cmd_frequency] *)

(** X9: [FREQUENCY] succeeds in exactly two shapes, no parameter or a
    number followed by [HZ]; it then stores the value (or [None]) in
    [FREQUENCY], yields a record carrying it, and changes nothing else.
    Every other parameter list is an [SvfError] that leaves the instance
    as it was. *)
Theorem cmd_frequency_outcomes
    (cmd : string) (iterparams : list token) (linenum : Z) (s s' : Session)
    (r : result (option action)) :
  cmd_frequency cmd iterparams linenum s = (s', r) ->
  ((exists v,
      r = Ok (Some (Frequency v linenum))
      /\ FREQUENCY s' = v
      /\ sticky s' = sticky s /\ ENDDR s' = ENDDR s /\ ENDIR s' = ENDIR s
      /\ RUNSTATE s' = RUNSTATE s /\ ENDSTATE s' = ENDSTATE s
      /\ (iterparams = [] /\ v = None
          \/ exists f hz, iterparams = [f; hz] /\ token_str hz = "HZ"
               /\ float (token_str f) = v /\ v <> None))
   \/ (exists e, r = Raise e /\ is_SvfError e = true /\ s' = s))
  /\ (iterparams = [] ->
        r = Ok (Some (Frequency None linenum)) /\ FREQUENCY s' = None)
  /\ (forall f hz v,
        iterparams = [f; hz] -> token_str hz = "HZ" -> float (token_str f) = Some v ->
        r = Ok (Some (Frequency (Some v) linenum)) /\ FREQUENCY s' = Some v)
  /\ (iterparams <> [] ->
        (forall f hz, iterparams = [f; hz] ->
           token_str hz <> "HZ" \/ float (token_str f) = None) ->
        exists e, r = Raise e /\ is_SvfError e = true /\ s' = s).
Proof.
  unfold cmd_frequency. destruct iterparams as [|f rest].
  { intros [= <- <-]. refine (conj _ (conj _ (conj _ _))).
    - left. exists None. repeat split. now left.
    - intros _. split; reflexivity.
    - intros f1 hz1 v1 [=].
    - intros H. now contradiction H. }
  destruct (float (token_str f)) as [v|] eqn:Hf.
  2:{ intros [= <- <-]. refine (conj _ (conj _ (conj _ _))).
      - right. eexists. repeat split.
      - intros [=].
      - intros f1 hz1 v1 [= -> ->] _ Hv. rewrite Hv in Hf. discriminate Hf.
      - intros _ _. eexists. repeat split. }
  destruct rest as [|hz [|x rest]].
  - intros [= <- <-]. refine (conj _ (conj _ (conj _ _))).
    + right. eexists. repeat split.
    + intros [=].
    + intros f1 hz1 v1 [=].
    + intros _ _. eexists. repeat split.
  - destruct (String.eqb_spec (token_str hz) "HZ") as [Hz|Hz]; simpl.
    + intros [= <- <-]. refine (conj _ (conj _ (conj _ _))).
      * left. exists (Some v). repeat split.
        right. exists f, hz. repeat split; [assumption|assumption|discriminate].
      * intros [=].
      * intros f1 hz1 v1 [= <- <-] _ Hv. rewrite Hv in Hf. injection Hf as <-.
        split; reflexivity.
      * intros _ H. destruct (H f hz eq_refl) as [H'|H'];
          [contradiction|rewrite H' in Hf; discriminate Hf].
    + intros [= <- <-]. refine (conj _ (conj _ (conj _ _))).
      * right. eexists. repeat split.
      * intros [=].
      * intros f1 hz1 v1 [= <- <-] Hz'. contradiction.
      * intros _ _. eexists. repeat split.
  - intros [= <- <-]. refine (conj _ (conj _ (conj _ _))).
    + right. eexists. repeat split.
    + intros [=].
    + intros f1 hz1 v1 [=].
    + intros _ _. eexists. repeat split.
Qed.

(** ** [cmd_trst] *)

(** X10: [TRST] never changes the instance.  It succeeds exactly when it
    has one parameter that is a key of the table, and the value of the
    record is then between 0 and 3; with any other number of parameters it
    raises [SvfError]. *)
Theorem cmd_trst_outcomes
    (cmd : string) (iterparams : list token) (linenum : Z) (s s' : Session)
    (r : result (option action)) :
  cmd_trst cmd iterparams linenum s = (s', r) ->
  s' = s
  /\ (forall v, r = Ok v ->
        exists param value, iterparams = [param]
          /\ valid_trst !! token_str param = Some value
          /\ v = Some (Trst value linenum) /\ 0 <= value <= 3)
  /\ (length iterparams <> 1%nat ->
        r = Raise (svf_error "Expected a single parameter" [])).
Proof.
  intros H. pose proof (cmd_trst_state cmd iterparams linenum s) as Hs.
  rewrite H in Hs. simpl in Hs. subst s'. split; [reflexivity|]. split.
  - intros v ->. destruct iterparams as [|param [|x rest]]; try discriminate H.
    unfold cmd_trst, bind, lift, getitem in H.
    destruct (valid_trst !! token_str param) as [value|] eqn:Hv; [|discriminate H].
    injection H as <-. exists param, value. repeat split; try assumption.
    all: unfold valid_trst in Hv; simpl in Hv;
      repeat (apply lookup_insert_Some in Hv as [[_ <-]|[_ Hv]]; [lia|]);
      now rewrite lookup_empty in Hv.
  - intros Hlen. rewrite cmd_trst_count in H by assumption. congruence.
Qed.

(** ** [cmd_state] *)

Lemma state_loop_Ok iterparams : forall acc vs,
  state_loop iterparams acc = Ok vs ->
  exists ws, vs = (acc ++ ws)%list /\ Forall2 resolves iterparams ws.
Proof.
  induction iterparams as [|t ts IH]; intros acc vs H; simpl in H.
  - injection H as <-. exists []. split; [now rewrite app_nil_r|constructor].
  - destruct (states !! token_str t) as [v|] eqn:Hv; [|discriminate H].
    apply IH in H as (ws & -> & Hws). exists (v :: ws).
    split; [now rewrite <- app_assoc|]. now constructor.
Qed.

(** X11: [STATE] never changes the instance.  When it succeeds, the record
    lists the table entry of every parameter, in order, and the last
    parameter is a stable state; without any parameter it raises
    [UnboundLocalError], not [SvfError]. *)
Theorem cmd_state_outcomes
    (cmd : string) (iterparams : list token) (linenum : Z) (s s' : Session)
    (r : result (option action)) :
  cmd_state cmd iterparams linenum s = (s', r) ->
  s' = s
  /\ (forall v, r = Ok v ->
        exists vs final, v = Some (State vs linenum)
          /\ Forall2 resolves iterparams vs
          /\ last iterparams = Some final /\ token_str final ∈ stable)
  /\ (iterparams = [] -> r = Raise (UnboundLocalError "state")).
Proof.
  intros H. pose proof (cmd_state_state cmd iterparams linenum s) as Hs.
  rewrite H in Hs. simpl in Hs. subst s'. split; [reflexivity|]. split.
  - intros v ->. unfold cmd_state, bind, lift in H.
    destruct (state_loop iterparams []) as [vs|e] eqn:Hloop; [|discriminate H].
    apply state_loop_Ok in Hloop as (ws & -> & Hws).
    destruct (last iterparams) as [final|]; [|discriminate H].
    case_bool_decide as Hst; [|discriminate H].
    simpl in H. injection H as <-. exists ws, final. repeat split; assumption.
  - intros ->. cbv in H. congruence.
Qed.

(** ** [cmd_enddrir] *)

(** X12: [ENDIR] and [ENDDR] are independent.  [ENDIR] succeeds only with
    one stable state that the table knows; it then sets [ENDIR] to the
    table entry, yields no record and leaves [ENDDR], the run and end
    states, the frequency and the registers alone, and symmetrically for
    [ENDDR].  A failing command leaves the instance unchanged. *)
Theorem cmd_enddrir_outcomes
    (cmd : string) (iterparams : list token) (linenum : Z) (s s' : Session)
    (r : result (option action)) :
  cmd = "ENDIR" \/ cmd = "ENDDR" ->
  cmd_enddrir cmd iterparams linenum s = (s', r) ->
  (exists state v,
      iterparams = [state] /\ token_str state ∈ stable
      /\ states !! token_str state = Some v
      /\ r = Ok None
      /\ (if String.eqb cmd "ENDIR" then ENDIR s' = v /\ ENDDR s' = ENDDR s
          else ENDDR s' = v /\ ENDIR s' = ENDIR s)
      /\ sticky s' = sticky s /\ FREQUENCY s' = FREQUENCY s
      /\ RUNSTATE s' = RUNSTATE s /\ ENDSTATE s' = ENDSTATE s)
  \/ (exists e, r = Raise e /\ s' = s).
Proof.
  intros Hcmd. unfold cmd_enddrir.
  destruct iterparams as [|state rest]; [intros [= <- <-]; right; eauto|].
  case_bool_decide as Hst; simpl; [|intros [= <- <-]; right; eauto].
  destruct rest as [|x rest]; [|intros [= <- <-]; right; eauto].
  unfold bind, lift, getitem.
  destruct (states !! token_str state) as [v|] eqn:Hv; [|intros [= <- <-]; right; eauto].
  intros H. left. exists state, v.
  destruct Hcmd as [-> | ->]; injection H as <- <-; repeat split; assumption.
Qed.

(** ** [cmd_reg]: failures *)

(** X13: a register command without a usable bit count changes nothing.
    If the register exists and the first parameter is missing or is not an
    integer, the command raises the [SvfError] about the bit count and the
    instance is as before; called with a name that is no register, it
    raises [KeyError]. *)
Theorem cmd_reg_bad_count
    (cmd : string) (iterparams : list token) (linenum : Z) (s : Session) :
  (sticky s !! cmd = None ->
   cmd_reg cmd iterparams linenum s = (s, Raise (KeyError cmd)))
  /\ (is_Some (sticky s !! cmd) ->
      match iterparams with
      | [] => True
      | t :: _ => int (token_str t) = None
      end ->
      cmd_reg cmd iterparams linenum s
      = (s, Raise (svf_error "Missing or invalid bit count" []))).
Proof.
  unfold cmd_reg, bind, sticky_getitem. split.
  - now intros ->.
  - intros [d ->] H. destruct iterparams as [|t rest]; [reflexivity|]. now rewrite H.
Qed.

(** [cmd_reg] up to the parameter loop, with the state the loop starts
    from described in full. *)
Lemma cmd_reg_prepare cmd t n (s : Session) :
  wf_register s cmd ->
  int (token_str t) = Some n ->
  exists s1,
    only_register_changed cmd s s1
    /\ (forall key, stored s1 cmd key
          = if String.eqb key "length" then Some (FInt n)
            else if bool_decide (key ∈ paramtypes) then after_length n <$> stored s cmd key
            else stored s cmd key)
    /\ forall rest linenum,
         cmd_reg cmd (t :: rest) linenum s
         = (let (s', r) := reg_params cmd n rest s1 in
            (s', match r with Ok _ => Ok None | Raise e => Raise e end)).
Proof.
  intros [[d Hd] Hwf] Hint.
  set (s0 := (reg_setitem cmd "length" (FInt n) s).1).
  assert (H0 : forall key, stored s0 cmd key
            = if String.eqb key "length" then Some (FInt n) else stored s cmd key).
  { intros key. subst s0. rewrite stored_setitem.
    destruct (String.eqb_spec key "length") as [->|Hne].
    - now rewrite bool_decide_eq_true_2.
    - rewrite bool_decide_eq_false_2; [reflexivity|]. intros [_ E]. congruence. }
  destruct (invalidate_spec cmd n paramtypes s0) as (s1 & Hrun & Hframe & Hst).
  { intros p Hp. rewrite H0.
    destruct (String.eqb_spec p "length") as [->|_];
      [now apply paramtypes_not_length in Hp|now apply Hwf]. }
  exists s1. split; [|split].
  - eapply only_register_changed_trans; [apply reg_setitem_frame|exact Hframe].
  - intros key. rewrite Hst, H0.
    destruct (String.eqb_spec key "length") as [->|Hne]; [|reflexivity].
    rewrite bool_decide_eq_false_2; [reflexivity|].
    intros Hin. now apply paramtypes_not_length in Hin.
  - intros rest linenum.
    unfold cmd_reg. unfold bind at 1, sticky_getitem. rewrite Hd, Hint.
    unfold bind at 1. rewrite reg_setitem_Ok. fold s0.
    unfold bind at 1. rewrite Hrun.
    unfold bind, ret. destruct (reg_params cmd n rest s1) as [s' [[]|e]]; reflexivity.
Qed.

(** X14: a register command that fails after the bit count was read has
    already changed the store.  When the first parameter name is unknown,
    or is a known name not followed by a hex block, the command raises
    [SvfError], and the register holds the new length with every stale
    value dropped, as after a successful command. *)
Theorem cmd_reg_fails_after_update
    (cmd : string) (t p : token) (n : Z) (rest : list token) (linenum : Z)
    (s : Session) :
  wf_register s cmd ->
  int (token_str t) = Some n ->
  (stored s cmd (token_str p) = None /\ token_str p <> "length")
  \/ (token_str p ∈ paramtypes
      /\ match rest with
         | [] => True
         | Word w :: _ => w <> hexdata_text
         | HexData _ :: _ => False
         end) ->
  exists s' e,
    cmd_reg cmd (t :: p :: rest) linenum s = (s', Raise e)
    /\ is_SvfError e = true
    /\ stored s' cmd "length" = Some (FInt n)
    /\ forall q, q ∈ paramtypes -> stored s' cmd q = after_length n <$> stored s cmd q.
Proof.
  intros Hwf Hint Hbad.
  destruct (cmd_reg_prepare cmd t n s Hwf Hint) as (s1 & _ & Hst & Hrun).
  assert (Hq : forall q, q ∈ paramtypes -> stored s1 cmd q = after_length n <$> stored s cmd q).
  { intros q Hin. rewrite Hst. rewrite bool_decide_eq_true_2 by assumption.
    destruct (String.eqb_spec q "length") as [->|_]; [|reflexivity].
    now apply paramtypes_not_length in Hin. }
  assert (Hl : stored s1 cmd "length" = Some (FInt n)) by now rewrite Hst.
  rewrite Hrun. cbn [reg_params]. unfold bind at 1. rewrite reg_contains_stored.
  destruct Hbad as [[Hnone Hne]|[Hin Hrest]].
  - assert (E : stored s1 cmd (token_str p) = None).
    { rewrite Hst. apply String.eqb_neq in Hne. rewrite Hne.
      case_bool_decide as Hin; [|assumption].
      destruct Hwf as [_ Hwf]. destruct (Hwf _ Hin) as (a & b & Hs). congruence. }
    rewrite E. rewrite bool_decide_eq_false_2 by (intros [? ?]; discriminate).
    simpl. eauto 10.
  - rewrite bool_decide_eq_true_2.
    2:{ rewrite Hq by assumption. destruct Hwf as [_ Hwf].
        destruct (Hwf _ Hin) as (a & b & ->). simpl. eauto. }
    simpl. destruct rest as [|[w|values] rest']; [eauto 10| |contradiction].
    apply String.eqb_neq in Hrest. rewrite Hrest. simpl. eauto 10.
Qed.

(** X15: a register command changes nothing but its own register.  The
    other five register dictionaries, the frequency, both end states and
    the run and end states are as before, and the store invariant still
    holds, whether the command succeeds or fails. *)
Theorem cmd_reg_touches_own_register
    (cmd : string) (iterparams : list token) (linenum : Z) (s s' : Session)
    (r : result (option action)) :
  wf s ->
  cmd ∈ registers ->
  cmd_reg cmd iterparams linenum s = (s', r) ->
  (forall reg, reg <> cmd -> sticky s' !! reg = sticky s !! reg)
  /\ FREQUENCY s' = FREQUENCY s /\ ENDDR s' = ENDDR s /\ ENDIR s' = ENDIR s
  /\ RUNSTATE s' = RUNSTATE s /\ ENDSTATE s' = ENDSTATE s
  /\ wf s'.
Proof.
  intros Hwf Hin H.
  destruct (cmd_reg_wf _ _ _ _ _ _ (Hwf cmd Hin) H) as [Hframe Hreg].
  pose proof Hframe as (A & _ & B & C & D & E & F).
  refine (conj A (conj B (conj C (conj D (conj E (conj F _)))))).
  eapply wf_only_register_changed; eauto.
Qed.

(** ** [cmd_reg]: what a successful command stores *)

Lemma reg_params_assigned reg n params : forall (s s' : Session) u,
  reg_params reg n params s = (s', Ok u) ->
  forall key, stored s' reg key
    = match assigned params key with
      | Some data => Some (FPair n data)
      | None => stored s reg key
      end.
Proof.
  remember (length params) as m eqn:Hm.
  assert (Hle : (length params <= m)%nat) by lia. clear Hm.
  revert params Hle. induction m as [|m IH]; intros params Hle s s' u H key.
  { destruct params; [|simpl in Hle; lia]. now injection H as <- _. }
  destruct params as [|param rest]; [now injection H as <- _|].
  cbn [reg_params] in H. unfold bind at 1 in H. rewrite reg_contains_stored in H.
  destruct (bool_decide (is_Some (stored s reg (token_str param)))); [|discriminate H].
  cbn [negb] in H. cbv iota in H.
  destruct rest as [|[w|values] rest']; [discriminate H| |].
  { destruct (negb (w =? hexdata_text)%string); discriminate H. }
  unfold bind at 1, lift in H. cbn [assigned].
  destruct (decode_hexdata (token_str param) values) as [data|e]; [|discriminate H].
  unfold bind at 1 in H. rewrite reg_setitem_Ok in H.
  apply IH with (key := key) in H; [|simpl in Hle; lia].
  rewrite H. destruct (assigned rest' key); [reflexivity|].
  rewrite stored_setitem.
  destruct (String.eqb_spec (token_str param) key) as [E|E].
  - now rewrite bool_decide_eq_true_2.
  - rewrite bool_decide_eq_false_2; [reflexivity|]. intros [_ ?]. contradiction.
Qed.

Lemma reg_params_transfer reg n params : forall (sa sa' sb : Session) u,
  (forall key, is_Some (stored sa reg key) -> is_Some (stored sb reg key)) ->
  reg_params reg n params sa = (sa', Ok u) ->
  exists sb', reg_params reg n params sb = (sb', Ok tt).
Proof.
  remember (length params) as m eqn:Hm.
  assert (Hle : (length params <= m)%nat) by lia. clear Hm.
  revert params Hle. induction m as [|m IH]; intros params Hle sa sa' sb u Hkeys H.
  { destruct params; [|simpl in Hle; lia]. eexists. reflexivity. }
  destruct params as [|param rest]; [eexists; reflexivity|].
  cbn [reg_params] in H |- *. unfold bind at 1 in H. unfold bind at 1.
  rewrite reg_contains_stored in H. rewrite reg_contains_stored.
  case_bool_decide as Hk; [|discriminate H].
  rewrite bool_decide_eq_true_2 by now apply Hkeys.
  cbn [negb] in H |- *. cbv iota in H |- *.
  destruct rest as [|[w|values] rest']; [discriminate H| |].
  { destruct (negb (w =? hexdata_text)%string); discriminate H. }
  unfold bind at 1, lift in H. unfold bind at 1, lift.
  destruct (decode_hexdata (token_str param) values) as [data|e]; [|discriminate H].
  unfold bind at 1 in H. unfold bind at 1. rewrite reg_setitem_Ok in H |- *.
  eapply IH; [simpl in Hle; lia| |exact H].
  intros key. rewrite !stored_setitem. case_bool_decide; [eauto|apply Hkeys].
Qed.

Lemma cmd_reg_stored
    (cmd : string) (t : token) (n : Z) (rest : list token) (linenum : Z)
    (s s' : Session) (r : option action) :
  wf_register s cmd ->
  int (token_str t) = Some n ->
  cmd_reg cmd (t :: rest) linenum s = (s', Ok r) ->
  forall key,
    stored s' cmd key
    = match assigned rest key with
      | Some data => Some (FPair n data)
      | None =>
          if String.eqb key "length" then Some (FInt n)
          else if bool_decide (key ∈ paramtypes) then after_length n <$> stored s cmd key
          else stored s cmd key
      end.
Proof.
  intros Hwf Hint H key.
  destruct (cmd_reg_prepare cmd t n s Hwf Hint) as (s1 & _ & Hst & Hrun).
  rewrite Hrun in H. destruct (reg_params cmd n rest s1) as [s2 [u|e]] eqn:Hp;
    [|discriminate H].
  injection H as <- _. rewrite (reg_params_assigned _ _ _ _ _ _ Hp). now rewrite Hst.
Qed.

(** X16: what a successful register command leaves in its register.  A
    parameter the command gives holds the new length and the data of its
    last hex block; [length] holds the new bit count; any other parameter
    holds its old value unless that has a different nonzero length, in
    which case it holds [(0, '')]. *)
Theorem cmd_reg_stores
    (cmd : string) (t : token) (n : Z) (rest : list token) (linenum : Z)
    (s s' : Session) (r : option action) :
  wf_register s cmd ->
  int (token_str t) = Some n ->
  cmd_reg cmd (t :: rest) linenum s = (s', Ok r) ->
  forall key,
    stored s' cmd key
    = match assigned rest key with
      | Some data => Some (FPair n data)
      | None =>
          if String.eqb key "length" then Some (FInt n)
          else if bool_decide (key ∈ paramtypes) then after_length n <$> stored s cmd key
          else stored s cmd key
      end.
Proof. apply cmd_reg_stored. Qed.

(** X17: a register command is idempotent.  Issued again right after it
    succeeded, the same command succeeds again and every stored value of
    every register, the frequency and the four states are what they were
    after the first time. *)
Theorem cmd_reg_idempotent
    (cmd : string) (iterparams : list token) (linenum linenum' : Z)
    (s s1 : Session) (r : option action) :
  wf_register s cmd ->
  cmd_reg cmd iterparams linenum s = (s1, Ok r) ->
  exists s2,
    cmd_reg cmd iterparams linenum' s1 = (s2, Ok r)
    /\ (forall reg key, stored s2 reg key = stored s1 reg key)
    /\ FREQUENCY s2 = FREQUENCY s1 /\ ENDDR s2 = ENDDR s1 /\ ENDIR s2 = ENDIR s1
    /\ RUNSTATE s2 = RUNSTATE s1 /\ ENDSTATE s2 = ENDSTATE s1.
Proof.
  intros Hwf H.
  destruct iterparams as [|t rest].
  { unfold cmd_reg, bind, sticky_getitem in H.
    destruct (sticky s !! cmd); discriminate H. }
  destruct (cmd_reg_needs_count _ _ _ _ _ _ _ H) as [n Hint].
  destruct (cmd_reg_wf _ _ _ _ _ _ Hwf H) as [_ Hwf1].
  pose proof (cmd_reg_stored _ _ _ _ _ _ _ _ Hwf Hint H) as Hs1.
  destruct (cmd_reg_prepare cmd t n s Hwf Hint) as (sa & _ & Hsa & Hruna).
  destruct (cmd_reg_prepare cmd t n s1 Hwf1 Hint) as (sb & Hframe & Hsb & Hrunb).
  rewrite Hruna in H. destruct (reg_params cmd n rest sa) as [sa' [u|e]] eqn:Hpa;
    [|discriminate H].
  injection H as -> <-.
  destruct (reg_params_transfer cmd n rest sa s1 sb u) as [s2 Hpb]; [|assumption|].
  { intros key. rewrite Hsb, Hs1, Hsa.
    destruct (assigned rest key), (String.eqb key "length"); try (intros _; eauto; fail).
    - simpl. case_bool_decide; eauto.
    - case_bool_decide; [|auto].
      intros [v Hv]. destruct (stored s cmd key) as [w|]; [|discriminate Hv].
      simpl. eauto. }
  exists s2. rewrite Hrunb, Hpb.
  pose proof (reg_params_effect _ _ _ _ _ _ Hpb) as [Hframe2 _].
  pose proof (only_register_changed_trans _ _ _ _ Hframe Hframe2)
    as (Hother & _ & A & B & C & D & E).
  split; [reflexivity|]. split; [|now repeat split].
  intros reg key. destruct (decide (reg = cmd)) as [->|Hne].
  2:{ unfold stored. now rewrite Hother. }
  rewrite (reg_params_assigned _ _ _ _ _ _ Hpb), Hsb, Hs1.
  destruct (assigned rest key); [reflexivity|].
  destruct (String.eqb key "length"); [reflexivity|].
  case_bool_decide; [|reflexivity].
  destruct (stored s cmd key) as [w|]; [|reflexivity].
  simpl. now rewrite after_length_idem.
Qed.

(** ** Hex data: size of the result *)

Lemma hexpairs_length s bs :
  hexpairs s = Some bs -> String.length s = (2 * length bs)%nat.
Proof.
  assert (G : forall m s bs, (String.length s <= m)%nat ->
            hexpairs s = Some bs -> String.length s = (2 * length bs)%nat).
  { clear s bs. induction m as [|m IH]; intros s bs Hle H.
    { destruct s; [|simpl in Hle; lia]. simpl in H. injection H as <-. reflexivity. }
    destruct s as [|a [|b r]];
      [simpl in H; injection H as <-; reflexivity|simpl in H; discriminate H|].
    simpl in H. destruct (hexval a), (hexval b); try discriminate H.
    destruct (hexpairs r) as [bs'|] eqn:Hr; [|discriminate H].
    injection H as <-. apply IH in Hr; [|simpl in Hle; lia].
    simpl. lia. }
  now apply (G (String.length s)).
Qed.

(** X18: a hex block of [d] digits decodes to [(d + 1) / 2] bytes,
    however the digits are spread over the sub-tokens. *)
Theorem decode_hexdata_size (param : string) (values : list string)
    (data : list Init.Byte.byte) :
  decode_hexdata param values = Ok data ->
  length data = ((String.length (join values) + 1) / 2)%nat.
Proof.
  unfold decode_hexdata, unhexlify. rewrite pad_values_join.
  destruct (Nat.odd (String.length (join values))) eqn:Hodd.
  - change (String.length ("0" ++ join values)) with (S (String.length (join values))).
    rewrite Nat.odd_succ.
    destruct (Nat.even (String.length (join values))) eqn:Hev.
    + rewrite <- Nat.negb_odd, Hodd in Hev. discriminate Hev.
    + destruct (hexpairs ("0" ++ join values)) as [bs|] eqn:Hp; [|discriminate].
      intros [= <-]. apply hexpairs_length in Hp.
      change (String.length ("0" ++ join values))
        with (S (String.length (join values))) in Hp.
      replace (String.length (join values) + 1)%nat with (2 * length bs)%nat by lia.
      now rewrite Nat.mul_comm, Nat.div_mul.
  - rewrite Hodd. destruct (hexpairs (join values)) as [bs|] eqn:Hp; [|discriminate].
    intros [= <-]. apply hexpairs_length in Hp. rewrite Hp.
    replace (2 * length bs + 1)%nat with (1 + length bs * 2)%nat by lia.
    now rewrite Nat.div_add.
Qed.

(** ** [cmd_runtest]: further behaviour *)

(** X19: [RUNTEST] never changes the instance: whatever the parameters
    are, and whether it succeeds or fails, the state afterwards is the
    state before, and a record it yields carries the run and end states
    the instance already had. *)
Theorem cmd_runtest_changes_nothing
    (cmd : string) (iterparams : list token) (linenum : Z) (s s' : Session)
    (r : result (option action)) :
  cmd_runtest cmd iterparams linenum s = (s', r) ->
  s' = s
  /\ forall v, r = Ok v ->
       exists numclocks use_sck secs,
         v = Some (RunTest numclocks use_sck secs (RUNSTATE s) (ENDSTATE s) linenum).
Proof.
  intros H. pose proof (cmd_runtest_state cmd iterparams linenum s) as Hs.
  rewrite H in Hs. simpl in Hs. subst s'. split; [reflexivity|].
  intros v ->. unfold cmd_runtest in H. unfold bind at 1 in H.
  pose proof (runtest_loop_state iterparams runtest_start s) as Hl.
  destruct (runtest_loop iterparams runtest_start s) as [s1 [l|e]]; [|discriminate H].
  simpl in Hl. subst s1. injection H as <-. eauto.
Qed.

Lemma stable_not_timing x : x ∈ stable -> timing !! x = None.
Proof.
  intros H. apply stable_spec in H. destruct H as [->|[->|[->| ->]]]; reflexivity.
Qed.

Lemma runtest_step_stable_raises param l (s : Session) :
  token_str param ∈ stable ->
  exists e, runtest_step param l s = (s, Raise e)
    /\ (e = NameError "states" \/ is_SvfError e = true).
Proof.
  intros Hst. destruct (prev_num l) as [num|] eqn:Hn.
  - destruct (runtest_step_number_needs_unit param num l s Hn (stable_not_timing _ Hst))
      as (e & He & Hsvf). eauto.
  - now apply runtest_step_stable.
Qed.

(** X20: a [RUNTEST] command that contains the name of a stable state
    never succeeds.  Wherever the name stands, the command ends in
    [NameError] (where the grammar accepts the name) or in [SvfError], and
    the instance is unchanged. *)
Theorem cmd_runtest_with_state_name_fails
    (cmd : string) (iterparams : list token) (linenum : Z) (s : Session) :
  Exists (fun t => token_str t ∈ stable) iterparams ->
  exists e, cmd_runtest cmd iterparams linenum s = (s, Raise e)
    /\ (e = NameError "states" \/ is_SvfError e = true).
Proof.
  intros H.
  assert (G : forall l, exists e, runtest_loop iterparams l s = (s, Raise e)
                          /\ (e = NameError "states" \/ is_SvfError e = true)).
  { induction H as [t ts Ht|t ts _ IH]; intros l.
    - destruct (runtest_step_stable_raises t l s Ht) as (e & He & Hk).
      exists e. split; [|assumption]. now apply runtest_loop_Raise.
    - cbn [runtest_loop]. unfold bind.
      pose proof (runtest_step_state t l s) as Hs.
      destruct (runtest_step t l s) as [s1 [l1|e]] eqn:Hstep; simpl in Hs; subst s1.
      + apply IH.
      + exists e. split; [reflexivity|].
        (* a step that raises does so with one of the two kinds *)
        revert Hstep. unfold runtest_step, bind, global_states, raise, lift.
        repeat match goal with
               | |- context [match ?x with _ => _ end] => destruct x; simpl
               end; intros [= <-]; auto. }
  destruct (G runtest_start) as (e & He & Hk). exists e. split; [|assumption].
  unfold cmd_runtest. now apply bind_Raise.
Qed.

(** A token that reads as an integer is none of the keywords of
    [RUNTEST]. *)
Lemma int_not_keyword x n :
  int x = Some n ->
  (x ∉ stable) /\ timing !! x = None /\ x <> "MAXIMUM" /\ x <> "ENDSTATE".
Proof.
  intros H. repeat split.
  - intros Hs. apply stable_spec in Hs.
    destruct Hs as [->|[->|[->| ->]]]; discriminate H.
  - destruct (timing !! x) eqn:Ht; [|reflexivity].
    assert (Hs : is_Some (timing !! x)) by eauto.
    apply timing_spec in Hs. destruct Hs as [->|[->| ->]]; discriminate H.
  - intros ->. discriminate H.
  - intros ->. discriminate H.
Qed.

(** A number read while nothing is pending and no [ENDSTATE] is open is
    buffered. *)
Lemma runtest_step_buffer a n l (s : Session) :
  int (token_str a) = Some n ->
  prev_num l = None -> do_end l = false ->
  runtest_step a l s
  = (s, Ok (mkLocals (use_sck l) (secs l) (numclocks l)
              (do_max l) (do_end l) (did_end l) (Some a))).
Proof.
  intros Hint Hp He. destruct (int_not_keyword _ _ Hint) as (Hst & _ & Hmax & Hend).
  unfold runtest_step. rewrite Hp. cbn [do_end did_end do_max secs numclocks use_sck prev_num].
  rewrite bool_decide_eq_false_2 by assumption. rewrite He.
  apply String.eqb_neq in Hmax, Hend. now rewrite Hmax, Hend.
Qed.

Lemma runtest_step_clock a n unit l (s : Session) :
  unit = "TCK" \/ unit = "SCK" ->
  int (token_str a) = Some n ->
  prev_num l = Some a ->
  runtest_step (Word unit) l s
  = (if do_max l || differs (numclocks l) (fst (secs l))
     then (s, Raise (svf_error "Invalid %s specification" [AStr unit]))
     else (s, Ok (mkLocals (String.eqb unit "SCK") (secs l) (Some n)
                    (do_max l) (do_end l) (did_end l) None))).
Proof.
  intros Hu Hint Hp. unfold runtest_step. rewrite Hp.
  cbn [do_end did_end do_max secs numclocks use_sck prev_num token_str].
  destruct Hu as [-> | ->].
  - change (timing !! "TCK") with (Some 0). cbv iota. change (0 =? 2) with false.
    cbv iota. rewrite Hint. change (0 =? 1) with false.
    now destruct (do_max l || differs (numclocks l) (secs l).1).
  - change (timing !! "SCK") with (Some 1). cbv iota. change (1 =? 2) with false.
    cbv iota. rewrite Hint. change (1 =? 1) with true.
    now destruct (do_max l || differs (numclocks l) (secs l).1).
Qed.

Lemma runtest_loop_app xs ys l (s : Session) :
  runtest_loop (xs ++ ys) l s
  = bind (runtest_loop xs l) (fun l' => runtest_loop ys l') s.
Proof.
  revert l s. induction xs as [|x xs IH]; intros l s; [reflexivity|].
  cbn [app runtest_loop]. unfold bind.
  destruct (runtest_step x l s) as [s1 [l1|e]]; [|reflexivity].
  rewrite IH. reflexivity.
Qed.


(** X22: whether a clock or time was given is decided by comparing the
    clock count with the minimum seconds.  After [<n> TCK <m> SEC] the
    keyword [ENDSTATE] is accepted, even as the last word of the command,
    if the count and the seconds differ as numbers, and is rejected as
    unexpected if they are equal. *)
Theorem cmd_runtest_equal_count_and_seconds
    (a b : token) (n m : Z) (f : pyfloat) (linenum : Z) (s : Session) :
  int (token_str a) = Some n ->
  int (token_str b) = Some m ->
  float (token_str b) = Some f ->
  cmd_runtest "RUNTEST" [a; Word "TCK"; b; Word "SEC"; Word "ENDSTATE"] linenum s
  = (if float_eq_int f n
     then (s, Raise (svf_error "Unexpected ENDSTATE" []))
     else (s, Ok (Some (RunTest (Some n) false (Some f, None)
                          (RUNSTATE s) (ENDSTATE s) linenum)))).
Proof.
  intros Ha Hb Hf.
  assert (Hloop : runtest_loop [a; Word "TCK"; b; Word "SEC"] runtest_start s
            = (s, Ok (mkLocals false (Some f, None) (Some n) false false false None))).
  { cbn [runtest_loop]. unfold bind at 1.
    rewrite (runtest_step_buffer a n) by (assumption || reflexivity).
    unfold bind at 1.
    rewrite (runtest_step_clock a n "TCK") by (auto || reflexivity).
    cbn [runtest_start do_max numclocks secs fst orb differs].
    unfold bind at 1.
    rewrite (runtest_step_buffer b m) by (assumption || reflexivity).
    unfold bind at 1. unfold runtest_step at 1.
    cbn [prev_num token_str]. change (timing !! "SEC") with (Some 2).
    cbv iota. change (2 =? 2) with true. cbv iota.
    unfold secs_get, secs_set. cbn [do_max secs fst snd use_sck numclocks do_end did_end prev_num].
    rewrite Hf. reflexivity. }
  change [a; Word "TCK"; b; Word "SEC"; Word "ENDSTATE"]
    with ([a; Word "TCK"; b; Word "SEC"] ++ [Word "ENDSTATE"])%list.
  unfold cmd_runtest. unfold bind at 1.
  rewrite runtest_loop_app. unfold bind at 1. rewrite Hloop.
  cbn [runtest_loop]. unfold bind at 1. unfold runtest_step at 1.
  cbn [prev_num token_str do_end did_end do_max secs numclocks use_sck fst differs].
  change (bool_decide ("ENDSTATE" ∈ stable)) with false. cbv iota.
  change (String.eqb "ENDSTATE" "MAXIMUM") with false.
  change (String.eqb "ENDSTATE" "ENDSTATE") with true. cbv iota.
  destruct (float_eq_int f n); reflexivity.
Qed.

(** ** [parse] *)

(** X23: the store invariant holds along every parse.  Starting from a
    freshly initialised instance, after any token stream, whether the parse
    ends normally or in an exception, the six register dictionaries exist
    and each holds a pair under every parameter name. *)
Theorem parse_keeps_store_invariant
    (fname : string) (tokens : list (string * Z)) (s0 : Session) :
  init = Ok s0 ->
  wf (parse fname tokens s0).1.
Proof. intros H. apply parse_keeps_wf. now apply wf_init. Qed.

(** X24: [parse] stops at the first command that raises.  The records of
    the commands before it are yielded; the exception is re-raised with the
    line and name of the failing command if it is an [SvfError] and
    unchanged otherwise; the following commands are not run, and the
    instance is left as the failing command left it. *)
Theorem parse_stops_at_first_failure
    (fname : string) (at_cmd : option (Z * string))
    (before after : list command) (c : token) (iterparams : list token) (linenum : Z)
    (pending : option exn) (s s1 s2 : Session) (ys : list action) (e : exn) :
  Forall (fun cmd : command => cmd.1 <> []) before ->
  parse_loop fname at_cmd before None s = (s1, (ys, None)) ->
  run_command (c :: iterparams) linenum s1 = (s2, Raise e) ->
  parse_loop fname at_cmd (before ++ (c :: iterparams, linenum) :: after) pending s
  = (s2, (ys, Some (reraise fname (Some (linenum, token_str c)) e))).
Proof.
  intros Hne. revert at_cmd s ys.
  induction Hne as [|[ps l] before Hps _ IH]; intros at_cmd s ys Hrun Hfail.
  - simpl in Hrun. injection Hrun as <- <-. cbn [app parse_loop]. now rewrite Hfail.
  - cbn [fst] in Hps. destruct ps as [|c1 ps]; [contradiction|].
    cbn [app parse_loop] in Hrun |- *.
    destruct (run_command (c1 :: ps) l s) as [s' [value|e']]; [|discriminate Hrun].
    destruct (parse_loop fname (Some (l, token_str c1)) before None s')
      as [s'' [ys' e']] eqn:Hrest.
    injection Hrun as -> <- ->.
    rewrite (IH _ _ _ Hrest Hfail). reflexivity.
Qed.

Lemma cmd_reg_Ok_None cmd iterparams linenum (s s' : Session) v :
  cmd_reg cmd iterparams linenum s = (s', Ok v) -> v = None.
Proof.
  unfold cmd_reg, bind, sticky_getitem, ret.
  destruct (sticky s !! cmd); [|discriminate].
  destruct iterparams as [|t rest]; [discriminate|].
  destruct (int (token_str t)); [|discriminate].
  repeat match goal with
         | |- context [let (_, _) := ?x in _] => destruct x as [? [?|?]]
         end; congruence.
Qed.

Lemma cmd_shift_Ok_Some cmd iterparams linenum (s s' : Session) v :
  cmd_shift cmd iterparams linenum s = (s', Ok v) -> v <> None.
Proof.
  unfold cmd_shift. unfold bind at 1.
  destruct (cmd_reg cmd iterparams linenum s) as [s1 [r|e]]; [|discriminate].
  destruct (negb _); [discriminate|].
  unfold bind, lift, getattr, sticky_getitem, ret.
  destruct (second cmd); [|discriminate].
  repeat match goal with
         | |- context [if ?b then _ else _] => destruct b
         | |- context [match sticky s1 !! ?k with _ => _ end] => destruct (sticky s1 !! k)
         end; congruence.
Qed.

Lemma cmd_enddrir_Ok_None cmd iterparams linenum (s s' : Session) v :
  cmd_enddrir cmd iterparams linenum s = (s', Ok v) -> v = None.
Proof.
  unfold cmd_enddrir, bind, lift, ret. intros H.
  repeat match type of H with
         | context [match ?x with _ => _ end] => destruct x; try discriminate H
         end; congruence.
Qed.

Lemma cmd_frequency_Ok_Some cmd iterparams linenum (s s' : Session) v :
  cmd_frequency cmd iterparams linenum s = (s', Ok v) -> v <> None.
Proof.
  unfold cmd_frequency, bind, ret, set_FREQUENCY, modify. intros H.
  repeat match type of H with
         | context [match ?x with _ => _ end] => destruct x; try discriminate H
         end; congruence.
Qed.

Lemma cmd_runtest_Ok_Some cmd iterparams linenum (s s' : Session) v :
  cmd_runtest cmd iterparams linenum s = (s', Ok v) -> v <> None.
Proof.
  unfold cmd_runtest, bind, getattr, ret. simpl.
  destruct (runtest_loop iterparams runtest_start s) as [? [?|?]]; congruence.
Qed.

Lemma cmd_state_Ok_Some cmd iterparams linenum (s s' : Session) v :
  cmd_state cmd iterparams linenum s = (s', Ok v) -> v <> None.
Proof.
  unfold cmd_state, bind, lift, ret. intros H.
  repeat match type of H with
         | context [match ?x with _ => _ end] => destruct x; try discriminate H
         end; congruence.
Qed.

Lemma cmd_trst_Ok_Some cmd iterparams linenum (s s' : Session) v :
  cmd_trst cmd iterparams linenum s = (s', Ok v) -> v <> None.
Proof.
  unfold cmd_trst, bind, lift, ret. intros H.
  repeat match type of H with
         | context [match ?x with _ => _ end] => destruct x; try discriminate H
         end; congruence.
Qed.

(** X25: which commands yield a record.  A dispatched command that
    succeeds yields no record if it is [ENDIR], [ENDDR], [HDR], [HIR],
    [TDR] or [TIR], and exactly one record otherwise ([SIR], [SDR],
    [FREQUENCY], [RUNTEST], [STATE], [TRST]). *)
Theorem run_command_record
    (c : token) (iterparams : list token) (linenum : Z) (s s' : Session)
    (v : option action) :
  run_command (c :: iterparams) linenum s = (s', Ok v) ->
  (v = None <-> token_str c ∈ ["ENDIR"; "ENDDR"; "HDR"; "HIR"; "TDR"; "TIR"]).
Proof.
  unfold run_command.
  destruct (cmds !! token_str c) as [proc|] eqn:Hproc; [|discriminate].
  intros Hrun. rewrite !elem_of_cons, elem_of_nil.
  unfold cmds in Hproc. simpl in Hproc.
  repeat (apply lookup_insert_Some in Hproc as [[Hk <-]|[_ Hproc]];
          [rewrite <- Hk in *;
           first [ apply cmd_enddrir_Ok_None in Hrun
                 | apply cmd_reg_Ok_None in Hrun
                 | apply cmd_frequency_Ok_Some in Hrun
                 | apply cmd_shift_Ok_Some in Hrun
                 | apply cmd_runtest_Ok_Some in Hrun
                 | apply cmd_state_Ok_Some in Hrun
                 | apply cmd_trst_Ok_Some in Hrun ];
           split; [intros Hv; first [congruence | auto 10]
                  |intros Hin; first [assumption
                                     |destruct Hin as [E|[E|[E|[E|[E|[E|[]]]]]]];
                                      discriminate E]]
          |]).
  rewrite lookup_empty in Hproc. discriminate Hproc.
Qed.
(** ** Letter case *)

Lemma upper_ascii_fixes (a : ascii) :
  a = ";"%char \/ a = "("%char \/ a = ")"%char ->
  forall c, upper_ascii c = a <-> c = a.
Proof.
  intros Ha c. split.
  - destruct Ha as [->|[->| ->]];
      destruct c as [[] [] [] [] [] [] [] []]; vm_compute; congruence.
  - intros ->. destruct Ha as [->|[->| ->]]; reflexivity.
Qed.

Lemma prefix_upper t : forall d,
  Forall (fun a => a = ";"%char \/ a = "("%char \/ a = ")"%char) (chars d) ->
  String.prefix (upper t) d = String.prefix t d.
Proof.
  induction t as [|c t IH]; intros d Hd; [reflexivity|].
  destruct d as [|a d]; [reflexivity|].
  apply Forall_cons in Hd as [Ha Hd]. cbn [upper String.prefix].
  destruct (ascii_dec (upper_ascii c) a) as [E|E], (ascii_dec c a) as [E'|E'].
  - now apply IH.
  - apply (proj1 (upper_ascii_fixes a Ha c)) in E. contradiction.
  - apply (proj2 (upper_ascii_fixes a Ha c)) in E'. contradiction.
  - reflexivity.
Qed.

Lemma is_substring_upper t d :
  Forall (fun a => a = ";"%char \/ a = "("%char \/ a = ")"%char) (chars d) ->
  is_substring (upper t) d = is_substring t d.
Proof.
  induction d as [|a d IH]; intros Hd; cbn [is_substring].
  - now rewrite prefix_upper.
  - rewrite prefix_upper by assumption. apply Forall_cons in Hd as [_ Hd].
    now rewrite IH.
Qed.

Lemma eqb_upper_semicolon t : String.eqb (upper t) ";" = String.eqb t ";".
Proof.
  destruct t as [|c [|c2 r]]; cbn [upper String.eqb]; try reflexivity.
  all: destruct (Ascii.eqb_spec (upper_ascii c) ";") as [E|E],
         (Ascii.eqb_spec c ";") as [E'|E']; try reflexivity.
  all: first [ apply (proj1 (upper_ascii_fixes ";" (or_introl eq_refl) c)) in E;
               contradiction
             | apply (proj2 (upper_ascii_fixes ";" (or_introl eq_refl) c)) in E';
               contradiction ].
Qed.

Lemma upper_idem t : upper (upper t) = upper t.
Proof.
  induction t as [|c t IH]; [reflexivity|]. cbn [upper]. rewrite IH. f_equal.
  destruct c as [[] [] [] [] [] [] [] []]; reflexivity.
Qed.

(** The assembler on upper-cased tokens: the same commands, with the hex
    sub-tokens in upper case, and the same exception. *)
Lemma getcmds_from_upper tokens : forall sub cmd line,
  getcmds_from (map upper <$> sub) (map upper_token cmd) line
    (map (fun t : string * Z => (upper t.1, t.2)) tokens)
  = (map (fun c : command => (map upper_token c.1, c.2))
       (getcmds_from sub cmd line tokens).1,
     (getcmds_from sub cmd line tokens).2).
Proof.
  assert (Hd1 : Forall (fun a => a = ";"%char \/ a = "("%char \/ a = ")"%char) (chars ";("))
    by (repeat constructor; auto).
  assert (Hd2 : Forall (fun a => a = ";"%char \/ a = "("%char \/ a = ")"%char) (chars ");"))
    by (repeat constructor; auto).
  induction tokens as [|[tok l] rest IH]; intros sub cmd line.
  - simpl. destruct cmd; reflexivity.
  - cbn [map getcmds_from fst snd]. destruct sub as [subcmd|]; cbn [fmap option_fmap option_map].
    + rewrite is_substring_upper, eqb_upper_semicolon by assumption.
      destruct (is_substring tok ");").
      * destruct (String.eqb tok ";").
        -- destruct cmd as [|c cmd]; [reflexivity|]. cbn [map fst snd].
           now destruct c.
        -- rewrite <- IH. cbn [fmap option_fmap option_map].
           now rewrite map_app.
      * rewrite <- IH. cbn [fmap option_fmap option_map]. now rewrite map_app.
    + rewrite is_substring_upper, eqb_upper_semicolon by assumption.
      destruct (negb (is_substring tok ";(")).
      * rewrite <- IH. cbn [fmap option_fmap option_map].
        rewrite map_app. cbn [map upper_token]. now rewrite upper_idem.
      * destruct (String.eqb tok ";").
        -- destruct cmd as [|c cmd]; [apply (IH None [])|].
           specialize (IH None [] 0). cbn [fmap option_fmap option_map map] in IH.
           cbn [map]. rewrite IH.
           destruct (getcmds_from None [] 0 rest) as [ys e]. reflexivity.
        -- apply (IH (Some [])).
Qed.

Lemma token_str_upper t : token_str (upper_token t) = token_str t.
Proof. now destruct t. Qed.

Lemma length_upper s : String.length (upper s) = String.length s.
Proof. induction s as [|c s IH]; [reflexivity|]. cbn [upper String.length]. now rewrite IH. Qed.

Lemma upper_append a b : upper (a ++ b) = upper a ++ upper b.
Proof.
  induction a as [|c a IH]; [reflexivity|].
  change (upper (String c (a ++ b)) = String (upper_ascii c) (upper a ++ upper b)).
  cbn [upper]. now rewrite IH.
Qed.

Lemma join_upper l : join (map upper l) = upper (join l).
Proof.
  induction l as [|x l IH]; [reflexivity|].
  cbn [map]. now rewrite !join_cons, upper_append, IH.
Qed.

Lemma hexval_upper c : hexval (upper_ascii c) = hexval c.
Proof. destruct c as [[] [] [] [] [] [] [] []]; reflexivity. Qed.

Lemma hexpairs_upper s : hexpairs (upper s) = hexpairs s.
Proof.
  assert (G : forall m s, (String.length s <= m)%nat -> hexpairs (upper s) = hexpairs s).
  { clear s. induction m as [|m IH]; intros s Hle.
    { destruct s; [reflexivity|simpl in Hle; lia]. }
    destruct s as [|a [|b r]]; [reflexivity|reflexivity|].
    cbn [upper hexpairs]. rewrite !hexval_upper, IH; [reflexivity|simpl in Hle; lia]. }
  now apply (G (String.length s)).
Qed.

Lemma total_len_upper values : total_len (map upper values) = total_len values.
Proof.
  induction values as [|x l IH]; [reflexivity|].
  cbn [map total_len foldr] in *. unfold total_len in IH. now rewrite length_upper, IH.
Qed.

Lemma decode_hexdata_upper param values :
  decode_hexdata param (map upper values) = decode_hexdata param values.
Proof.
  unfold decode_hexdata, pad_values, unhexlify. rewrite total_len_upper.
  assert (E : join (if Nat.odd (total_len values) then "0" :: map upper values
                    else map upper values)
              = upper (join (if Nat.odd (total_len values) then "0" :: values else values))).
  { destruct (Nat.odd (total_len values)); [|apply join_upper].
    change ("0" :: map upper values) with (map upper ("0" :: values)). apply join_upper. }
  rewrite E, length_upper, hexpairs_upper. reflexivity.
Qed.

Lemma reg_params_upper reg n params (s : Session) :
  reg_params reg n (map upper_token params) s = reg_params reg n params s.
Proof.
  assert (G : forall m params (s : Session), (length params <= m)%nat ->
            reg_params reg n (map upper_token params) s = reg_params reg n params s).
  { clear params s. induction m as [|m IH]; intros params s Hle.
    { destruct params; [reflexivity|simpl in Hle; lia]. }
    destruct params as [|param [|[w|values] rest']];
      cbn [map upper_token reg_params]; rewrite ?token_str_upper; try reflexivity.
    rewrite decode_hexdata_upper. unfold bind, lift.
    destruct (reg_contains reg (token_str param) s) as [s1 [known|e]]; [|reflexivity].
    destruct (negb known); [reflexivity|].
    destruct (decode_hexdata (token_str param) values) as [data|e]; [|reflexivity].
    destruct (reg_setitem reg (token_str param) (FPair n data) s1) as [s3 [u|e]];
      [|reflexivity].
    apply IH. simpl in Hle. lia. }
  now apply (G (length params)).
Qed.

Lemma cmd_reg_upper cmd iterparams linenum (s : Session) :
  cmd_reg cmd (map upper_token iterparams) linenum s = cmd_reg cmd iterparams linenum s.
Proof.
  unfold cmd_reg. destruct iterparams as [|t rest]; [reflexivity|].
  cbn [map]. rewrite token_str_upper. unfold bind.
  destruct (sticky_getitem cmd s) as [s1 [mydict|e]]; [|reflexivity].
  destruct (int (token_str t)) as [z|]; [|reflexivity].
  destruct (reg_setitem mydict "length" (FInt z) s1) as [s2 [u|e]]; [|reflexivity].
  destruct (invalidate mydict z paramtypes s2) as [s3 [u'|e]]; [|reflexivity].
  now rewrite reg_params_upper.
Qed.

Lemma cmd_shift_upper cmd iterparams linenum (s : Session) :
  cmd_shift cmd (map upper_token iterparams) linenum s = cmd_shift cmd iterparams linenum s.
Proof. unfold cmd_shift, bind. now rewrite cmd_reg_upper. Qed.

Lemma cmd_enddrir_upper cmd iterparams linenum (s : Session) :
  cmd_enddrir cmd (map upper_token iterparams) linenum s
  = cmd_enddrir cmd iterparams linenum s.
Proof.
  unfold cmd_enddrir. destruct iterparams as [|a [|b r]]; cbn [map];
    rewrite ?token_str_upper; reflexivity.
Qed.

Lemma cmd_frequency_upper cmd iterparams linenum (s : Session) :
  cmd_frequency cmd (map upper_token iterparams) linenum s
  = cmd_frequency cmd iterparams linenum s.
Proof.
  unfold cmd_frequency. destruct iterparams as [|a [|b [|c r]]]; cbn [map];
    rewrite ?token_str_upper; reflexivity.
Qed.

Lemma cmd_trst_upper cmd iterparams linenum (s : Session) :
  cmd_trst cmd (map upper_token iterparams) linenum s = cmd_trst cmd iterparams linenum s.
Proof.
  unfold cmd_trst. destruct iterparams as [|a [|b r]]; cbn [map];
    rewrite ?token_str_upper; reflexivity.
Qed.

Lemma state_loop_upper iterparams acc :
  state_loop (map upper_token iterparams) acc = state_loop iterparams acc.
Proof.
  revert acc. induction iterparams as [|t ts IH]; intros acc; [reflexivity|].
  cbn [map state_loop]. rewrite token_str_upper.
  destruct (states !! token_str t); [apply IH|reflexivity].
Qed.

Lemma cmd_state_upper cmd iterparams linenum (s : Session) :
  cmd_state cmd (map upper_token iterparams) linenum s = cmd_state cmd iterparams linenum s.
Proof.
  unfold cmd_state. rewrite state_loop_upper.
  assert (E : last (map upper_token iterparams) = upper_token <$> last iterparams).
  { induction iterparams as [|a [|b r] IH]; [reflexivity|reflexivity|exact IH]. }
  rewrite E. destruct (last iterparams) as [t|]; [|reflexivity].
  cbn [fmap option_fmap option_map]. now rewrite token_str_upper.
Qed.

Lemma runtest_step_upper param l (s : Session) :
  runtest_step (upper_token param) (upper_locals l) s
  = (let (s', r) := runtest_step param l s in
     (s', match r with Ok l' => Ok (upper_locals l') | Raise e => Raise e end)).
Proof.
  unfold runtest_step, upper_locals, secs_get, secs_set, bind, global_states, raise, ret, lift.
  destruct l as [u sc nc dm de dd [num|]];
    cbn [prev_num use_sck secs numclocks do_max do_end did_end fmap option_fmap option_map];
    rewrite ?token_str_upper;
    repeat match goal with
           | |- context [match ?x with _ => _ end] => destruct x
           end; reflexivity.
Qed.

Lemma runtest_loop_upper iterparams : forall l (s : Session),
  runtest_loop (map upper_token iterparams) (upper_locals l) s
  = (let (s', r) := runtest_loop iterparams l s in
     (s', match r with Ok l' => Ok (upper_locals l') | Raise e => Raise e end)).
Proof.
  induction iterparams as [|t ts IH]; intros l s; [reflexivity|].
  cbn [map runtest_loop]. unfold bind. rewrite runtest_step_upper.
  destruct (runtest_step t l s) as [s1 [l1|e]]; [apply IH|reflexivity].
Qed.

Lemma cmd_runtest_upper cmd iterparams linenum (s : Session) :
  cmd_runtest cmd (map upper_token iterparams) linenum s
  = cmd_runtest cmd iterparams linenum s.
Proof.
  unfold cmd_runtest. unfold bind.
  change runtest_start with (upper_locals runtest_start) at 1.
  rewrite runtest_loop_upper.
  destruct (runtest_loop iterparams runtest_start s) as [s1 [l1|e]]; reflexivity.
Qed.

Lemma run_command_upper params linenum (s : Session) :
  run_command (map upper_token params) linenum s = run_command params linenum s.
Proof.
  unfold run_command. destruct params as [|c iterparams]; [reflexivity|].
  cbn [map]. rewrite token_str_upper.
  destruct (cmds !! token_str c) as [proc|] eqn:Hproc; [|reflexivity].
  unfold cmds in Hproc. simpl in Hproc.
  repeat (apply lookup_insert_Some in Hproc as [[_ <-]|[_ Hproc]];
          [first [ apply cmd_enddrir_upper | apply cmd_frequency_upper
                 | apply cmd_reg_upper | apply cmd_shift_upper
                 | apply cmd_runtest_upper | apply cmd_state_upper
                 | apply cmd_trst_upper ]|]).
  rewrite lookup_empty in Hproc. discriminate Hproc.
Qed.

Lemma parse_loop_upper fname commands : forall at_cmd pending (s : Session),
  parse_loop fname at_cmd
    (map (fun c : command => (map upper_token c.1, c.2)) commands) pending s
  = parse_loop fname at_cmd commands pending s.
Proof.
  induction commands as [|[ps l] rest IH]; intros at_cmd pending s; [reflexivity|].
  cbn [map fst snd]. destruct ps as [|c iterparams]; [reflexivity|].
  pose proof (run_command_upper (c :: iterparams) l s) as E.
  cbn [map parse_loop] in E |- *. rewrite E, token_str_upper.
  destruct (run_command (c :: iterparams) l s) as [s' [value|e]]; [|reflexivity].
  now rewrite IH.
Qed.

(** X26: the parser is insensitive to letter case, hex digits included.
    Putting every token of the stream in upper case changes neither the
    records yielded, nor the exception, nor the state left. *)
Theorem parse_case_insensitive
    (fname : string) (tokens : list (string * Z)) (s : Session) :
  parse fname (map (fun t : string * Z => (upper t.1, t.2)) tokens) s
  = parse fname tokens s.
Proof.
  unfold parse, getcmds.
  pose proof (getcmds_from_upper tokens None [] 0) as H.
  cbn [fmap option_fmap option_map map] in H. rewrite H.
  destruct (getcmds_from None [] 0 tokens) as [commands pending]. cbn [fst snd].
  apply parse_loop_upper.
Qed.

End ParseSVF.

(** * Concrete runs on the sample instance *)

Abbreviation sample_session := (new_session (pyfloat := Sample.decimal) 1%nat).

Lemma sample_init : init Sample.jtagstates = Ok sample_session.
Proof. reflexivity. Qed.

Lemma sample_stable_states :
  map (fun k => states Sample.jtagstates !! k) ["IRPAUSE"; "DRPAUSE"; "RESET"; "IDLE"]
  = [Some 13; Some 6; Some 0; Some 1]%nat.
Proof. reflexivity. Qed.

(** [RUNTEST 1.5 SEC MAXIMUM 2.0 SEC;] on the sample instance. *)
Lemma runtest_maximum_seconds_witness :
  cmd_runtest Sample.float Sample.float_eq_int "RUNTEST"
    [Word "1.5"; Word "SEC"; Word "MAXIMUM"; Word "2.0"; Word "SEC"] 7 sample_session
  = (sample_session,
     Ok (Some (RunTest None false (Some (15, 1%nat), Some (20, 1%nat)) 1%nat 1%nat 7))).
Proof.
  exact (proj1 (runtest_maximum_seconds Sample.float Sample.float_eq_int
                  (15, 1%nat) (20, 1%nat) 7 sample_session eq_refl eq_refl)).
Defined.

(** [STATE DRSHIFT IDLE;]: a state that is not stable, before a stable one. *)
Lemma cmd_state_checks_last_only_witness :
  cmd_state Sample.jtagstates "STATE" [Word "DRSHIFT"; Word "IDLE"] 3 sample_session
  = (sample_session, Ok (Some (State [4; 1]%nat 3))).
Proof.
  apply (cmd_state_checks_last_only Sample.jtagstates
           [Word "DRSHIFT"] (Word "IDLE") 0%nat 1%nat 3 sample_session).
  - reflexivity.
  - reflexivity.
  - repeat constructor.
  - apply stable_spec. simpl. auto.
Defined.

(** [SIR 8 TDI ( FF] and the end of the file. *)
Lemma getcmds_unclosed_paren_witness :
  getcmds_from None [Word "SIR"; Word "8"; Word "TDI"] 1 [("(", 1); ("FF", 1)]
  = ([([Word "SIR"; Word "8"; Word "TDI"], 1)], None).
Proof.
  apply (getcmds_unclosed_paren [Word "SIR"; Word "8"; Word "TDI"] 1 1 [("FF", 1)]).
  - discriminate.
  - repeat constructor.
Defined.

(** [SIR 8 TDI (FF);] on a fresh instance. *)
Lemma shift_emits_sticky_snapshot_witness :
  let s' := (cmd_reg "SIR" [Word "8"; Word "TDI"; HexData ["FF"]] 5 sample_session).1 in
  cmd_shift "SIR" [Word "8"; Word "TDI"; HexData ["FF"]] 5 sample_session
  = (s', Ok (Some (Shift "SIR" "HIR" "SIR" "TIR" 1%nat 5))).
Proof.
  intros s'.
  apply (shift_emits_sticky_snapshot "SIR" [Word "8"; Word "TDI"; HexData ["FF"]] 5
           sample_session s' None).
  - apply wf_new_session.
  - now left.
  - vm_compute. reflexivity.
Defined.

(** [SDR 8 TDI (AB);] followed by [SDR 16;]: the eight-bit value is dropped. *)
Lemma register_length_invalidation_witness :
  let s1 := (cmd_reg "SDR" [Word "8"; Word "TDI"; HexData ["AB"]] 1 sample_session).1 in
  let s2 := (cmd_reg "SDR" [Word "16"] 2 s1).1 in
  stored s1 "SDR" "TDI" = Some (FPair 8 [Init.Byte.xab])
  /\ stored s2 "SDR" "TDI" = Some nodata.
Proof.
  intros s1 s2. split; [vm_compute; reflexivity|].
  assert (Hwf : wf_register s1 "SDR").
  { apply cmd_reg_keeps_wf; [|apply wf_new_session| ].
    - unfold registers. rewrite !elem_of_cons. auto.
    - unfold registers. rewrite !elem_of_cons. auto. }
  apply (proj1 (register_length_invalidation "SDR" (Word "16") 16 [] 2 s1 s2
                  (cmd_reg "SDR" [Word "16"] 2 s1).2 Hwf eq_refl
                  (surjective_pairing _))
           "TDI" 8 [Init.Byte.xab]).
  - unfold paramtypes. rewrite !elem_of_cons. auto.
  - apply not_elem_of_nil.
  - vm_compute. reflexivity.
Defined.

(** [SDR 12 TDI (A BC);]: three digits over two sub-tokens, stored as
    the bytes [0x0A 0xBC]. *)
Lemma hexdata_padding_and_errors_witness :
  exists data s',
    hexpairs "0ABC" = Some data
    /\ decode_hexdata "TDI" ["A"; "BC"] = Ok data
    /\ cmd_reg "SDR" [Word "12"; Word "TDI"; HexData ["A"; "BC"]] 1 sample_session
       = (s', Ok None)
    /\ stored s' "SDR" "TDI" = Some (FPair 12 data).
Proof.
  refine (proj1 (proj2 (hexdata_padding_and_errors "SDR" (Word "12") 12 "TDI"
                          ["A"; "BC"] [] 1 sample_session _ eq_refl _)) _).
  - apply wf_new_session. unfold registers. rewrite !elem_of_cons. auto.
  - unfold paramtypes. rewrite !elem_of_cons. auto.
  - repeat constructor.
Defined.

(** The sequence [SDR 8 TDI (AB); SDR 16 TDI (CDEF); SDR 16;]: no
    eight-bit value is left after the second command, and the third keeps
    the sixteen-bit one. *)
Example sdr_8_16_16 :
  let run := parse Sample.jtagstates Sample.float Sample.float_eq_int "t.svf" in
  let s2 := (run [("SDR", 1); ("8", 1); ("TDI", 1); ("(", 1); ("AB", 1); (")", 1); (";", 1);
                  ("SDR", 2); ("16", 2); ("TDI", 2); ("(", 2); ("CDEF", 2); (")", 2); (";", 2)]
               sample_session).1 in
  let r3 := run [("SDR", 3); ("16", 3); (";", 3)] s2 in
  stored s2 "SDR" "TDI" = Some (FPair 16 [Init.Byte.xcd; Init.Byte.xef])
  /\ stored r3.1 "SDR" "TDI" = Some (FPair 16 [Init.Byte.xcd; Init.Byte.xef])
  /\ map (stored r3.1 "SDR") ["MASK"; "SMASK"; "TDO"] = [Some nodata; Some nodata; Some nodata]
  /\ r3.2 = ([Shift "SDR" "HDR" "SDR" "TDR" 1%nat 3], None).
Proof. vm_compute. repeat split. Qed.

(** C2 as stated fails: [SDR 0 TDI (AB);] stores the pair [(0, '\xab')];
    [SDR 8;] then sets a new nonzero length that differs from the stored
    one, and the pair is still there, not [(0, '')].  Both commands are
    accepted. *)
Lemma zero_length_value_survives :
  let r1 := cmd_shift "SDR" [Word "0"; Word "TDI"; HexData ["AB"]] 1 sample_session in
  let r2 := cmd_shift "SDR" [Word "8"] 2 r1.1 in
  r1.2 = Ok (Some (Shift "SDR" "HDR" "SDR" "TDR" 1%nat 1))
  /\ r2.2 = Ok (Some (Shift "SDR" "HDR" "SDR" "TDR" 1%nat 2))
  /\ stored r2.1 "SDR" "length" = Some (FInt 8)
  /\ ~ (forall p plen data,
          p ∈ paramtypes ->
          stored r1.1 "SDR" p = Some (FPair plen data) ->
          plen <> 8 ->
          stored r2.1 "SDR" p = Some nodata).
Proof.
  intros r1 r2. repeat split; try (vm_compute; reflexivity).
  intros H. specialize (H "TDI" 0 [Init.Byte.xab]).
  assert (E : stored r2.1 "SDR" "TDI" = Some nodata).
  { apply H.
    - unfold paramtypes. rewrite !elem_of_cons. auto.
    - vm_compute. reflexivity.
    - discriminate. }
  vm_compute in E. discriminate E.
Qed.

(** The same through [parse]. *)
Example parse_sdr_0_then_8 :
  let r := parse Sample.jtagstates Sample.float Sample.float_eq_int "t.svf"
             [("sdr", 1); ("0", 1); ("tdi", 1); ("(", 1); ("ab", 1); (")", 1); (";", 1);
              ("sdr", 2); ("8", 2); (";", 2)] sample_session in
  r.2 = ([Shift "SDR" "HDR" "SDR" "TDR" 1%nat 1; Shift "SDR" "HDR" "SDR" "TDR" 1%nat 2], None)
  /\ stored r.1 "SDR" "length" = Some (FInt 8)
  /\ stored r.1 "SDR" "TDI" = Some (FPair 0 [Init.Byte.xab]).
Proof. vm_compute. repeat split. Qed.

(** [parse] decorates an [SvfError] with the line, the file and the
    command; other exceptions pass through. *)
Example parse_unknown_command :
  (parse Sample.jtagstates Sample.float Sample.float_eq_int "t.svf"
     [("FOO", 4); ("1", 4); (";", 4)] sample_session).2
  = ([], Some (SvfError (Located 4 "t.svf" "FOO" (Fmt "Unknown command" [])))).
Proof. reflexivity. Qed.

Example upper_sir : upper "sir" = "SIR".
Proof. reflexivity. Qed.

Example svf_name_pause_dr : svf_name "pause_dr" = "DRPAUSE".
Proof. reflexivity. Qed.

Example int_100 : int "100" = Some 100.
Proof. reflexivity. Qed.

Example int_hexdata : int hexdata_text = None.
Proof. reflexivity. Qed.

(** * The tokenizer *)

Lemma evens_cons2 {A} (x y : A) l : evens (x :: y :: l) = x :: evens l.
Proof. reflexivity. Qed.

Lemma odds_cons2 {A} (x y : A) l : odds (x :: y :: l) = y :: odds l.
Proof. destruct l; reflexivity. Qed.

Lemma has_word_append a b : has_word (a ++ b) = has_word a || has_word b.
Proof.
  induction a as [|c a IH]; [reflexivity|].
  change (has_word (String c (a ++ b)) = has_word (String c a) || has_word b).
  cbn [has_word]. rewrite IH. now rewrite orb_assoc.
Qed.

Lemma blank_add_char gap ch : blank gap -> is_space ch = true -> blank (add_char gap ch).
Proof.
  unfold blank, add_char. intros Hg Hc. rewrite has_word_append, Hg.
  cbn [has_word orb]. now rewrite Hc.
Qed.

Lemma blank_space ch : is_space ch = true -> blank (String ch "").
Proof. unfold blank. cbn [has_word]. now intros ->. Qed.

Lemma prefix_empty t : String.prefix "" t = true.
Proof. now destruct t. Qed.

Lemma prefix_append p t u : String.prefix p t = true -> String.prefix p (t ++ u) = true.
Proof.
  revert t. induction p as [|c p IH]; intros t H; [apply prefix_empty|].
  destruct t as [|d t]; [discriminate|].
  change (String.prefix (String c p) (String d (t ++ u)) = true).
  simpl in *. destruct (ascii_dec c d); [now apply IH|discriminate].
Qed.

Lemma is_comment_add_char t ch : is_comment t = true -> is_comment (add_char t ch) = true.
Proof.
  unfold is_comment, add_char. rewrite !orb_true_iff.
  intros [H|H]; [left|right]; now apply prefix_append.
Qed.

Lemma chars_add_char t ch :
  list_ascii_of_string (add_char t ch) = (list_ascii_of_string t ++ [ch])%list.
Proof.
  unfold add_char. induction t as [|c t IH]; [reflexivity|].
  change (list_ascii_of_string (String c (t ++ String ch ""))
          = (c :: list_ascii_of_string t ++ [ch])%list).
  simpl. now rewrite IH.
Qed.

Lemma word_run_add_char t ch : word_run t -> is_wordchar ch = true -> word_run (add_char t ch).
Proof.
  intros [Hne Hall] Hc. split.
  - unfold add_char. destruct t; [contradiction|discriminate].
  - rewrite chars_add_char. apply Forall_app. split; [assumption|].
    now constructor.
Qed.

Lemma word_run_one ch : is_wordchar ch = true -> word_run (String ch "").
Proof. intros H. split; [discriminate|]. simpl. now repeat constructor. Qed.

Lemma re_split_end gap cur :
  blank gap -> growing_ok cur ->
  Forall blank (evens (re_split gap cur ""))
  /\ Forall (fun t => is_comment t = true \/ word_run t \/ single t)
       (odds (re_split gap cur "")).
Proof.
  intros Hgap Hcur. assert (Hbl : blank "") by reflexivity.
  destruct cur as [[t|t]|]; simpl in *.
  - split; repeat constructor; auto.
  - split; [repeat constructor; auto|]. constructor; [|constructor]. now (right; left).
  - split; repeat constructor; auto.
Qed.

(** The pieces of a split line: the text between matches is white space
    only, and every match is a comment, a run of word characters or one
    other visible character. *)
Lemma re_split_pieces s : forall gap cur,
  blank gap -> growing_ok cur ->
  Forall blank (evens (re_split gap cur s))
  /\ Forall (fun t => is_comment t = true \/ word_run t \/ single t)
       (odds (re_split gap cur s)).
Proof.
  remember (String.length s) as n eqn:Hn.
  assert (Hle : (String.length s <= n)%nat) by lia. clear Hn.
  revert s Hle. induction n as [|n IH]; intros s Hle gap cur Hgap Hcur.
  - destruct s; [|simpl in Hle; lia]. now apply re_split_end.
  - destruct s as [|ch r]; [now apply re_split_end|].
    simpl in Hle. assert (Hr : (String.length r <= n)%nat) by lia.
    assert (Hr' : forall c r', r = String c r' -> (String.length r' <= n)%nat).
    { intros c r' ->. simpl in Hr. lia. }
    assert (Hbl : blank "") by reflexivity.
    assert (Hstart : forall g, blank g ->
      Forall blank (evens (re_split g None (String ch r)))
      /\ Forall (fun t => is_comment t = true \/ word_run t \/ single t)
           (odds (re_split g None (String ch r)))).
    { intros g Hg. cbn [re_split].
      destruct (is_space ch) eqn:Hsp.
      { apply IH; auto using blank_add_char. exact I. }
      destruct (Ascii.eqb_spec ch "/") as [->|Hsl].
      { destruct r as [|c2 r'].
        - rewrite evens_cons2, odds_cons2.
          destruct (IH "" Hr "" None Hbl I) as [A B].
          split; constructor; auto. right. right. now exists "/"%char.
        - destruct (Ascii.eqb_spec c2 "/") as [->|Hc2].
          + apply IH; [eapply Hr'; reflexivity|assumption|reflexivity].
          + assert (E : match String c2 r' with
                        | String "/" r'0 => re_split g (Some (Comment "//")) r'0
                        | _ => g :: "/" :: re_split "" None (String c2 r')
                        end = g :: "/" :: re_split "" None (String c2 r')).
            { destruct c2 as [[] [] [] [] [] [] [] []]; try reflexivity.
              now contradiction Hc2. }
            rewrite E, evens_cons2, odds_cons2.
            destruct (IH (String c2 r') Hr "" None Hbl I) as [A B].
            split; constructor; auto. right. right. now exists "/"%char. }
      destruct (Ascii.eqb_spec ch "!") as [->|Hex].
      { apply IH; [assumption|assumption|reflexivity]. }
      destruct (is_wordchar ch) eqn:Hw.
      { apply IH; auto. now apply word_run_one. }
      rewrite evens_cons2, odds_cons2.
      destruct (IH r Hr "" None Hbl I) as [A B].
      split; constructor; auto. right. right. now exists ch. }
    destruct cur as [[t|t]|]; [| |now apply Hstart].
    + cbn [re_split]. destruct (Ascii.eqb_spec ch newline) as [->|Hnl]; simpl negb; cbv iota.
      * rewrite evens_cons2, odds_cons2.
        destruct (IH r Hr (String newline "") None) as [A B];
          [now apply blank_space|exact I|].
        split; constructor; auto.
      * apply IH; auto. now apply is_comment_add_char.
    + cbn [re_split]. destruct (is_wordchar ch) eqn:Hw.
      * apply IH; auto. now apply word_run_add_char.
      * rewrite evens_cons2, odds_cons2.
        destruct (Hstart "" Hbl) as [A B]. cbn [re_split] in A, B. rewrite Hw in A, B.
        destruct (is_space ch) eqn:Hsp.
        { destruct (IH r Hr (String ch "") None) as [A' B'];
            [now apply blank_space|exact I|].
          split; constructor; auto. }
        split; constructor; auto.
Qed.

Lemma blank_join l : Forall blank l -> has_word (join l) = false.
Proof.
  induction 1 as [|x l Hx _ IH]; [reflexivity|].
  rewrite join_cons, has_word_append, Hx, IH. reflexivity.
Qed.

Lemma line_gaps_blank line : has_word (join (evens (re_split "" None line))) = false.
Proof. apply blank_join, re_split_pieces; [reflexivity|exact I]. Qed.

Lemma gettokens_from_cons k line rest :
  gettokens_from k (line :: rest)
  = ((map (fun tok => (tok, k + 1)) (line_tokens line)
      ++ (gettokens_from (k + 1) rest).1)%list, (gettokens_from (k + 1) rest).2).
Proof.
  cbn [gettokens_from]. rewrite line_gaps_blank.
  now destruct (gettokens_from (k + 1) rest).
Qed.

Lemma gettokens_lines (lines : list string) :
  (gettokens lines).2 = None
  /\ forall tok l,
       In (tok, l) (gettokens lines).1
       <-> exists i line, lines !! i = Some line /\ l = Z.of_nat i + 1
             /\ In tok (line_tokens line).
Proof.
  unfold gettokens.
  assert (G : forall lines k,
    (gettokens_from k lines).2 = None
    /\ forall tok l,
         In (tok, l) (gettokens_from k lines).1
         <-> exists i line, lines !! i = Some line /\ l = k + Z.of_nat i + 1
               /\ In tok (line_tokens line)).
  { clear lines. induction lines as [|line rest IH]; intros k.
    - split; [reflexivity|]. intros tok l. split; [intros []|].
      intros (i & line & H & _). now rewrite lookup_nil in H.
    - rewrite gettokens_from_cons. destruct (IH (k + 1)) as [He Hin].
      split; [exact He|]. intros tok l. cbn [fst]. rewrite in_app_iff, in_map_iff, Hin.
      split.
      + intros [(t & [= -> <-] & Ht)|(i & ln & Hl & -> & Ht)].
        * exists 0%nat, line. repeat split; [lia|assumption].
        * exists (S i), ln. repeat split; [assumption|lia|assumption].
      + intros ([|i] & ln & Hl & -> & Ht).
        * injection Hl as ->. left. exists tok. split; [f_equal; lia|assumption].
        * right. exists i, ln. repeat split; [assumption|lia|assumption]. }
  destruct (G lines 0) as [He Hin]. split; [exact He|].
  intros tok l. rewrite Hin. now setoid_rewrite Z.add_0_l.
Qed.

(** X1: the tokenizer never raises.  Whatever the lines are, the text
    [re.split] leaves between the matches is white space, so the
    [Unexpected token] error cannot occur; every line contributes its
    tokens, stamped with its one-based number. *)
Theorem gettokens_never_raises (lines : list string) :
  (gettokens lines).2 = None
  /\ forall tok l,
       In (tok, l) (gettokens lines).1
       <-> exists i line, lines !! i = Some line /\ l = Z.of_nat i + 1
             /\ In tok (line_tokens line).
Proof. apply gettokens_lines. Qed.

Lemma word_run_not_comment t : word_run t -> is_comment t = false.
Proof.
  intros [Hne Hall]. destruct t as [|c t]; [contradiction|].
  apply Forall_inv in Hall. unfold is_comment.
  destruct c as [[] [] [] [] [] [] [] []]; try discriminate Hall; now destruct t.
Qed.

Lemma gettokens_tokens (lines : list string) (tok : string) (l : Z) :
  In (tok, l) (gettokens lines).1 ->
  (word_run tok \/ single tok) /\ is_comment tok = false /\ tok <> "".
Proof.
  intros H. apply gettokens_lines in H as (i & line & _ & _ & H).
  unfold line_tokens in H. apply filter_In in H as [H Hc].
  apply negb_true_iff in Hc.
  destruct (re_split_pieces line "" None) as [_ Hodd]; [reflexivity|exact I|].
  rewrite List.Forall_forall in Hodd. apply Hodd in H.
  destruct H as [H|H]; [congruence|].
  split; [assumption|]. split; [assumption|].
  destruct H as [[Hne _]|(c & -> & _)]; [assumption|discriminate].
Qed.

(** X2: every token the tokenizer yields is either a non-empty run of
    characters of the class [[a-zA-Z0-9.+-]] or one single character that
    is neither white space nor in that class; it is never empty and never a
    comment. *)
Theorem gettokens_token_shape (lines : list string) (tok : string) (l : Z) :
  In (tok, l) (gettokens lines).1 ->
  (word_run tok \/ single tok) /\ is_comment tok = false /\ tok <> "".
Proof. apply gettokens_tokens. Qed.

Lemma is_substring_first c t s :
  is_substring (String c t) s = true -> In c (list_ascii_of_string s).
Proof.
  induction s as [|d s IH]; [discriminate|].
  cbn [is_substring]. rewrite orb_true_iff. intros [H|H].
  - simpl in H. destruct (ascii_dec c d) as [->|]; [now left|discriminate].
  - right. now apply IH.
Qed.

(** X3: on the tokenizer's output the substring tests of [getcmds] are
    exact.  A token satisfies [token in ';('] only if it is [;] or [(],
    and [token in ');'] only if it is [)] or [;]: the empty string and the
    two-character strings, which also pass these tests, are never
    tokens. *)
Theorem gettokens_delimiters (lines : list string) (tok : string) (l : Z) :
  In (tok, l) (gettokens lines).1 ->
  (is_substring tok ";(" = true <-> tok = ";" \/ tok = "(")
  /\ (is_substring tok ");" = true <-> tok = ")" \/ tok = ";").
Proof.
  intros H. apply gettokens_tokens in H as (Hshape & _ & _).
  assert (G : forall a b : ascii,
    is_wordchar a = false -> is_wordchar b = false ->
    is_substring tok (String a (String b "")) = true
    <-> tok = String a "" \/ tok = String b "").
  { intros a b Ha Hb. split.
    - intros Hsub. destruct Hshape as [[Hne Hall]|(c & -> & _)].
      + destruct tok as [|c t]; [contradiction|].
        apply is_substring_first in Hsub. apply Forall_inv in Hall.
        simpl in Hsub. destruct Hsub as [<-|[<-|[]]]; congruence.
      + apply is_substring_first in Hsub. simpl in Hsub.
        destruct Hsub as [<-|[<-|[]]]; auto.
    - intros [->| ->]; cbn [is_substring]; simpl.
      + destruct (ascii_dec a a); [reflexivity|contradiction].
      + destruct (ascii_dec b a), (ascii_dec b b); try reflexivity; try contradiction.
        all: now rewrite orb_true_r. }
  split; apply G; reflexivity.
Qed.

(** ** Comments *)

Abbreviation kept l := (List.filter (fun tok => negb (is_comment tok)) (odds l)).

Lemma kept_cons2 g t l :
  kept (g :: t :: l) = ((if is_comment t then [] else [t]) ++ kept l)%list.
Proof. rewrite odds_cons2. cbn [List.filter]. now destruct (is_comment t). Qed.

Lemma append_assoc (a b c : string) : (a ++ b) ++ c = a ++ (b ++ c).
Proof.
  induction a as [|x a IH]; [reflexivity|].
  change (String x ((a ++ b) ++ c) = String x (a ++ (b ++ c))). now rewrite IH.
Qed.

Lemma comment_absorbs c : forall gap t,
  ~ In newline (list_ascii_of_string c) ->
  re_split gap (Some (Comment t)) c = [gap; t ++ c; ""].
Proof.
  induction c as [|ch c IH]; intros gap t Hnl.
  - simpl. now rewrite append_empty_r.
  - cbn [re_split]. simpl in Hnl.
    destruct (Ascii.eqb_spec ch newline) as [->|Hne]; [tauto|].
    cbn [negb]. rewrite IH by tauto. unfold add_char. now rewrite append_assoc.
Qed.

Lemma lookahead_other {A} (r : string) (a : string -> A) (b : A) :
  (forall r', r <> String "/" r') ->
  match r with String "/" r' => a r' | _ => b end = b.
Proof.
  intros H. destruct r as [|c r]; [reflexivity|].
  destruct c as [[] [] [] [] [] [] [] []]; try reflexivity.
  now contradiction (H r).
Qed.

(** Text that yields no token in whatever state the scanner reaches it can
    be appended to a line without changing the line's tokens, unless it
    starts with a slash that would pair with a slash ending the line. *)
Lemma kept_append_silent suffix :
  (forall gap cur, growing_ok cur ->
     kept (re_split gap cur suffix) = kept (re_split gap cur "")) ->
  forall code gap cur,
    growing_ok cur ->
    (forall p, code <> p ++ "/") \/ (forall r', suffix <> String "/" r') ->
    kept (re_split gap cur (code ++ suffix)) = kept (re_split gap cur code).
Proof.
  intros Hsil code.
  remember (String.length code) as n eqn:Hn.
  assert (Hle : (String.length code <= n)%nat) by lia. clear Hn.
  revert code Hle. induction n as [|n IH]; intros code Hle gap cur Hcur Hcond.
  { destruct code; [|simpl in Hle; lia]. now apply Hsil. }
  destruct code as [|ch r]; [now apply Hsil|].
  simpl in Hle. assert (Hr : (String.length r <= n)%nat) by lia.
  assert (Hcond_r : (forall p, r <> p ++ "/") \/ (forall r', suffix <> String "/" r')).
  { destruct Hcond as [H|H]; [left|now right].
    intros p ->. now apply (H (String ch p)). }
  change (String ch r ++ suffix) with (String ch (r ++ suffix)).
  (* the step taken when [ch] starts a new piece *)
  assert (Hstart : forall g,
    kept (re_split g None (String ch (r ++ suffix)))
    = kept (re_split g None (String ch r))).
  { intros g. cbn [re_split].
    destruct (is_space ch); [now apply IH|].
    destruct (Ascii.eqb_spec ch "/") as [->|Hsl].
    - destruct r as [|c2 r2].
      + change ("" ++ suffix) with suffix.
        destruct Hcond as [H|H]; [now contradiction (H "")|].
        rewrite lookahead_other by assumption.
        rewrite !kept_cons2. f_equal. now apply Hsil.
      + change (String c2 r2 ++ suffix) with (String c2 (r2 ++ suffix)).
        destruct (Ascii.eqb_spec c2 "/") as [->|Hc2].
        * apply IH; [simpl in Hr; lia|reflexivity|].
          destruct Hcond_r as [H|H]; [left|now right].
          intros p ->. now apply (H (String "/" p)).
        * destruct c2 as [[] [] [] [] [] [] [] []]; try (now contradiction Hc2);
            (rewrite !kept_cons2; f_equal;
             match goal with
             | |- kept (re_split _ _ (String ?c (?x ++ ?y))) = _ =>
                 change (String c (x ++ y)) with (String c x ++ y)
             end;
             apply IH; [assumption|exact I|assumption]).
    - destruct (Ascii.eqb ch "!"); [now apply IH|].
      destruct (is_wordchar ch) eqn:Hw; [apply IH; auto; now apply word_run_one|].
      rewrite !kept_cons2. f_equal. now apply IH. }
  destruct cur as [[t|t]|]; [| |apply Hstart].
  - cbn [re_split]. destruct (negb (Ascii.eqb ch newline)).
    + apply IH; auto. now apply is_comment_add_char.
    + rewrite !kept_cons2. f_equal. now apply IH.
  - cbn [re_split]. destruct (is_wordchar ch) eqn:Hw.
    + apply IH; auto. now apply word_run_add_char.
    + rewrite !kept_cons2. f_equal.
      specialize (Hstart ""). cbn [re_split] in Hstart. rewrite Hw in Hstart.
      destruct (is_space ch); [now apply IH|].
      destruct (Ascii.eqb ch "/"); [|destruct (Ascii.eqb ch "!")].
      * destruct (r ++ suffix) as [|x y] eqn:E1, r as [|x' y'] eqn:E2.
        all: try exact Hstart.
      * exact Hstart.
      * exact Hstart.
Qed.

Lemma is_comment_append t u : is_comment t = true -> is_comment (t ++ u) = true.
Proof.
  unfold is_comment. rewrite !orb_true_iff.
  intros [H|H]; [left|right]; now apply prefix_append.
Qed.

Lemma is_comment_bang c : is_comment ("!" ++ c) = true.
Proof.
  unfold is_comment. change ("!" ++ c) with (String "!" c). simpl.
  now rewrite prefix_empty.
Qed.

Lemma is_comment_slashes c : is_comment ("//" ++ c) = true.
Proof.
  unfold is_comment. change ("//" ++ c) with (String "/" (String "/" c)). simpl.
  now rewrite prefix_empty.
Qed.

Lemma bang_silent c :
  ~ In newline (list_ascii_of_string c) ->
  forall gap cur, growing_ok cur ->
    kept (re_split gap cur (String "!" c)) = kept (re_split gap cur "").
Proof.
  intros Hnl gap [[t|t]|] Hcur; cbn [re_split].
  - change (negb (Ascii.eqb "!" newline)) with true. cbv iota.
    rewrite comment_absorbs by assumption. simpl in Hcur.
    rewrite !kept_cons2, Hcur. unfold add_char.
    now rewrite is_comment_append by now apply is_comment_append.
  - change (is_wordchar "!") with false. cbv iota.
    change (is_space "!") with false. cbv iota.
    change (Ascii.eqb "!" "/") with false. change (Ascii.eqb "!" "!") with true. cbv iota.
    rewrite comment_absorbs by assumption.
    rewrite !kept_cons2. rewrite is_comment_bang. reflexivity.
  - change (is_space "!") with false. cbv iota.
    change (Ascii.eqb "!" "/") with false. change (Ascii.eqb "!" "!") with true. cbv iota.
    rewrite comment_absorbs by assumption.
    rewrite kept_cons2, is_comment_bang. reflexivity.
Qed.

Lemma slashes_silent c :
  ~ In newline (list_ascii_of_string c) ->
  forall gap cur, growing_ok cur ->
    kept (re_split gap cur (String "/" (String "/" c))) = kept (re_split gap cur "").
Proof.
  intros Hnl gap [[t|t]|] Hcur; cbn [re_split].
  - change (negb (Ascii.eqb "/" newline)) with true. cbv iota.
    change (negb (Ascii.eqb "/" newline)) with true. cbv iota.
    rewrite comment_absorbs by assumption.
    simpl in Hcur. rewrite !kept_cons2, Hcur. unfold add_char.
    rewrite (is_comment_append _ c); [reflexivity|].
    now do 2 apply is_comment_append.
  - change (is_wordchar "/") with false. cbv iota.
    change (is_space "/") with false. cbv iota.
    change (Ascii.eqb "/" "/") with true. cbv iota.
    rewrite comment_absorbs by assumption.
    rewrite !kept_cons2. rewrite is_comment_slashes. reflexivity.
  - change (is_space "/") with false. cbv iota.
    change (Ascii.eqb "/" "/") with true. cbv iota.
    rewrite comment_absorbs by assumption.
    rewrite kept_cons2, is_comment_slashes. reflexivity.
Qed.

(** X4: a comment at the end of a line does not change the line's tokens.
    Text after [!] is always dropped; text after [//] is dropped unless the
    line before it ends with a slash (three slashes in a row start the
    comment one character earlier). *)
Theorem line_tokens_comment (code c : string) :
  ~ In newline (list_ascii_of_string c) ->
  line_tokens (code ++ "!" ++ c) = line_tokens code
  /\ ((forall p, code <> p ++ "/") ->
      line_tokens (code ++ "//" ++ c) = line_tokens code).
Proof.
  intros Hnl. unfold line_tokens. split.
  - apply kept_append_silent; [now apply bang_silent|exact I|].
    right. intros r'. discriminate.
  - intros Hcode. apply kept_append_silent; [now apply slashes_silent|exact I|now left].
Qed.

(** * The command assembler *)

Lemma getcmds_from_nonempty tokens : forall sub cmd line (c : list token) (l : Z),
  In (c, l) (getcmds_from sub cmd line tokens).1 -> c <> [].
Proof.
  induction tokens as [|[tok ln] rest IH]; intros sub cmd line c l H.
  - simpl in H. destruct cmd; [destruct H|]. destruct H as [[= <- _]|[]]. easy.
  - cbn [getcmds_from] in H. destruct sub as [subcmd|].
    + destruct (is_substring tok ");").
      * destruct (String.eqb tok ";"); [destruct H|(eapply IH; exact H)].
      * (eapply IH; exact H).
    + destruct (negb (is_substring tok ";(")); [(eapply IH; exact H)|].
      destruct (String.eqb tok ";"); [|(eapply IH; exact H)].
      destruct cmd as [|t cmd]; [(eapply IH; exact H)|].
      destruct (getcmds_from None [] 0 rest) as [ys e] eqn:E.
      destruct H as [[= <- _]|H]; [easy|].
      apply (IH None [] 0 c l). now rewrite E.
Qed.

(** X5: [getcmds] never yields an empty command, whatever the tokens are
    and wherever the stream ends; [parse] can therefore always read the
    command name. *)
Theorem getcmds_commands_nonempty (tokens : list (string * Z)) (c : list token) (l : Z) :
  In (c, l) (getcmds tokens).1 -> c <> [].
Proof. apply getcmds_from_nonempty. Qed.

Lemma getcmds_block values : forall acc cmd line l rest,
  Forall (fun v => is_substring v ");" = false) values ->
  getcmds_from (Some acc) cmd line (map (fun v => (v, l)) values ++ (")", l) :: rest)
  = getcmds_from None (cmd ++ [HexData (acc ++ values)]) line rest.
Proof.
  induction values as [|v values IH]; intros acc cmd line l rest H.
  - simpl. now rewrite app_nil_r.
  - apply Forall_cons in H as [Hv H]. cbn [map app getcmds_from]. rewrite Hv.
    rewrite IH by assumption. now rewrite <- app_assoc.
Qed.

Lemma getcmds_render_tokens ts : forall cmd line l rest,
  Forall plain_token ts ->
  getcmds_from None cmd line (concat (map (render_token l) ts) ++ rest)
  = getcmds_from None (cmd ++ ts)
      (foldl (fun c t => match t with Word _ => if c =? 0 then l else c | _ => c end)
         line ts) rest.
Proof.
  induction ts as [|t ts IH]; intros cmd line l rest H.
  - simpl. now rewrite app_nil_r.
  - apply Forall_cons in H as [Ht H]. cbn [map concat]. rewrite <- app_assoc.
    destruct t as [w|values]; simpl in Ht.
    + destruct Ht as [Hup Hw]. cbn [render_token app getcmds_from]. rewrite Hw, Hup.
      cbn [negb]. rewrite IH by assumption. cbn [foldl]. now rewrite <- app_assoc.
    + cbn [render_token]. rewrite <- app_comm_cons. cbn [getcmds_from].
      change (is_substring "(" ";(") with true. cbn [negb].
      change (String.eqb "(" ";") with false. cbv iota.
      rewrite <- app_assoc. cbn [app].
      rewrite getcmds_block by assumption. rewrite IH by assumption.
      cbn [foldl app]. now rewrite <- app_assoc.
Qed.

(** X6: assembling is the inverse of writing commands out.  For commands
    that start with a word, whose words are upper-case non-delimiters and
    whose hex sub-tokens do not close their block, [getcmds] applied to
    their tokens, each command followed by [;], returns exactly these
    commands with their line numbers, and no exception. *)
Theorem getcmds_render (commands : list command) :
  Forall plain_command commands ->
  getcmds (concat (map render commands)) = (commands, None).
Proof.
  unfold getcmds. induction 1 as [|[ts l] commands [(w & rest & Hw) Hts] _ IH];
    [reflexivity|].
  cbn [map concat]. unfold render at 1. cbn [fst snd] in *.
  rewrite <- !app_assoc. rewrite getcmds_render_tokens by assumption.
  cbn [app getcmds_from]. change (is_substring ";" ";(") with true. cbn [negb].
  change (String.eqb ";" ";") with true. cbv iota.
  rewrite IH. subst ts. cbn [app foldl].
  assert (E : forall c, c <> 0 \/ l = 0 ->
     foldl (fun c t => match t with Word _ => if c =? 0 then l else c | _ => c end) c rest
     = if c =? 0 then l else c).
  { clear. induction rest as [|t rest IH]; intros c Hc; cbn [foldl].
    - destruct Hc as [Hc| ->]; [now apply Z.eqb_neq in Hc as ->|].
      now destruct (Z.eqb_spec c 0).
    - destruct t; [|now apply IH]. destruct (Z.eqb_spec c 0) as [->|Hc'].
      + rewrite IH; [|destruct (Z.eq_dec l 0); auto].
        now destruct (Z.eqb_spec l 0).
      + rewrite IH by auto. now apply Z.eqb_neq in Hc' as ->. }
  change (0 =? 0) with true. cbv iota.
  rewrite E by (destruct (Z.eq_dec l 0); auto).
  now destruct (Z.eqb_spec l 0) as [->|].
Qed.

Lemma getcmds_from_semicolon
    (cmd : list token) (line l l' : Z) (sub rest : list (string * Z)) :
  Forall (fun t : string * Z => is_substring t.1 ");" = false) sub ->
  getcmds_from None cmd line (("(", l) :: sub ++ (";", l') :: rest)
  = ([], Some match cmd with
              | [] => IndexError
              | c :: _ =>
                  SvfError (Args
                    [AStr ("Missing " ++ dq ++ ")" ++ dq ++ " in command %s on line %s");
                     ARepr (token_str c); AInt line])
              end).
Proof.
  intros Hsub. cbn [getcmds_from]. change (is_substring "(" ";(") with true. cbn [negb].
  change (String.eqb "(" ";") with false. cbv iota.
  generalize (@nil string).
  induction Hsub as [|[tok ln] sub Ht _ IH]; intros acc.
  - reflexivity.
  - cbn [app getcmds_from]. cbn [fst] in Ht. rewrite Ht. apply IH.
Qed.

(** X7: a semicolon inside parentheses ends the generator.  If the command
    being assembled already has a token the exception is the [SvfError]
    about the missing parenthesis; if the parenthesis opens the command,
    building that error fails first, with [IndexError].  Nothing more is
    yielded either way. *)
Theorem getcmds_semicolon_inside_parens
    (cmd : list token) (line l l' : Z) (sub rest : list (string * Z)) :
  Forall (fun t : string * Z => is_substring t.1 ");" = false) sub ->
  getcmds_from None cmd line (("(", l) :: sub ++ (";", l') :: rest)
  = ([], Some match cmd with
              | [] => IndexError
              | c :: _ =>
                  SvfError (Args
                    [AStr ("Missing " ++ dq ++ ")" ++ dq ++ " in command %s on line %s");
                     ARepr (token_str c); AInt line])
              end).
Proof. apply getcmds_from_semicolon. Qed.

(** X8: empty statements are ignored.  A semicolon that directly follows
    another one changes nothing, in whatever state the assembler is. *)
Theorem getcmds_double_semicolon (pre rest : list (string * Z)) (l l' : Z) :
  getcmds (pre ++ (";", l) :: (";", l') :: rest) = getcmds (pre ++ (";", l) :: rest).
Proof.
  unfold getcmds. generalize (@None (list string)) (@nil token) 0.
  induction pre as [|[tok ln] pre IH]; intros sub cmd line.
  - cbn [app getcmds_from]. destruct sub as [acc|]; [reflexivity|].
    change (is_substring ";" ";(") with true. cbn [negb].
    change (String.eqb ";" ";") with true. cbv iota.
    destruct cmd; reflexivity.
  - cbn [app getcmds_from]. destruct sub as [acc|].
    + destruct (is_substring tok ");"); [|apply IH].
      destruct (String.eqb tok ";"); [reflexivity|apply IH].
    + destruct (negb (is_substring tok ";(")); [apply IH|].
      destruct (String.eqb tok ";"); [|apply IH].
      destruct cmd; [apply IH|]. now rewrite IH.
Qed.

(** X27: a parenthesis that is not closed before the semicolon of the
    first command of a file does not surface as an [SvfError].  The
    assembler's error reaches [parse] before any command was read, so the
    handler fails on the unbound [linenum] with [UnboundLocalError]; if the
    parenthesis is the very first token, the assembler itself fails with
    [IndexError].  No record is yielded and the instance is unchanged. *)
Theorem parse_missing_paren_in_first_command
    {StateId pyfloat : Type} (jtagstates : list (string * StateId))
    (float : string -> option pyfloat) (float_eq_int : pyfloat -> Z -> bool)
    (fname : string) (words sub rest : list (string * Z)) (l l' : Z)
    (s : Session (StateId := StateId) (pyfloat := pyfloat)) :
  Forall (fun t : string * Z => is_substring t.1 ";(" = false) words ->
  Forall (fun t : string * Z => is_substring t.1 ");" = false) sub ->
  parse jtagstates float float_eq_int fname
    (words ++ ("(", l) :: sub ++ (";", l') :: rest) s
  = (s, ([], Some match words with
                  | [] => IndexError
                  | _ => UnboundLocalError "linenum"
                  end)).
Proof.
  intros Hw Hsub. unfold parse, getcmds.
  rewrite getcmds_words by assumption.
  rewrite getcmds_from_semicolon by assumption.
  destruct words as [|w words]; reflexivity.
Qed.

(** * Concrete runs for the further properties *)

Lemma gettokens_token_shape_witness :
  (word_run "SIR" \/ single "SIR") /\ is_comment "SIR" = false /\ "SIR" <> "".
Proof.
  apply (gettokens_token_shape ["SIR 8 TDI (FF);"] "SIR" 1).
  vm_compute. left. reflexivity.
Defined.

Lemma gettokens_delimiters_witness :
  (is_substring "(" ";(" = true <-> "(" = ";" \/ "(" = "(")
  /\ (is_substring "(" ");" = true <-> "(" = ")" \/ "(" = ";").
Proof.
  apply (gettokens_delimiters ["SIR 8 TDI (FF);"] "(" 1).
  vm_compute. do 3 right. left. reflexivity.
Defined.

Lemma line_tokens_comment_witness :
  line_tokens ("SDR 8;" ++ "!" ++ " header") = line_tokens "SDR 8;".
Proof.
  refine (proj1 (line_tokens_comment "SDR 8;" " header" _)).
  simpl. intros H.
  repeat (destruct H as [H|H]; [discriminate H|]). exact H.
Defined.

Lemma getcmds_commands_nonempty_witness : [Word "SIR"; Word "8"] <> [].
Proof.
  apply (getcmds_commands_nonempty [("sir", 1); ("8", 1); (";", 1)] [Word "SIR"; Word "8"] 1).
  vm_compute. left. reflexivity.
Defined.

Lemma getcmds_render_witness :
  getcmds (concat (map render
             [([Word "SIR"; Word "8"; Word "TDI"; HexData ["ff"]], 1);
              ([Word "ENDIR"; Word "IDLE"], 2)]))
  = ([([Word "SIR"; Word "8"; Word "TDI"; HexData ["ff"]], 1);
      ([Word "ENDIR"; Word "IDLE"], 2)], None).
Proof.
  apply getcmds_render.
  repeat constructor; try (eexists _, _; reflexivity);
    repeat constructor.
Defined.

Lemma getcmds_semicolon_inside_parens_witness :
  getcmds_from None [Word "SIR"] 1 (("(", 1) :: [("FF", 1)] ++ (";", 2) :: [])
  = ([], Some (SvfError (Args
       [AStr ("Missing " ++ dq ++ ")" ++ dq ++ " in command %s on line %s");
        ARepr "SIR"; AInt 1]))).
Proof.
  apply (getcmds_semicolon_inside_parens [Word "SIR"] 1 1 2 [("FF", 1)] []).
  repeat constructor.
Defined.

Lemma parse_missing_paren_in_first_command_witness :
  parse Sample.jtagstates Sample.float Sample.float_eq_int "t.svf"
    ([("SIR", 1); ("8", 1)] ++ ("(", 1) :: [("FF", 1)] ++ (";", 2) :: []) sample_session
  = (sample_session, ([], Some (UnboundLocalError "linenum"))).
Proof.
  apply (parse_missing_paren_in_first_command Sample.jtagstates Sample.float
           Sample.float_eq_int "t.svf" [("SIR", 1); ("8", 1)] [("FF", 1)] [] 1 2
           sample_session);
    repeat constructor.
Defined.

Lemma cmd_frequency_outcomes_witness :
  (cmd_frequency Sample.float "FREQUENCY" [Word "1.5"; Word "HZ"] 4 sample_session).2
    = Ok (Some (Frequency (Some (15, 1%nat)) 4))
  /\ FREQUENCY (cmd_frequency Sample.float "FREQUENCY" [Word "1.5"; Word "HZ"] 4
                  sample_session).1
     = Some (15, 1%nat).
Proof.
  exact (proj1 (proj2 (proj2
           (cmd_frequency_outcomes Sample.float "FREQUENCY" [Word "1.5"; Word "HZ"] 4
              sample_session _ _ (surjective_pairing _))))
           (Word "1.5") (Word "HZ") (15, 1%nat) eq_refl eq_refl eq_refl).
Defined.

Lemma cmd_trst_outcomes_witness :
  (cmd_trst "TRST" [Word "ON"] 2 sample_session).1 = sample_session.
Proof.
  exact (proj1 (cmd_trst_outcomes "TRST" [Word "ON"] 2 sample_session _ _
                  (surjective_pairing _))).
Defined.

Lemma cmd_state_outcomes_witness :
  (cmd_state Sample.jtagstates "STATE" [Word "DRSHIFT"; Word "IDLE"] 2 sample_session).1
  = sample_session.
Proof.
  exact (proj1 (cmd_state_outcomes Sample.jtagstates "STATE"
                  [Word "DRSHIFT"; Word "IDLE"] 2 sample_session _ _
                  (surjective_pairing _))).
Defined.

Lemma cmd_enddrir_outcomes_witness :
  ENDIR (cmd_enddrir Sample.jtagstates "ENDIR" [Word "IRPAUSE"] 3 sample_session).1
  = 13%nat.
Proof.
  destruct (cmd_enddrir_outcomes Sample.jtagstates "ENDIR" [Word "IRPAUSE"] 3
              sample_session _ _ (or_introl eq_refl) (surjective_pairing _))
    as [(state & v & Hp & _ & Hv & _ & Hend & _)|(e & Hr & _)].
  - injection Hp as <-. transitivity v; [exact (proj1 Hend)|].
    vm_compute in Hv. now injection Hv as <-.
  - vm_compute in Hr. discriminate Hr.
Defined.

Lemma cmd_reg_fails_after_update_witness :
  exists s' e,
    cmd_reg "SDR" [Word "8"; Word "FOO"] 1 sample_session = (s', Raise e)
    /\ is_SvfError e = true
    /\ stored s' "SDR" "length" = Some (FInt 8).
Proof.
  destruct (cmd_reg_fails_after_update "SDR" (Word "8") (Word "FOO") 8 [] 1 sample_session)
    as (s' & e & H1 & H2 & H3 & _).
  - apply wf_new_session. unfold registers. rewrite !elem_of_cons. auto.
  - reflexivity.
  - left. split; [vm_compute; reflexivity|discriminate].
  - exists s', e. auto.
Defined.

Lemma cmd_reg_touches_own_register_witness :
  sticky (cmd_reg "HDR" [Word "8"; Word "TDI"; HexData ["FF"]] 1 sample_session).1 !! "SDR"
  = sticky sample_session !! "SDR".
Proof.
  refine (proj1 (cmd_reg_touches_own_register "HDR"
                   [Word "8"; Word "TDI"; HexData ["FF"]] 1 sample_session _ _
                   _ _ (surjective_pairing _)) "SDR" _).
  - apply wf_new_session.
  - unfold registers. rewrite !elem_of_cons. auto.
  - discriminate.
Defined.

Lemma cmd_reg_stores_witness :
  let params := [Word "8"; Word "TDI"; HexData ["AA"]; Word "TDI"; HexData ["BB"]] in
  stored (cmd_reg "SDR" params 1 sample_session).1 "SDR" "TDI"
  = Some (FPair 8 [Init.Byte.xbb]).
Proof.
  intros params.
  refine (cmd_reg_stores "SDR" (Word "8") 8
            [Word "TDI"; HexData ["AA"]; Word "TDI"; HexData ["BB"]] 1 sample_session
            _ None _ eq_refl _ "TDI").
  - apply wf_new_session. unfold registers. rewrite !elem_of_cons. auto.
  - vm_compute. reflexivity.
Defined.

Lemma cmd_reg_idempotent_witness :
  let params := [Word "8"; Word "TDI"; HexData ["AA"]] in
  let s1 := (cmd_reg "SDR" params 1 sample_session).1 in
  exists s2,
    cmd_reg "SDR" params 2 s1 = (s2, Ok None)
    /\ forall reg key, stored s2 reg key = stored s1 reg key.
Proof.
  intros params s1.
  destruct (cmd_reg_idempotent "SDR" params 1 2 sample_session s1 None)
    as (s2 & H1 & H2 & _).
  - apply wf_new_session. unfold registers. rewrite !elem_of_cons. auto.
  - vm_compute. reflexivity.
  - exists s2. auto.
Defined.

Lemma decode_hexdata_size_witness :
  length [Init.Byte.x0a; Init.Byte.xbc] = ((String.length (join ["A"; "BC"]) + 1) / 2)%nat.
Proof.
  apply (decode_hexdata_size "TDI" ["A"; "BC"]). reflexivity.
Defined.

Lemma cmd_runtest_changes_nothing_witness :
  (cmd_runtest Sample.float Sample.float_eq_int "RUNTEST" [Word "100"; Word "TCK"] 1
     sample_session).1
  = sample_session.
Proof.
  exact (proj1 (cmd_runtest_changes_nothing Sample.float Sample.float_eq_int "RUNTEST"
                  [Word "100"; Word "TCK"] 1 sample_session _ _
                  (surjective_pairing _))).
Defined.

Lemma cmd_runtest_with_state_name_fails_witness :
  exists e,
    cmd_runtest Sample.float Sample.float_eq_int "RUNTEST"
      [Word "IDLE"; Word "100"; Word "TCK"] 1 sample_session
    = (sample_session, Raise e)
    /\ (e = NameError "states" \/ is_SvfError e = true).
Proof.
  apply cmd_runtest_with_state_name_fails.
  apply Exists_cons_hd. apply stable_spec. simpl. auto.
Defined.


Lemma cmd_runtest_equal_count_and_seconds_witness :
  cmd_runtest Sample.float Sample.float_eq_int "RUNTEST"
    [Word "5"; Word "TCK"; Word "5"; Word "SEC"; Word "ENDSTATE"] 1 sample_session
  = (sample_session, Raise (svf_error "Unexpected ENDSTATE" [])).
Proof.
  exact (cmd_runtest_equal_count_and_seconds Sample.float Sample.float_eq_int
           (Word "5") (Word "5") 5 5 (5, 0%nat) 1 sample_session
           eq_refl eq_refl eq_refl).
Defined.

Lemma parse_keeps_store_invariant_witness :
  wf (parse Sample.jtagstates Sample.float Sample.float_eq_int "t.svf"
        [("SDR", 1); ("8", 1); ("TDI", 1); ("(", 1); ("AB", 1)] sample_session).1.
Proof.
  apply parse_keeps_store_invariant. reflexivity.
Defined.

Lemma parse_stops_at_first_failure_witness :
  parse_loop Sample.jtagstates Sample.float Sample.float_eq_int "t.svf" None
    ([([Word "ENDIR"; Word "IRPAUSE"], 1)]
       ++ ([Word "FOO"], 2) :: [([Word "ENDIR"; Word "IDLE"], 3)])
    None sample_session
  = ((cmd_enddrir Sample.jtagstates "ENDIR" [Word "IRPAUSE"] 1 sample_session).1,
     ([], Some (reraise "t.svf" (Some (2, "FOO")) (svf_error "Unknown command" [])))).
Proof.
  apply (parse_stops_at_first_failure Sample.jtagstates Sample.float Sample.float_eq_int
           "t.svf" None [([Word "ENDIR"; Word "IRPAUSE"], 1)]
           [([Word "ENDIR"; Word "IDLE"], 3)]
           (Word "FOO") [] 2 None sample_session
           (cmd_enddrir Sample.jtagstates "ENDIR" [Word "IRPAUSE"] 1 sample_session).1
           (cmd_enddrir Sample.jtagstates "ENDIR" [Word "IRPAUSE"] 1 sample_session).1
           [] (svf_error "Unknown command" [])).
  - repeat constructor. discriminate.
  - vm_compute. reflexivity.
  - vm_compute. reflexivity.
Defined.

Lemma run_command_record_witness :
  (@None (action (StateId := nat) (pyfloat := Sample.decimal))) = None
  <-> "HDR" ∈ ["ENDIR"; "ENDDR"; "HDR"; "HIR"; "TDR"; "TIR"].
Proof.
  apply (run_command_record Sample.jtagstates Sample.float Sample.float_eq_int
           (Word "HDR") [Word "8"] 1 sample_session
           (cmd_reg "HDR" [Word "8"] 1 sample_session).1).
  vm_compute. reflexivity.
Defined.
